(** * Threefry splittable generator and scatter_nd of [tvm.topi]

    A shallow embedding of
    - [python/tvm/topi/generic/algorithm.py]: [_threefry], [_shift_right],
      [threefry_generate], [threefry_split];
    - [python/tvm/topi/scatter.py]: [scatter_nd], and [scatter] with the
      hybrid scripts [_scatter_1d] to [_scatter_4d].

    The Python functions are IR builders: running them emits a sequence of
    loads, stores, loops and branches over flat buffers of machine words,
    and that emitted program is what runs.  The embedding gives the meaning
    of the emitted program: a Python [for ... in range(..)] and an
    [irb.for_range] are both loops here, [irb.if_scope] / [irb.else_scope]
    is a conditional, and [buf[i] = e] evaluates [e] at the moment the
    store executes. *)

From Stdlib Require Import ZArith List Lia Bool String.
Import ListNotations.
Local Open Scope string_scope.
Local Open Scope list_scope.
Local Open Scope Z_scope.

(** ** Unsigned 64-bit words

    Every buffer of the generator has dtype [uint64]; a word is a [Z] in
    [0, 2^64) and each operation writes its wrap-around out. *)
Module U64.

Definition modulus : Z := 2 ^ 64.

Definition wrap (z : Z) : Z := z mod modulus.
Definition in_range (z : Z) : Prop := 0 <= z < modulus.

Definition add (a b : Z) : Z := wrap (a + b).
Definition sub (a b : Z) : Z := wrap (a - b).
Definition xor (a b : Z) : Z := Z.lxor a b.
Definition or (a b : Z) : Z := Z.lor a b.
Definition shl (a n : Z) : Z := wrap (Z.shiftl a n).
Definition shr (a n : Z) : Z := Z.shiftr a n.
Definition ltb (a b : Z) : bool := a <? b.
Definition eqb (a b : Z) : bool := a =? b.

End U64.

(** ** Signed 64-bit integers

    An arithmetic or comparison node built from a signed and an unsigned
    operand takes both operands at the signed type of the wider width.
    [of_word] is the [int64] that has the bits of a 64-bit word.  The one
    signed subtraction of the source is [-1 - out_len], with [out_len] the
    value of an integer constant, at most [2^63 - 1]: the difference is
    within [int64], and [sub] is written without wrap-around. *)
Module I64.

Definition of_word (w : Z) : Z := if w <? 2 ^ 63 then w else w - 2 ^ 64.
Definition sub (a b : Z) : Z := a - b.
Definition ltb (a b : Z) : bool := a <? b.

End I64.

(** ** Buffers and the bounds audit

    A buffer is a name, the extent it was declared or allocated with, and
    its cells.  The emitted code has no bounds checks: a load or store
    addresses the cell at the given index whatever the extent is.  The cells
    are therefore a total map, and every access is audited on the side: the
    computation carries the list of accesses that left the extent. *)

Record buffer : Type := Buffer {
  name : string;
  extent : Z;
  cell : Z -> Z
}.

(** An access outside the extent: the buffer's name, its extent, and the
    index used.  Two allocations of the source share the name [tmp]; the
    extent tells them apart. *)
Definition oob : Type := (string * Z * Z)%type.

Definition Ir (A : Type) : Type := (A * list oob)%type.

Definition ret {A} (a : A) : Ir A := (a, []).

Definition bind {A B} (m : Ir A) (k : A -> Ir B) : Ir B :=
  let '(a, l1) := m in
  let '(b, l2) := k a in
  (b, l1 ++ l2).

Declare Scope ir_scope.
Delimit Scope ir_scope with ir.
Notation "x <- m ;; k" := (bind m (fun x => k))
  (at level 61, m at next level, right associativity) : ir_scope.
Notation "' p <- m ;; k" := (bind m (fun p => k))
  (at level 61, p pattern, m at next level, right associativity) : ir_scope.
Local Open Scope ir_scope.

Definition value {A} (m : Ir A) : A := fst m.
Definition violations {A} (m : Ir A) : list oob := snd m.

Definition in_extent (b : buffer) (i : Z) : bool :=
  (0 <=? i) && (i <? extent b).

Definition audit (b : buffer) (i : Z) : list oob :=
  if in_extent b i then [] else [(name b, extent b, i)].

Definition upd (m : Z -> Z) (i v : Z) : Z -> Z :=
  fun j => if j =? i then v else m j.

Definition load (b : buffer) (i : Z) : Ir Z := (cell b i, audit b i).

Definition store (b : buffer) (i v : Z) : Ir buffer :=
  (Buffer (name b) (extent b) (upd (cell b) i v), audit b i).

(** [range n] is Python's [range(n)], also the index set of
    [irb.for_range(0, n)]. *)
Definition range (n : Z) : list Z := map Z.of_nat (seq 0 (Z.to_nat n)).

Fixpoint for_each {S} (l : list Z) (body : Z -> S -> Ir S) (s : S) : Ir S :=
  match l with
  | [] => ret s
  | i :: l' => s' <- body i s ;; for_each l' body s'
  end.

(** The first [n] words of a buffer from offset [off]. *)
Definition words (b : buffer) (off n : Z) : list Z :=
  map (fun i => cell b (off + i)) (range n).

(** A buffer holding the given words (a tensor passed in by the caller);
    [rest] is whatever lies behind it in memory. *)
Definition of_list (nm : string) (l : list Z) (rest : Z -> Z) : buffer :=
  Buffer nm (Z.of_nat (List.length l))
    (fun i => if (0 <=? i) && (i <? Z.of_nat (List.length l))
              then nth (Z.to_nat i) l 0 else rest i).

(** ** Constant tables *)

Definition _ROTATIONS (nwords : Z) : list (list Z) :=
  if nwords =? 4 then
    [[14; 16]; [52; 57]; [23; 40]; [5; 37]; [25; 33]; [46; 12]; [58; 22]; [32; 32]]
  else if nwords =? 8 then
    [[46; 36; 19; 37];
     [33; 27; 14; 42];
     [17; 49; 36; 39];
     [44; 9; 54; 56];
     [39; 30; 34; 24];
     [13; 50; 10; 17];
     [25; 29; 39; 43];
     [8; 35; 56; 22]]
  else if nwords =? 16 then
    [[24; 13; 8; 47; 8; 17; 22; 37];
     [38; 19; 10; 55; 49; 18; 23; 52];
     [33; 4; 51; 13; 34; 41; 59; 17];
     [5; 20; 48; 41; 47; 28; 16; 25];
     [41; 9; 37; 31; 12; 47; 44; 30];
     [16; 34; 56; 51; 4; 53; 42; 41];
     [31; 44; 47; 46; 19; 42; 44; 25];
     [9; 48; 35; 52; 23; 31; 37; 20]]
  else [].

Definition _PERMUTATIONS (nwords : Z) : list Z :=
  if nwords =? 4 then [0; 3; 2; 1]
  else if nwords =? 8 then [2; 1; 4; 7; 6; 5; 0; 3]
  else if nwords =? 16 then [0; 9; 2; 13; 6; 11; 4; 15; 10; 7; 12; 3; 14; 5; 8; 1]
  else [].

Definition znth {A} (l : list A) (i : Z) (d : A) : A := nth (Z.to_nat i) l d.

Definition rotation (nwords r j : Z) : Z :=
  znth (znth (_ROTATIONS nwords) r []) j 0.

Definition permutation (nwords j : Z) : Z := znth (_PERMUTATIONS nwords) j 0.

(** ** The generator *)
Section Threefry.

(** What a fresh [irb.allocate] holds before it is written: unspecified, so
    a parameter, by the name given to the allocation. *)
Variable junk : string -> Z -> Z.

Definition allocate (nm : string) (ext : Z) : buffer := Buffer nm ext (junk nm).

Definition nrounds : Z := 20.
Definition nwords : Z := 4.
Definition iwidth : Z := 64.

(** An expression over a buffer: the builder's [buf[i]] is a load node, and
    arithmetic on nodes builds a tree; the tree is evaluated against the
    buffer as it is when the enclosing store runs. *)
Definition expr : Type := buffer -> Ir Z.

(** [mix(a, b, rotation)]: returns the two trees [x] and [y]; [y] contains
    [x], hence [a], as a subtree. *)
Definition mix (a b : expr) (rot : Z) : expr * expr :=
  let x : expr := fun m => va <- a m ;; vb <- b m ;; ret (U64.add va vb) in
  let y : expr := fun m =>
    vx <- x m ;;
    vb1 <- b m ;;
    vb2 <- b m ;;
    ret (U64.xor vx (U64.or (U64.shl vb1 rot) (U64.shr vb2 (iwidth - rot)))) in
  (x, y).

(** [key_schedule(s, i)], reading [full_key]. *)
Definition key_schedule (full_key : buffer) (s i : Z) : Ir Z :=
  if i =? nwords - 1 then
    k <- load full_key ((s + i) mod (nwords + 1)) ;; ret (U64.add k s)
  else
    load full_key ((s + i) mod (nwords + 1)).

(** The pair of buffers the rounds alternate between, with their offsets:
    [(out_buf, tmp) = (tmp, out_buf)] swaps them after every round. *)
Record lanes : Type := Lanes {
  l_out : buffer; l_out_offset : Z;
  l_tmp : buffer; l_tmp_offset : Z
}.

Definition swap (s : lanes) : lanes :=
  Lanes (l_tmp s) (l_tmp_offset s) (l_out s) (l_out_offset s).

(** One round [k] of stage [i] for block [l]: the pairwise mix, stored in
    place one word after the other, then the permuted copy into the other
    buffer, then the swap. *)
Definition round (l i k : Z) (s : lanes) : Ir lanes :=
  out1 <- for_each (range (nwords / 2)) (fun j out =>
            let '(x, y) :=
              mix (fun m => load m (l_out_offset s + l * nwords + j * 2 + 0))
                  (fun m => load m (l_out_offset s + l * nwords + j * 2 + 1))
                  (rotation nwords ((i * 4 + k) mod 8) j) in
            vx <- x out ;;
            out' <- store out (l_out_offset s + l * nwords + j * 2 + 0) vx ;;
            vy <- y out' ;;
            store out' (l_out_offset s + l * nwords + j * 2 + 1) vy)
          (l_out s) ;;
  tmp1 <- for_each (range nwords) (fun j tmp =>
            v <- load out1 (l_out_offset s + l * nwords + permutation nwords j) ;;
            store tmp (l_tmp_offset s + l * nwords + j) v)
          (l_tmp s) ;;
  ret (swap (Lanes out1 (l_out_offset s) tmp1 (l_tmp_offset s))).

(** Stage [i] for block [l]: key injection, then four rounds. *)
Definition stage (full_key : buffer) (l i : Z) (s : lanes) : Ir lanes :=
  out1 <- for_each (range nwords) (fun j out =>
            v <- load out (l_out_offset s + l * nwords + j) ;;
            ks <- key_schedule full_key i j ;;
            store out (l_out_offset s + l * nwords + j) (U64.add v ks))
          (l_out s) ;;
  for_each (range 4) (round l i)
    (Lanes out1 (l_out_offset s) (l_tmp s) (l_tmp_offset s)).

(** [_threefry(irb, key_buf, key_offset, counter_buf, counter_offset,
    out_buf, out_offset, out_shape)].  [key_buf] and [counter_buf] are only
    read, and at none of the three call sites is either of them the buffer
    passed as [out_buf]; the result is [out_buf] after the call. *)
Definition _threefry (key_buf : buffer) (key_offset : Z)
    (counter_buf : buffer) (counter_offset : Z)
    (out_buf : buffer) (out_offset : Z) (out_shape : Z) : Ir buffer :=
  let tmp := allocate "tmp" out_shape in
  let tmp_offset := 0 in
  let full_key := allocate "full_key" (nwords + 1) in
  full_key <- for_each (range nwords) (fun i fk =>
                v <- load key_buf (key_offset + i) ;; store fk i v) full_key ;;
  full_key <- store full_key nwords 0x1BD11BDAA9FC1A22 ;;
  full_key <- for_each (range nwords) (fun i fk =>
                a <- load fk nwords ;;
                v <- load key_buf (key_offset + i) ;;
                store fk nwords (U64.xor a v)) full_key ;;
  out_buf <- for_each (range out_shape) (fun i out =>
               for_each (range nwords) (fun j out =>
                 c <- load counter_buf (counter_offset + j) ;;
                 store out (out_offset + i * nwords + j) (U64.add c i)) out)
             out_buf ;;
  s <- for_each (range out_shape) (fun l s =>
         for_each (range (nrounds / 4)) (stage full_key l) s)
       (Lanes out_buf out_offset tmp tmp_offset) ;;
  ret (l_out s).


(** [_shift_right(irb, a, b, out_a, a_off, out_b, b_off)].  At every call
    site [out_a] and [out_b] are one and the same buffer, [out]; [a] and
    [b] are the words [gen[8]] and [gen[9]] of the input state, which
    nothing writes. *)
Definition _shift_right (a b : Z) (out : buffer) (a_off b_off : Z) : Ir buffer :=
  if U64.eqb a 1 then
    out <- store out a_off 0 ;;
    store out b_off 0x8000000000000000
  else if U64.eqb a 0 then
    out <- store out a_off 0 ;;
    store out b_off (U64.shr b 1)
  else
    out <- store out a_off (U64.shr a 1) ;;
    store out b_off 0.

(** [dst[j] = src[i]]. *)
Definition copy_word (src : buffer) (i : Z) (dst : buffer) (j : Z) : Ir buffer :=
  v <- load src i ;; store dst j v.

(** The condition [gen[8] == 0 and gen[9] == 0].  Both operands are
    comparison nodes, and Python's [and] is not a node constructor: it asks
    the left node for its truth value and hands back the right node when
    that is true, the left node itself when it is false.  So the emitted
    test is one of the two comparisons, never their conjunction.  Which one
    depends on the truth value the node class gives a comparison, which is
    declared outside this module: it is [node_truth] (TVM compares the two
    operands for object identity, a load node against the integer 0, so
    [false], and the test is [gen[8] == 0]). *)
Variable node_truth : bool.

Definition py_and {A} (left_truth : bool) (l r : A) : A :=
  if left_truth then r else l.

Definition cursor_exhausted (gen : buffer) : Ir bool :=
  py_and node_truth
    (g8 <- load gen 8 ;; ret (U64.eqb g8 0))
    (g9 <- load gen 9 ;; ret (U64.eqb g9 0)).

(** The three ways [threefry_generate] obtains the state it hashes from. *)
Inductive branch : Type := Headroom | Rehash | ExtendPath.

(** The headroom test
    [gen[7] < tir.const(2 ** 64 - 1, dtype=gen.dtype) - out_len].
    [out_len] is the signed integer constant the build-time assertions read
    with [out_len.value]; it is cast to [gen.dtype] where word 7 is stored
    ([tir.Cast(gen.dtype, out_len)]) and not here.  The difference of the
    [uint64] constant and the signed [out_len] is therefore taken in
    [int64], where the constant is [-1], and the comparison of the [uint64]
    word [gen[7]] with that signed difference is taken in [int64] too. *)
Definition headroom_test (g7 out_len : Z) : bool :=
  I64.ltb (I64.of_word g7) (I64.sub (I64.of_word (2 ^ 64 - 1)) out_len).

(** First part of [gen_ir] in [threefry_generate]: fill the 10-word
    [tmp]. *)
Definition working_state (gen : buffer) (out_len : Z) : Ir (branch * buffer) :=
  let tmp := allocate "tmp" 10 in
  g7 <- load gen 7 ;;
  if headroom_test g7 out_len then
    tmp <- for_each (range 10) (fun i tmp => copy_word gen i tmp i) tmp ;;
    ret (Headroom, tmp)
  else
    exhausted <- cursor_exhausted gen ;;
    if exhausted : bool then
      let tmp_counter := allocate "tmp_counter" 2 in
      tmp_counter <- store tmp_counter 0 0xFFFFFFFFFFFFFFFF ;;
      tmp_counter <- store tmp_counter 1 0xFFFFFFFFFFFFFFFF ;;
      tmp <- _threefry gen 0 tmp_counter 0 tmp 0 1 ;;
      tmp <- store tmp 4 0 ;;
      tmp <- store tmp 5 0 ;;
      tmp <- store tmp 6 0 ;;
      tmp <- store tmp 7 0 ;;
      tmp <- store tmp 8 (Z.shiftl 1 63) ;;
      tmp <- store tmp 9 0 ;;
      ret (Rehash, tmp)
    else
      tmp <- copy_word gen 0 tmp 0 ;;
      tmp <- copy_word gen 1 tmp 1 ;;
      tmp <- copy_word gen 2 tmp 2 ;;
      tmp <- copy_word gen 3 tmp 3 ;;
      g4 <- load gen 4 ;; g8 <- load gen 8 ;;
      tmp <- store tmp 4 (U64.or g4 g8) ;;
      g5 <- load gen 5 ;; g9 <- load gen 9 ;;
      tmp <- store tmp 5 (U64.or g5 g9) ;;
      tmp <- store tmp 6 0 ;;
      tmp <- store tmp 7 0 ;;
      g8 <- load gen 8 ;; g9 <- load gen 9 ;;
      tmp <- _shift_right g8 g9 tmp 8 9 ;;
      ret (ExtendPath, tmp).

(** What [threefry_generate] hands back: the two output buffers, and for
    the statements below the branch taken and the working state. *)
Record generated : Type := Generated {
  taken : branch;
  working : buffer;
  next_state : buffer;
  rand : buffer
}.

(** [gen_ir] of [threefry_generate].  [out_gen] and [out_array] are the
    output buffers as the caller hands them over, holding whatever they
    held. *)
Definition generate_gen_ir (gen : buffer) (out_len : Z)
    (out_gen out_array : buffer) : Ir generated :=
  '(br, tmp) <- working_state gen out_len ;;
  out_array <- _threefry tmp 0 tmp 4 out_array 0 (out_len / 4) ;;
  out_gen <- copy_word tmp 0 out_gen 0 ;;
  out_gen <- copy_word tmp 1 out_gen 1 ;;
  out_gen <- copy_word tmp 2 out_gen 2 ;;
  out_gen <- copy_word tmp 3 out_gen 3 ;;
  out_gen <- copy_word tmp 4 out_gen 4 ;;
  out_gen <- copy_word tmp 5 out_gen 5 ;;
  out_gen <- store out_gen 6 0 ;;
  t7 <- load tmp 7 ;;
  out_gen <- store out_gen 7 (U64.add t7 (U64.wrap out_len)) ;;
  out_gen <- copy_word tmp 8 out_gen 8 ;;
  ret (Generated br tmp out_gen out_array).

(** [threefry_generate(gen, out_shape)]; [out_len] is the product of
    [out_shape].  The two [assert]s run when the operator is built. *)
Definition threefry_generate (gen : buffer) (out_len : Z)
    (out_gen out_array : buffer) : option (Ir generated) :=
  if negb (out_len mod 4 =? 0) then None
  else if negb (out_len <=? 2 ^ 64 - 1) then None
  else Some (generate_gen_ir gen out_len out_gen out_array).

(** [gen_ir] of [threefry_split], which is all of [threefry_split]. *)
Definition threefry_split (gen : buffer) (out_left out_right : buffer)
    : Ir (buffer * buffer) :=
  exhausted <- cursor_exhausted gen ;;
  if exhausted : bool then
    out_left <- _threefry gen 0 gen 4 out_left 0 1 ;;
    out_left <- store out_left 4 0 ;;
    out_left <- store out_left 5 0 ;;
    out_left <- store out_left 6 0 ;;
    out_left <- store out_left 7 0 ;;
    out_left <- store out_left 8 (Z.shiftl 1 62) ;;
    out_left <- store out_left 9 0 ;;
    out_right <- copy_word out_left 0 out_right 0 ;;
    out_right <- copy_word out_left 1 out_right 1 ;;
    out_right <- copy_word out_left 2 out_right 2 ;;
    out_right <- copy_word out_left 3 out_right 3 ;;
    out_right <- store out_right 4 (Z.shiftl 1 63) ;;
    out_right <- store out_right 5 0 ;;
    out_right <- store out_right 6 0 ;;
    out_right <- store out_right 7 0 ;;
    out_right <- store out_right 8 (Z.shiftl 1 62) ;;
    out_right <- store out_right 9 0 ;;
    ret (out_left, out_right)
  else
    out_left <- copy_word gen 0 out_left 0 ;;
    out_left <- copy_word gen 1 out_left 1 ;;
    out_left <- copy_word gen 2 out_left 2 ;;
    out_left <- copy_word gen 3 out_left 3 ;;
    out_left <- copy_word gen 4 out_left 4 ;;
    out_left <- copy_word gen 5 out_left 5 ;;
    out_left <- copy_word gen 6 out_left 6 ;;
    out_left <- copy_word gen 7 out_left 7 ;;
    g8 <- load gen 8 ;; g9 <- load gen 9 ;;
    out_left <- _shift_right g8 g9 out_left 8 9 ;;
    out_right <- copy_word gen 0 out_right 0 ;;
    out_right <- copy_word gen 1 out_right 1 ;;
    out_right <- copy_word gen 2 out_right 2 ;;
    out_right <- copy_word gen 3 out_right 3 ;;
    g4 <- load gen 4 ;; g8 <- load gen 8 ;;
    out_right <- store out_right 4 (U64.or g4 g8) ;;
    g5 <- load gen 5 ;; g9 <- load gen 9 ;;
    out_right <- store out_right 5 (U64.or g5 g9) ;;
    out_right <- copy_word gen 6 out_right 6 ;;
    out_right <- copy_word gen 7 out_right 7 ;;
    g8 <- load gen 8 ;; g9 <- load gen 9 ;;
    out_right <- _shift_right g8 g9 out_right 8 9 ;;
    ret (out_left, out_right).

End Threefry.

(** ** scatter_nd

    [scatter_nd(data, indices, shape)] of [topi/scatter.py].  The buffers
    are addressed flat, as the emitted code addresses them.  The elements of
    [data] are copied but never computed with, so they are integers here;
    the index arithmetic is that of mathematical integers (no wrap-around
    of the index dtype is modelled). *)

(** A run of the emitted code either finishes or stops at the [AssertStmt]
    whose condition is false. *)
Inductive outcome (A : Type) : Type :=
  | Done (a : A)
  | AssertionFailed (msg : string).
Arguments Done {A} a.
Arguments AssertionFailed {A} msg.

Definition Run (A : Type) : Type := Ir (outcome A).

Definition retR {A} (a : A) : Run A := ret (Done a).

Definition lift {A} (m : Ir A) : Run A := a <- m ;; ret (Done a).

Definition bindR {A B} (m : Run A) (k : A -> Run B) : Run B :=
  r <- m ;;
  match r with
  | Done a => k a
  | AssertionFailed msg => ret (AssertionFailed msg)
  end.

Notation "x <~ m ;; k" := (bindR m (fun x => k))
  (at level 61, m at next level, right associativity) : ir_scope.
Notation "' p <~ m ;; k" := (bindR m (fun p => k))
  (at level 61, p pattern, m at next level, right associativity) : ir_scope.

(** [AssertStmt(cond, StringImm(msg), Evaluate(0))]. *)
Definition assert_stmt (cond : bool) (msg : string) : Run unit :=
  if cond then retR tt else ret (AssertionFailed msg).

Fixpoint for_eachR {S} (l : list Z) (body : Z -> S -> Run S) (s : S) : Run S :=
  match l with
  | [] => retR s
  | i :: l' => s' <~ body i s ;; for_eachR l' body s'
  end.

Definition failed {A} (m : Run A) : Prop :=
  exists msg, value m = AssertionFailed msg.

(** Product of the extents of a shape: [p = 1; for i in l: p *= i]. *)
Definition product (l : list Z) : Z := fold_left Z.mul l 1.

Module Scatter.

Section ScatterNd.

Variables (data_shape indices_shape shape : list Z).
Variables (data indices : buffer).

(** [mdim = int(indices.shape[0])]; the checks below make sure it exists. *)
Definition mdim : Z := znth indices_shape 0 0.

(** The assertions made when the operator is built, before any code is
    emitted; indexing a shape past its end raises, which fails the build
    just the same.  (The dtype test on [indices] is in the types here.) *)
Definition shape_at (l : list Z) (i : Z) : option Z :=
  if i <? 0 then None else nth_error l (Z.to_nat i).

Definition same_extent (a b : option Z) : bool :=
  match a, b with
  | Some x, Some y => x =? y
  | _, _ => false
  end.

Definition build_checks : bool :=
  match shape_at indices_shape 0 with
  | None => false
  | Some m =>
      (m <=? Z.of_nat (List.length shape))
      && forallb (fun i => same_extent (shape_at indices_shape (i + 1)) (shape_at data_shape i))
           (range (Z.of_nat (List.length indices_shape) - 1))
      && forallb (fun i => same_extent (shape_at data_shape (i - m)) (shape_at shape i))
           (map (fun k => m + k) (range (Z.of_nat (List.length shape) - m)))
  end.

Definition fused_shape : Z := product shape.
Definition fused_indices_dimension : Z := product (tl indices_shape).
Definition fused_data_dimension : Z := product (skipn (Z.to_nat mdim) data_shape).

(** One pass of the loop over [l] in [reversed(range(mdim))]: the running
    [index] and [offset]. *)
Definition index_step (i l : Z) (st : Z * Z) : Run (Z * Z) :=
  let '(index, offset) := st in
  v <~ lift (load indices (i + l * fused_indices_dimension)) ;;
  let index := index + offset * v in
  w <~ lift (load indices (i + l * fused_indices_dimension)) ;;
  _ <~ assert_stmt (w <? znth shape l 0) "index out of bounds" ;;
  retR (index, offset * znth shape l 0).

(** The offset into [out] computed for iteration [(i, j)]. *)
Definition out_index (i j : Z) : Run Z :=
  '(index, _) <~ for_eachR (rev (range mdim)) (index_step i)
                   (j, fused_data_dimension) ;;
  retR index.

(** [gen_ir] of [scatter_nd]; [out] is the output buffer as handed over. *)
Definition gen_ir (out : buffer) : Run buffer :=
  out <~ lift (for_each (range fused_shape) (fun i out => store out i 0) out) ;;
  for_eachR (range fused_indices_dimension) (fun i out =>
    for_eachR (range fused_data_dimension) (fun j out =>
      index <~ out_index i j ;;
      v <~ lift (load data (i * fused_data_dimension + j)) ;;
      lift (store out index v)) out) out.

Definition scatter_nd (out : buffer) : option (Run buffer) :=
  if build_checks then Some (gen_ir out) else None.

End ScatterNd.

End Scatter.

(** * Predicates, observations and example inputs *)

(** A 128-bit cursor [(hi, lo)] with exactly one bit set. *)
Definition one_hot (hi lo : Z) : Prop :=
  exists k, 0 <= k < 64 /\ ((hi = 2 ^ k /\ lo = 0) \/ (hi = 0 /\ lo = 2 ^ k)).

(** The two cells [_shift_right] writes, read back after the call. *)
Definition shifted (out : buffer) (a_off b_off hi lo : Z) : Z * Z :=
  let r := value (_shift_right hi lo out a_off b_off) in
  (cell r a_off, cell r b_off).

(** Every word of a [uint64] tensor is a 64-bit word. *)
Definition uint64_tensor (b : buffer) : Prop :=
  forall i, U64.in_range (cell b i).

(** The request lengths the claims speak of: positive multiples of 4 that
    pass the two build-time assertions. *)
Definition valid_len (n : Z) : Prop :=
  0 < n /\ n mod 4 = 0 /\ n <= 2 ^ 64 - 1.

Definition seed_state : buffer :=
  of_list "gen" [1; 2; 3; 4; 0; 0; 0; 0; 2 ^ 63; 0] (fun _ => 0).

Definition zero_junk : string -> Z -> Z := fun _ _ => 0.

(** A state whose counter has run to [2^64 - 5]: no room for 4 more. *)
Definition spent_state : buffer :=
  of_list "gen" [1; 2; 3; 4; 0; 0; 0; 2 ^ 64 - 5; 2 ^ 63; 0] (fun _ => 0).

(** Number of set bits of a word, by recursion on its binary digits. *)
Fixpoint pos_popcount (p : positive) : Z :=
  match p with
  | xH => 1
  | xO q => pos_popcount q
  | xI q => 1 + pos_popcount q
  end.

Definition popcount (w : Z) : Z :=
  match w with
  | Zpos p => pos_popcount p
  | _ => 0
  end.

(** Population count of the 128-bit cursor, words 8 and 9 of a state. *)
Definition cursor_popcount (s : buffer) : Z :=
  popcount (cell s 8) + popcount (cell s 9).

(** One-hot or all-zero. *)
Definition cursor_invariant (s : buffer) : Prop := cursor_popcount s <= 1.

(** What [_shift_right] computes, as a function of the cursor. *)
Definition shift_right_one (hi lo : Z) : Z * Z :=
  if hi =? 1 then (0, 0x8000000000000000)
  else if hi =? 0 then (0, Z.shiftr lo 1)
  else (Z.shiftr hi 1, 0).

(** The two states [threefry_split] returns, left and right. *)
Definition split_children (junk : string -> Z -> Z) (node_truth : bool)
    (gen out_left out_right : buffer) : buffer * buffer :=
  value (threefry_split junk node_truth gen out_left out_right).

Definition fresh_out_left : buffer := Buffer "out_left" 10 (fun _ => 0).
Definition fresh_out_right : buffer := Buffer "out_right" 10 (fun _ => 0).

(** A state as the claims call well formed: 64-bit words, a cursor that is
    one-hot or all-zero, and a counter that is not the reserved sentinel. *)
Definition well_formed (gen : buffer) : Prop :=
  uint64_tensor gen /\ cursor_invariant gen /\ cell gen 7 <> 2 ^ 64 - 1.

(** The bit the cursor marks has not been written in the path yet. *)
Definition path_clear_at_cursor (gen : buffer) : Prop :=
  Z.land (cell gen 4) (cell gen 8) = 0 /\ Z.land (cell gen 5) (cell gen 9) = 0.

(** The ten words of a state. *)
Definition state_words (s : buffer) : list Z := words s 0 10.

(** A state that meets the conditions the claim lists, whose path already
    holds the bit the cursor marks. *)
Definition marked_state : buffer :=
  of_list "gen" [1; 2; 3; 4; 2 ^ 63; 0; 0; 0; 2 ^ 63; 0] (fun _ => 0).

(** A state late in its path and halfway through its counter: the cursor
    sits in the low word, and the counter word is [2^63]. *)
Definition low_cursor_state : buffer :=
  of_list "gen" [1; 2; 3; 4; 0; 0; 0; 2 ^ 63; 0; 2 ^ 63] (fun _ => 0).

(** A fresh path, halfway through the counter. *)
Definition half_spent_state : buffer :=
  of_list "gen" [1; 2; 3; 4; 0; 0; 0; 2 ^ 63; 2 ^ 63; 0] (fun _ => 0).

(** A state that has drawn eight words. *)
Definition counted_state : buffer :=
  of_list "gen" [1; 2; 3; 4; 0; 0; 0; 8; 2 ^ 63; 0] (fun _ => 0).

Definition fresh_out_gen : buffer := Buffer "out_gen" 10 (fun _ => 0).
Definition fresh_out_array : buffer := Buffer "out_array" 4 (fun _ => 0).

(** An output buffer that is being reused: it last held a state whose
    cursor was [(0, 32)]. *)
Definition stale_out_gen : buffer :=
  of_list "out_gen" [9; 9; 9; 9; 2 ^ 63; 0; 0; 8; 0; 32] (fun _ => 0).

Definition oob_eqb (a b : oob) : bool :=
  String.eqb (fst (fst a)) (fst (fst b))
  && (snd (fst a) =? snd (fst b)) && (snd a =? snd b).

(** Did the run access cell [i] of the buffer named [nm] of extent [ext],
    with [i] outside that extent? *)
Definition leaves_extent {A} (m : Ir A) (nm : string) (ext i : Z) : bool :=
  existsb (oob_eqb (nm, ext, i)) (violations m).

(** A state with no counter room for 4 words and no path bit left. *)
Definition exhausted_state : buffer :=
  of_list "gen" [1; 2; 3; 4; 0; 0; 0; 2 ^ 64 - 5; 0; 0] (fun _ => 0).

Definition zero_key : buffer := of_list "key_buf" [0; 0; 0; 0] (fun _ => 0).
Definition zero_counter : buffer := of_list "counter_buf" [0; 0; 0; 0] (fun _ => 0).
Definition fresh_out (n : Z) : buffer := Buffer "out_buf" n (fun _ => 0).

(** [_threefry] on one block: key and plaintext in, four words out. *)
Definition block_mix (key plaintext : list Z) : list Z :=
  words (value (_threefry zero_junk
                  (of_list "key_buf" key (fun _ => 0)) 0
                  (of_list "counter_buf" plaintext (fun _ => 0)) 0
                  (fresh_out 4) 0 1)) 0 4.

(** The known-answer vector of Threefry-4x64-20 for the all-zero key and
    counter, from the Random123 distribution of the generator's authors. *)
Definition threefry4x64_20_kat_zero : list Z :=
  [0x09218ebde6c85537; 0x55941f5266d86105; 0x4bd25e16282434dc; 0xee29ec846bd2e40b].

(** Threefry-4x64-20 as published (Salmon et al., the first reference of the
    module docstring; Threefish key schedule without tweak): a subkey is
    added before each group of four rounds and once more after the last
    round, and a mix takes both of its inputs before it gives either
    output.  It is here to check the vector above, not to model the code. *)
Module Reference.

Definition rotl (x r : Z) : Z := U64.or (U64.shl x r) (U64.shr x (64 - r)).

Definition mix (rot a b : Z) : Z * Z :=
  let x := U64.add a b in (x, U64.xor x (rotl b rot)).

Definition round (r : Z) (s : list Z) : list Z :=
  match s with
  | [x0; x1; x2; x3] =>
      let '(a0, a1) := mix (rotation 4 (r mod 8) 0) x0 x1 in
      let '(a2, a3) := mix (rotation 4 (r mod 8) 1) x2 x3 in
      [a0; a3; a2; a1]
  | _ => s
  end.

Definition inject (ks : list Z) (s : Z) (st : list Z) : list Z :=
  match st with
  | [x0; x1; x2; x3] =>
      [U64.add x0 (znth ks (s mod 5) 0);
       U64.add x1 (znth ks ((s + 1) mod 5) 0);
       U64.add x2 (znth ks ((s + 2) mod 5) 0);
       U64.add (U64.add x3 (znth ks ((s + 3) mod 5) 0)) s]
  | _ => st
  end.

Definition key_schedule (key : list Z) : list Z :=
  key ++ [fold_left Z.lxor key 0x1BD11BDAA9FC1A22].

(** The five groups of subkey and four rounds, without the last subkey. *)
Definition five_groups (key plaintext : list Z) : list Z :=
  fold_left (fun st s =>
               fold_left (fun st k => round (s * 4 + k) st) (range 4)
                         (inject (key_schedule key) s st))
            (range 5) plaintext.

Definition threefry4x64_20 (key plaintext : list Z) : list Z :=
  inject (key_schedule key) 5 (five_groups key plaintext).

Definition ones : Z := 0xFFFFFFFFFFFFFFFF.

End Reference.

(** [indices[l, y_0, .., y_{K-1}]] for the fused position [i]. *)
Definition index_value (indices_shape : list Z) (indices : buffer) (i l : Z) : Z :=
  cell indices (i + l * Scatter.fused_indices_dimension indices_shape).

(** The multi-index at fused position [i] reaches past the output in
    dimension [l]. *)
Definition past_extent (indices_shape shape : list Z) (indices : buffer)
    (i l : Z) : Prop :=
  znth shape l 0 <= index_value indices_shape indices i l.

(** One row of two indices into an output of two cells; the second index
    is negative. *)
Definition row_data : buffer := of_list "data" [5; 7] (fun _ => 0).
Definition row_indices : buffer := of_list "indices" [1; -1] (fun _ => 0).
Definition row_out : buffer := Buffer "out_buf" 2 (fun _ => 0).

(** Two index rows into a 2 x 2 output; the multi-index is [(1, -1)]. *)
Definition pair_data : buffer := of_list "data" [5] (fun _ => 0).
Definition pair_indices : buffer := of_list "indices" [1; -1] (fun _ => 0).
Definition pair_out : buffer := Buffer "out_buf" 4 (fun _ => 0).

Definition collide_data : buffer := of_list "data" [5; 7] (fun _ => 0).
Definition collide_indices : buffer := of_list "indices" [1; 1] (fun _ => 0).

(** * Further observations *)

(** The 128-bit value of a cursor or path given as two words. *)
Definition join128 (hi lo : Z) : Z := hi * 2 ^ 64 + lo.

(** Path and cursor of a state as 128-bit values. *)
Definition path128 (s : buffer) : Z := join128 (cell s 4) (cell s 5).
Definition cursor128 (s : buffer) : Z := join128 (cell s 8) (cell s 9).

(** Every bit of the path at or below the position the cursor marks is
    zero: twice the cursor divides the path.  An exhausted cursor marks no
    position. *)
Definition path_clear_below_cursor (s : buffer) : Prop :=
  cursor128 s = 0 \/ (2 * cursor128 s | path128 s).

(** The part of a state that decides how it splits: path and cursor words
    are 64-bit words, the cursor is one-hot or zero, and the path is clear
    from the cursor position down. *)
Definition splittable (s : buffer) : Prop :=
  U64.in_range (cell s 4) /\ U64.in_range (cell s 5) /\
  U64.in_range (cell s 8) /\ U64.in_range (cell s 9) /\
  cursor_invariant s /\ path_clear_below_cursor s.

(** The state reached from [gen] by a sequence of splits, taking the right
    child where the choice is [true] and the left child where it is
    [false]; each split writes into a pair of fresh output buffers. *)
Fixpoint descend (junk : string -> Z -> Z) (node_truth : bool)
    (gen : buffer) (choices : list bool) : buffer :=
  match choices with
  | [] => gen
  | right_child :: rest =>
      let r := split_children junk node_truth gen fresh_out_left fresh_out_right in
      descend junk node_truth (if right_child then snd r else fst r) rest
  end.

(** The four words of block [l] in a buffer, from offset [off]. *)
Definition window (b : buffer) (off l : Z) : list Z :=
  [cell b (off + l * 4 + 0); cell b (off + l * 4 + 1);
   cell b (off + l * 4 + 2); cell b (off + l * 4 + 3)].

(** Index [c] lies in block [l] from offset [off]. *)
Definition in_window (off l c : Z) : Prop := off + l * 4 <= c < off + l * 4 + 4.

(** What the emitted code of [_threefry] computes on one block, as a
    function of four words: the same additions, rotations and exclusive-ors
    in the order the stores execute them. *)
Module Block.

(** The two words one pair holds after its two stores: the second store
    reads the first word again, after the first store replaced it. *)
Definition mix (rot a b : Z) : Z * Z :=
  let x := U64.add a b in
  (x, U64.xor (U64.add x b) (U64.or (U64.shl b rot) (U64.shr b (iwidth - rot)))).

Definition round (r : Z) (x : list Z) : list Z :=
  match x with
  | [x0; x1; x2; x3] =>
      let '(a0, a1) := mix (rotation nwords r 0) x0 x1 in
      let '(a2, a3) := mix (rotation nwords r 1) x2 x3 in
      [a0; a3; a2; a1]
  | _ => x
  end.

Definition inject (fk : list Z) (s : Z) (x : list Z) : list Z :=
  match x with
  | [x0; x1; x2; x3] =>
      [U64.add x0 (znth fk ((s + 0) mod 5) 0);
       U64.add x1 (znth fk ((s + 1) mod 5) 0);
       U64.add x2 (znth fk ((s + 2) mod 5) 0);
       U64.add x3 (U64.add (znth fk ((s + 3) mod 5) 0) s)]
  | _ => x
  end.

Definition stage (fk : list Z) (i : Z) (x : list Z) : list Z :=
  fold_left (fun x k => round ((i * 4 + k) mod 8) x) (range 4) (inject fk i x).

Definition full_key (key : list Z) : list Z :=
  key ++ [fold_left U64.xor key 0x1BD11BDAA9FC1A22].

Definition threefry (key plaintext : list Z) : list Z :=
  fold_left (fun x i => stage (full_key key) i x) (range 5) plaintext.

End Block.

(** ** Observations on scatter_nd *)

(** Row-major offset of a multi-index in an array of extents [dims], by
    Horner's rule: [((v0 * d1 + v1) * d2 + v2) ..]. *)
Definition row_major (dims idx : list Z) : Z :=
  fold_left (fun acc dv => acc * fst dv + snd dv) (combine dims idx) 0.

(** The multi-index [indices[0, y], .., indices[M-1, y]] at the fused
    position [i] of [y]. *)
Definition multi_index (indices_shape : list Z) (indices : buffer) (i : Z) : list Z :=
  map (index_value indices_shape indices i) (range (Scatter.mdim indices_shape)).

(** A cell after a run of writes: the value of the last write that hit
    it. *)
Definition last_hit {V} (hit : Z -> bool) (val : Z -> V) (l : list Z) (init : V) : V :=
  fold_left (fun acc x => if hit x then val x else acc) l init.

(** * The scatter operator

    [scatter(data, indices, updates, axis)] of [topi/scatter.py] and the
    four hybrid-script functions it dispatches to.  A hybrid script is a
    Python function over tensors: loops over [range(..)], element reads
    [t[i, j]] and element writes [out[i, j] = v], executed in the order of
    the text.  A tensor is its shape and its elements by multi-index; the
    elements are copied, never computed with, so they are integers here.
    Subscripting a shape past its end raises [IndexError].  Element access
    is not checked by the source; the properties below speak of positions
    within the shapes. *)

(** What a Python call returns or raises. *)
Inductive result (A : Type) : Type :=
  | Returned (a : A)
  | AssertionError
  | ValueError (msg : string)
  | IndexError.
Arguments Returned {A} a.
Arguments AssertionError {A}.
Arguments ValueError {A} msg.
Arguments IndexError {A}.

(** One statement after the other: what the first raises, the sequence
    raises. *)
Definition and_then {A B} (m : result A) (k : A -> result B) : result B :=
  match m with
  | Returned a => k a
  | AssertionError => AssertionError
  | ValueError msg => ValueError msg
  | IndexError => IndexError
  end.

Declare Scope py_scope.
Delimit Scope py_scope with py.
Notation "x <== m ;; k" := (and_then m (fun x => k))
  (at level 61, m at next level, right associativity) : py_scope.
Local Open Scope py_scope.

Module Hybrid.

Record tensor : Type := Tensor {
  shape : list Z;
  elem : list Z -> Z
}.

Definition index_eqb (p q : list Z) : bool :=
  if list_eq_dec Z.eq_dec p q then true else false.

(** [t[ix]]. *)
Definition get (t : tensor) (ix : list Z) : Z := elem t ix.

(** [t[ix] = v]. *)
Definition set (t : tensor) (ix : list Z) (v : Z) : tensor :=
  Tensor (shape t) (fun k => if index_eqb k ix then v else elem t k).

(** [t.shape[k]]: the shape is a sequence, and subscripting it at or past
    its length raises [IndexError]; a negative subscript counts from the
    end, and raises below minus the length. *)
Definition shape_item (t : tensor) (k : Z) : result Z :=
  let rank := Z.of_nat (List.length (shape t)) in
  if (0 <=? k) && (k <? rank) then Returned (znth (shape t) k 0)
  else if (- rank <=? k) && (k <? 0) then Returned (znth (shape t) (k + rank) 0)
  else IndexError.

(** The passes of a loop, one after the other; a pass that raises ends
    the loop. *)
Fixpoint each {S} (l : list Z) (body : Z -> S -> result S) (s : S) : result S :=
  match l with
  | [] => Returned s
  | i :: l' => s' <== body i s ;; each l' body s'
  end.

(** [for i in range(n): body]; the extent [n] is evaluated when the loop
    is reached. *)
Definition for_range {S} (n : result Z) (body : Z -> S -> result S) (s : S)
    : result S :=
  n <== n ;; each (range n) body s.

(** [v if v >= 0 else v + extent]: the extent is evaluated only when [v]
    is negative. *)
Definition or_from_end (v : Z) (extent : result Z) : result Z :=
  if v >=? 0 then Returned v else n <== extent ;; Returned (v + n).

End Hybrid.

Import Hybrid.

Section ScatterOperator.

(** What [output_tensor] holds before it is written. *)
Variable fresh : list Z -> Z.

Definition output_tensor (shp : list Z) : tensor := Tensor shp fresh.

Definition _scatter_1d (data indices updates : tensor) : result tensor :=
  let out := output_tensor (shape data) in
  out <== for_range (shape_item data 0) (fun i out =>
            Returned (set out [i] (get data [i]))) out ;;
  out <== for_range (shape_item indices 0) (fun i out =>
            ix <== or_from_end (get indices [i]) (shape_item data 0) ;;
            Returned (set out [ix] (get updates [i]))) out ;;
  Returned out.

Definition _scatter_2d (data indices updates : tensor) (axis : Z) : result tensor :=
  let out := output_tensor (shape data) in
  out <== for_range (shape_item data 0) (fun i out =>
          for_range (shape_item data 1) (fun j out =>
            Returned (set out [i; j] (get data [i; j]))) out) out ;;
  out <== (if axis =? 0 then
             for_range (shape_item indices 0) (fun i out =>
             for_range (shape_item indices 1) (fun j out =>
               ix <== or_from_end (get indices [i; j]) (shape_item data axis) ;;
               Returned (set out [ix; j] (get updates [i; j]))) out) out
           else
             for_range (shape_item indices 0) (fun i out =>
             for_range (shape_item indices 1) (fun j out =>
               ix <== or_from_end (get indices [i; j]) (shape_item data axis) ;;
               Returned (set out [i; ix] (get updates [i; j]))) out) out) ;;
  Returned out.

Definition _scatter_3d (data indices updates : tensor) (axis : Z) : result tensor :=
  let out := output_tensor (shape data) in
  out <== for_range (shape_item data 0) (fun i out =>
          for_range (shape_item data 1) (fun j out =>
          for_range (shape_item data 2) (fun k out =>
            Returned (set out [i; j; k] (get data [i; j; k]))) out) out) out ;;
  out <== (if axis =? 0 then
             for_range (shape_item indices 0) (fun i out =>
             for_range (shape_item indices 1) (fun j out =>
             for_range (shape_item indices 2) (fun k out =>
               ix <== or_from_end (get indices [i; j; k]) (shape_item data axis) ;;
               Returned (set out [ix; j; k] (get updates [i; j; k]))) out) out) out
           else if axis =? 1 then
             for_range (shape_item indices 0) (fun i out =>
             for_range (shape_item indices 1) (fun j out =>
             for_range (shape_item indices 2) (fun k out =>
               ix <== or_from_end (get indices [i; j; k]) (shape_item data axis) ;;
               Returned (set out [i; ix; k] (get updates [i; j; k]))) out) out) out
           else
             for_range (shape_item indices 0) (fun i out =>
             for_range (shape_item indices 1) (fun j out =>
             for_range (shape_item indices 2) (fun k out =>
               ix <== or_from_end (get indices [i; j; k]) (shape_item data axis) ;;
               Returned (set out [i; j; ix] (get updates [i; j; k]))) out) out) out) ;;
  Returned out.

Definition _scatter_4d (data indices updates : tensor) (axis : Z) : result tensor :=
  let out := output_tensor (shape data) in
  out <== for_range (shape_item data 0) (fun i out =>
          for_range (shape_item data 1) (fun j out =>
          for_range (shape_item data 2) (fun k out =>
          for_range (shape_item data 3) (fun l out =>
            Returned (set out [i; j; k; l] (get data [i; j; k; l]))) out) out) out) out ;;
  out <== (if axis =? 0 then
             for_range (shape_item indices 0) (fun i out =>
             for_range (shape_item indices 1) (fun j out =>
             for_range (shape_item indices 2) (fun k out =>
             for_range (shape_item indices 3) (fun l out =>
               ix <== or_from_end (get indices [i; j; k; l]) (shape_item data axis) ;;
               Returned (set out [ix; j; k; l] (get updates [i; j; k; l])))
               out) out) out) out
           else if axis =? 1 then
             for_range (shape_item indices 0) (fun i out =>
             for_range (shape_item indices 1) (fun j out =>
             for_range (shape_item indices 2) (fun k out =>
             for_range (shape_item indices 3) (fun l out =>
               ix <== or_from_end (get indices [i; j; k; l]) (shape_item data axis) ;;
               Returned (set out [i; ix; k; l] (get updates [i; j; k; l])))
               out) out) out) out
           else if axis =? 2 then
             for_range (shape_item indices 0) (fun i out =>
             for_range (shape_item indices 1) (fun j out =>
             for_range (shape_item indices 2) (fun k out =>
             for_range (shape_item indices 3) (fun l out =>
               ix <== or_from_end (get indices [i; j; k; l]) (shape_item data axis) ;;
               Returned (set out [i; j; ix; l] (get updates [i; j; k; l])))
               out) out) out) out
           else
             for_range (shape_item indices 0) (fun i out =>
             for_range (shape_item indices 1) (fun j out =>
             for_range (shape_item indices 2) (fun k out =>
             for_range (shape_item indices 3) (fun l out =>
               ix <== or_from_end (get indices [i; j; k; l]) (shape_item data axis) ;;
               Returned (set out [i; j; k; ix] (get updates [i; j; k; l])))
               out) out) out) out) ;;
  Returned out.

(** [scatter(data, indices, updates, axis=0)]. *)
Definition scatter (data indices updates : tensor) (axis : Z) : result tensor :=
  let rank := Z.of_nat (List.length (shape data)) in
  let axis := if axis <? 0 then axis + rank else axis in
  if negb (axis >=? 0) then AssertionError
  else if negb (axis <? rank) then AssertionError
  else if rank =? 1 then _scatter_1d data indices updates
  else if rank =? 2 then _scatter_2d data indices updates axis
  else if rank =? 3 then _scatter_3d data indices updates axis
  else if rank =? 4 then _scatter_4d data indices updates axis
  else ValueError "scatter only support for 1-4 dimensions".

End ScatterOperator.

(** ** Observations on scatter *)

(** The extent of [t] along [k], for [k] from 0 to below the rank. *)
Definition dim (t : tensor) (k : Z) : Z := znth (shape t) k 0.

(** A call that returns or raises [IndexError], and nothing else. *)
Definition returns_or_index_error {A} (m : result A) : Prop :=
  match m with
  | Returned _ | IndexError => True
  | AssertionError | ValueError _ => False
  end.

(** A tensor of the given shape, holding zeros. *)
Definition zeros (shp : list Z) : tensor := Tensor shp (fun _ => 0).

(** All positions of an array of extents [dims], in row-major order: the
    order in which nested loops over the dimensions visit them. *)
Fixpoint grid (dims : list Z) : list (list Z) :=
  match dims with
  | [] => [[]]
  | n :: rest => flat_map (fun i => map (cons i) (grid rest)) (range n)
  end.

(** An index counted from the end when it is negative. *)
Definition from_end (v n : Z) : Z := if v >=? 0 then v else v + n.

(** Position [q] with its component along [axis] replaced by [v]. *)
Definition replace_at (q : list Z) (axis : Z) (v : Z) : list Z :=
  firstn (Z.to_nat axis) q ++ v :: skipn (S (Z.to_nat axis)) q.

(** Where the element of [updates] at position [q] goes. *)
Definition target (data indices : tensor) (axis : Z) (q : list Z) : list Z :=
  replace_at q axis (from_end (get indices q) (dim data axis)).

(** [indices] with every negative entry counted from the end of [axis]. *)
Definition counted_from_start (data indices : tensor) (axis : Z) : tensor :=
  Tensor (shape indices) (fun q => from_end (get indices q) (dim data axis)).

(** The axis [scatter] works along. *)
Definition normal_axis (data : tensor) (axis : Z) : Z :=
  if axis <? 0 then axis + Z.of_nat (List.length (shape data)) else axis.

(** The two passes of the hybrid scripts, each as one pass over a list of
    positions: copy [data], then write the elements of [updates] to their
    targets. *)
Definition copied (fresh : list Z -> Z) (data : tensor) : tensor :=
  fold_left (fun out p => set out p (get data p)) (grid (shape data))
    (output_tensor fresh (shape data)).

Definition scattered (fresh : list Z -> Z) (data indices updates : tensor) (axis : Z)
    : tensor :=
  fold_left (fun out q => set out (target data indices axis q) (get updates q))
    (grid (shape indices)) (copied fresh data).

(** Every element of [updates] goes to a position of [data]. *)
Definition targets_within (data indices : tensor) (axis : Z) : Prop :=
  forall q, In q (grid (shape indices)) ->
            In (target data indices axis q) (grid (shape data)).

(** Small tensors for the examples. *)
Definition vector (l : list Z) : tensor :=
  Tensor [Z.of_nat (List.length l)] (fun p => match p with [i] => znth l i 0 | _ => 0 end).

Definition no_fresh : list Z -> Z := fun _ => 0.
Definition three_data : tensor := vector [10; 20; 30].
Definition two_indices : tensor := vector [-1; 0].
Definition two_updates : tensor := vector [7; 8].

(** * Properties *)

(** ** Reading results back through the audit *)

Lemma value_bind {A B} (m : Ir A) (k : A -> Ir B) :
  value (bind m k) = value (k (value m)).
Proof.
  unfold bind, value. destruct m as [a l1]. simpl.
  destruct (k a) as [b l2]. reflexivity.
Qed.

Lemma value_ret {A} (a : A) : value (ret a) = a.
Proof. reflexivity. Qed.

Lemma value_load b i : value (load b i) = cell b i.
Proof. reflexivity. Qed.

Lemma cell_store b i v j :
  cell (value (store b i v)) j = if j =? i then v else cell b j.
Proof. reflexivity. Qed.

Lemma cell_copy_word src i dst j k :
  cell (value (copy_word src i dst j)) k = if k =? j then cell src i else cell dst k.
Proof. unfold copy_word. rewrite value_bind. reflexivity. Qed.

Ltac run :=
  cbv iota;
  repeat first
    [ rewrite value_bind | rewrite value_ret | rewrite value_load
    | rewrite cell_copy_word | rewrite cell_store ].

(** ** The cursor *)

Lemma shifted_eq out a_off b_off (distinct_offsets : a_off <> b_off) hi lo :
  shifted out a_off b_off hi lo = shift_right_one hi lo.
Proof.
  unfold shifted, shift_right_one, _shift_right, U64.eqb, U64.shr.
  destruct (hi =? 1); [| destruct (hi =? 0)]; run;
    rewrite !Z.eqb_refl;
    destruct (Z.eqb_spec a_off b_off); try contradiction; reflexivity.
Qed.

(** C7: for a one-hot cursor [(hi, lo)], [_shift_right] leaves in the two
    cells it writes: [(0, 0x8000000000000000)] when [hi = 1];
    [(0, lo >> 1)] when [hi = 0]; [(hi >> 1, 0)] otherwise, and otherwise
    means [hi > 1]. *)
Theorem shift_right_one_cases (out : buffer) (a_off b_off hi lo : Z) :
  a_off <> b_off ->
  one_hot hi lo ->
  (hi = 1 \/ hi = 0 \/ 1 < hi) /\
  (hi = 1 -> shifted out a_off b_off hi lo = (0, 0x8000000000000000)) /\
  (hi = 0 -> shifted out a_off b_off hi lo = (0, Z.shiftr lo 1)) /\
  (1 < hi -> shifted out a_off b_off hi lo = (Z.shiftr hi 1, 0)).
Proof.
  intros Hoff Hhot. rewrite (shifted_eq out a_off b_off Hoff).
  unfold shift_right_one. repeat split.
  - destruct Hhot as [k [Hk [[-> _] | [-> _]]]]; [| lia].
    assert (0 < 2 ^ k) by (apply Z.pow_pos_nonneg; lia). lia.
  - intros ->. reflexivity.
  - intros ->. reflexivity.
  - intros Hgt.
    destruct (Z.eqb_spec hi 1); [lia |].
    destruct (Z.eqb_spec hi 0); [lia | reflexivity].
Qed.

Lemma shift_right_one_cases_witness :
  one_hot 4 0 /\
  shifted (Buffer "out_left" 10 (fun _ => 0)) 8 9 4 0 = (2, 0).
Proof.
  assert (Hhot : one_hot 4 0).
  { exists 2. split; [lia | left; split; reflexivity]. }
  split; [exact Hhot |].
  apply (shift_right_one_cases (Buffer "out_left" 10 (fun _ => 0)) 8 9 4 0);
    [lia | exact Hhot | lia].
Defined.

(** ** threefry_generate *)

Section Generate.

Variable junk : string -> Z -> Z.
Variable node_truth : bool.

Lemma threefry_generate_runs gen n out_gen out_array :
  valid_len n ->
  threefry_generate junk node_truth gen n out_gen out_array =
    Some (generate_gen_ir junk node_truth gen n out_gen out_array).
Proof.
  intros (_ & Hmod & Hle). unfold threefry_generate.
  rewrite Hmod, Z.eqb_refl.
  replace (n <=? 2 ^ 64 - 1) with true by (symmetry; apply Z.leb_le; exact Hle).
  reflexivity.
Qed.

(** The successor state, cell by cell, in terms of the working state. *)
Lemma next_state_cells gen n out_gen out_array i :
  let r := value (generate_gen_ir junk node_truth gen n out_gen out_array) in
  let tmp := snd (value (working_state junk node_truth gen n)) in
  cell (next_state r) i =
    if i =? 8 then cell tmp 8
    else if i =? 7 then U64.add (cell tmp 7) (U64.wrap n)
    else if i =? 6 then 0
    else if (0 <=? i) && (i <=? 5) then cell tmp i
    else cell out_gen i.
Proof.
  unfold generate_gen_ir. rewrite value_bind.
  destruct (value (working_state junk node_truth gen n)) as [br tmp].
  cbv zeta. simpl snd. run. simpl next_state. cbn [cell]. unfold upd.
  repeat match goal with
         | |- context [?a =? ?b] => destruct (Z.eqb_spec a b); [subst; try reflexivity; try lia |]
         end.
  destruct (Z.leb_spec 0 i), (Z.leb_spec i 5); simpl; try reflexivity; lia.
Qed.

Lemma taken_working gen n out_gen out_array :
  let r := value (generate_gen_ir junk node_truth gen n out_gen out_array) in
  taken r = fst (value (working_state junk node_truth gen n)) /\
  working r = snd (value (working_state junk node_truth gen n)).
Proof.
  unfold generate_gen_ir. rewrite value_bind.
  destruct (value (working_state junk node_truth gen n)) as [br tmp].
  run. split; reflexivity.
Qed.

(** The headroom test passes exactly for the counters of the upper half
    of the range that leave room for [n] more. *)
Lemma headroom_test_high g7 n :
  0 <= n -> 2 ^ 63 <= g7 < 2 ^ 64 - 1 - n -> headroom_test g7 n = true.
Proof.
  intros Hn Hg. unfold headroom_test, I64.ltb, I64.sub.
  change (I64.of_word (2 ^ 64 - 1)) with (-1). unfold I64.of_word.
  destruct (Z.ltb_spec g7 (2 ^ 63)); [lia |]. apply Z.ltb_lt. lia.
Qed.

Lemma headroom_test_full g7 n :
  valid_len n -> 2 ^ 64 - 1 - n <= g7 -> headroom_test g7 n = false.
Proof.
  intros (Hpos & _ & Hle) Hg. unfold headroom_test, I64.ltb, I64.sub.
  change (I64.of_word (2 ^ 64 - 1)) with (-1). unfold I64.of_word.
  destruct (Z.ltb_spec g7 (2 ^ 63)); apply Z.ltb_ge; lia.
Qed.

Lemma headroom_test_low g7 n :
  0 <= n -> 0 <= g7 < 2 ^ 63 -> headroom_test g7 n = false.
Proof.
  intros Hn Hg. unfold headroom_test, I64.ltb, I64.sub.
  change (I64.of_word (2 ^ 64 - 1)) with (-1). unfold I64.of_word.
  destruct (Z.ltb_spec g7 (2 ^ 63)); [| lia]. apply Z.ltb_ge. lia.
Qed.

Lemma range_10 : range 10 = [0; 1; 2; 3; 4; 5; 6; 7; 8; 9].
Proof. reflexivity. Qed.

(** Headroom: the working state is the input state, word for word. *)
Lemma working_headroom gen n :
  headroom_test (cell gen 7) n = true ->
  let w := value (working_state junk node_truth gen n) in
  fst w = Headroom /\ forall i, 0 <= i < 10 -> cell (snd w) i = cell gen i.
Proof.
  intros Hlt. unfold working_state. run. rewrite Hlt, range_10.
  cbn [for_each]. run. cbn [fst snd].
  split; [reflexivity |]. intros i Hi. run.
  assert (i = 0 \/ i = 1 \/ i = 2 \/ i = 3 \/ i = 4 \/ i = 5 \/ i = 6
          \/ i = 7 \/ i = 8 \/ i = 9) as Hcases by lia.
  repeat (destruct Hcases as [-> | Hcases]; [reflexivity |]).
  subst i. reflexivity.
Qed.

(** No headroom: one of the other two branches, and either one zeroes the
    counter of the working state. *)
Lemma working_no_headroom gen n :
  headroom_test (cell gen 7) n = false ->
  let w := value (working_state junk node_truth gen n) in
  (fst w = Rehash \/ fst w = ExtendPath) /\
  cell (snd w) 6 = 0 /\ cell (snd w) 7 = 0.
Proof.
  intros Hlt. unfold working_state. run. rewrite Hlt. run.
  destruct (value (cursor_exhausted node_truth gen)).
  - cbv iota. run. cbn [fst snd]. run.
    split; [left; reflexivity | split; reflexivity].
  - cbv iota. run. unfold _shift_right.
    destruct (U64.eqb (cell gen 8) 1); [| destruct (U64.eqb (cell gen 8) 0)];
      cbv iota; run; cbn [fst snd]; run;
      (split; [right; reflexivity | split; reflexivity]).
Qed.

End Generate.

(** Where the headroom test passes, the counter advances: for a counter in
    the upper half of the range with room for [n], the successor state has
    [counter[1] = state.counter[1] + n] and [counter[0] = 0]. *)
Lemma headroom_counter_advances
    (junk : string -> Z -> Z) (node_truth : bool)
    (gen out_gen out_array : buffer) (n : Z) :
  valid_len n ->
  2 ^ 63 <= cell gen 7 < 2 ^ 64 - 1 - n ->
  let r := value (generate_gen_ir junk node_truth gen n out_gen out_array) in
  taken r = Headroom /\
  cell (next_state r) 7 = cell gen 7 + n /\
  cell (next_state r) 6 = 0.
Proof.
  intros Hn Hroom. cbv zeta.
  assert (Hlt : headroom_test (cell gen 7) n = true).
  { destruct Hn as (Hpos & _ & _). apply headroom_test_high; lia. }
  destruct (working_headroom junk node_truth gen n Hlt) as [Hbr Hcells].
  destruct (taken_working junk node_truth gen n out_gen out_array) as [Htk _].
  split; [rewrite Htk; exact Hbr |].
  rewrite !next_state_cells. simpl.
  rewrite Hcells by lia. split; [| reflexivity].
  destruct Hn as (Hpos & _ & Hle).
  unfold U64.add, U64.wrap, U64.modulus.
  rewrite (Z.mod_small n) by lia. apply Z.mod_small. lia.
Qed.

(** C5, refuted: the headroom test is a signed comparison, so no counter
    below [2^63] passes it.  For every such counter other than 0, whatever
    room the condition [counter[1] < 2^64 - 1 - n] of the claim sees,
    [threefry_generate] takes the rehash or the path-extension branch,
    restarts the counter from 0, and returns a successor state with
    [counter[1] = n], not [state.counter[1] + n]. *)
Theorem generate_counter_restarts_below_half
    (junk : string -> Z -> Z) (node_truth : bool)
    (gen out_gen out_array : buffer) (n : Z) :
  valid_len n ->
  0 < cell gen 7 < 2 ^ 63 ->
  cell gen 7 < 2 ^ 64 - 1 - n ->
  exists r,
    threefry_generate junk node_truth gen n out_gen out_array = Some r /\
    taken (value r) <> Headroom /\
    cell (next_state (value r)) 7 = n /\
    cell (next_state (value r)) 7 <> cell gen 7 + n.
Proof.
  intros Hn Hlow _.
  exists (generate_gen_ir junk node_truth gen n out_gen out_array).
  split; [apply threefry_generate_runs; exact Hn |].
  assert (Hlt : headroom_test (cell gen 7) n = false).
  { destruct Hn as (Hpos & _ & _). apply headroom_test_low; lia. }
  destruct (working_no_headroom junk node_truth gen n Hlt) as (Hbr & _ & H7).
  destruct (taken_working junk node_truth gen n out_gen out_array) as [Htk Hwk].
  assert (Hnext : cell (next_state
                          (value (generate_gen_ir junk node_truth gen n out_gen out_array))) 7
                  = n).
  { rewrite next_state_cells. cbv iota. simpl (7 =? 8). simpl (7 =? 7).
    cbv iota. rewrite H7. destruct Hn as (Hpos & _ & Hle).
    unfold U64.add, U64.wrap, U64.modulus.
    rewrite (Z.mod_small n) by lia. apply Z.mod_small. lia. }
  split; [rewrite Htk; destruct Hbr as [-> | ->]; discriminate |].
  split; [exact Hnext |]. rewrite Hnext. lia.
Qed.

Lemma of_list_uint64 nm l :
  Forall U64.in_range l -> uint64_tensor (of_list nm l (fun _ => 0)).
Proof.
  intros Hl i. unfold of_list. cbn [cell].
  destruct ((0 <=? i) && (i <? Z.of_nat (List.length l))) eqn:E.
  - apply andb_prop in E as [E0 E1].
    apply Z.leb_le in E0. apply Z.ltb_lt in E1.
    rewrite Forall_forall in Hl. apply Hl. apply nth_In. lia.
  - unfold U64.in_range, U64.modulus. lia.
Qed.

Lemma seed_state_uint64 : uint64_tensor seed_state.
Proof.
  apply of_list_uint64.
  repeat constructor; unfold U64.in_range, U64.modulus; lia.
Qed.

Lemma valid_len_4 : valid_len 4.
Proof. split; [lia | split; [reflexivity | vm_compute; discriminate]]. Qed.

Lemma generate_counter_restarts_below_half_witness :
  valid_len 4 /\ 0 < cell counted_state 7 < 2 ^ 63 /\
  cell counted_state 7 < 2 ^ 64 - 1 - 4 /\
  exists r,
    threefry_generate zero_junk false counted_state 4
      fresh_out_gen fresh_out_array = Some r /\
    taken (value r) <> Headroom /\
    cell (next_state (value r)) 7 = 4 /\
    cell (next_state (value r)) 7 <> cell counted_state 7 + 4.
Proof.
  assert (Hlow : 0 < cell counted_state 7 < 2 ^ 63) by (vm_compute; split; reflexivity).
  assert (Hroom : cell counted_state 7 < 2 ^ 64 - 1 - 4) by (vm_compute; reflexivity).
  split; [exact valid_len_4 |]. split; [exact Hlow |]. split; [exact Hroom |].
  exact (generate_counter_restarts_below_half zero_junk false counted_state
           fresh_out_gen fresh_out_array 4 valid_len_4 Hlow Hroom).
Defined.

Lemma valid_len_below_sentinel n : valid_len n -> n < 2 ^ 64 - 1.
Proof.
  intros (Hpos & Hmod & Hle).
  assert (n <> 2 ^ 64 - 1); [| lia].
  intros ->. vm_compute in Hmod. discriminate.
Qed.

(** C6: a state with [counter[1] = 2^64 - 1 - n], asked for a valid [n],
    takes the rehash or the path-extension branch, not the headroom branch;
    the counter restarts from 0, so the successor's counter is [n], below
    the sentinel [2^64 - 1]. *)
Theorem generate_exhaustion_leaves_headroom
    (junk : string -> Z -> Z) (node_truth : bool)
    (gen out_gen out_array : buffer) (n : Z) :
  valid_len n ->
  cell gen 7 = 2 ^ 64 - 1 - n ->
  exists r,
    threefry_generate junk node_truth gen n out_gen out_array = Some r /\
    taken (value r) <> Headroom /\
    (taken (value r) = Rehash \/ taken (value r) = ExtendPath) /\
    cell (working (value r)) 7 = 0 /\
    cell (next_state (value r)) 7 = n /\
    n < 2 ^ 64 - 1.
Proof.
  intros Hn Hctr.
  exists (generate_gen_ir junk node_truth gen n out_gen out_array).
  split; [apply threefry_generate_runs; exact Hn |].
  assert (Hlt : headroom_test (cell gen 7) n = false).
  { apply headroom_test_full; [exact Hn | lia]. }
  destruct (working_no_headroom junk node_truth gen n Hlt) as (Hbr & _ & H7).
  destruct (taken_working junk node_truth gen n out_gen out_array) as [Htk Hwk].
  rewrite next_state_cells, Htk, Hwk. cbv iota. simpl (7 =? 8). simpl (7 =? 7).
  cbv iota. rewrite H7.
  pose proof (valid_len_below_sentinel n Hn) as Hlt'.
  repeat split.
  - destruct Hbr as [-> | ->]; discriminate.
  - exact Hbr.
  - destruct Hn as (Hpos & _ & _).
    unfold U64.add, U64.wrap, U64.modulus.
    rewrite (Z.mod_small n) by lia. apply Z.mod_small. lia.
  - exact Hlt'.
Qed.

Lemma generate_exhaustion_leaves_headroom_witness :
  valid_len 4 /\ cell spent_state 7 = 2 ^ 64 - 1 - 4 /\
  exists r,
    threefry_generate zero_junk false spent_state 4
      (Buffer "out_gen" 10 (fun _ => 0)) (Buffer "out_array" 4 (fun _ => 0)) = Some r /\
    taken (value r) <> Headroom /\
    (taken (value r) = Rehash \/ taken (value r) = ExtendPath) /\
    cell (working (value r)) 7 = 0 /\
    cell (next_state (value r)) 7 = 4 /\
    4 < 2 ^ 64 - 1.
Proof.
  assert (Hctr : cell spent_state 7 = 2 ^ 64 - 1 - 4) by (vm_compute; reflexivity).
  split; [exact valid_len_4 |].
  split; [exact Hctr |].
  apply (generate_exhaustion_leaves_headroom zero_junk false spent_state
           (Buffer "out_gen" 10 (fun _ => 0)) (Buffer "out_array" 4 (fun _ => 0)) 4
           valid_len_4 Hctr).
Defined.

(** ** The cursor invariant *)

Lemma in_range_iff k n : In k (range n) <-> 0 <= k < n.
Proof.
  unfold range. rewrite in_map_iff. split.
  - intros (m & <- & Hm). apply in_seq in Hm. lia.
  - intros Hk. exists (Z.to_nat k). split; [lia |]. apply in_seq. lia.
Qed.

Lemma pos_popcount_pos p : 1 <= pos_popcount p.
Proof. induction p; cbn [pos_popcount]; lia. Qed.

Lemma popcount_nonneg w : 0 <= popcount w.
Proof. destruct w; cbn [popcount]; try lia. pose proof (pos_popcount_pos p). lia. Qed.

Lemma pos_popcount_one p :
  pos_popcount p <= 1 -> exists k, 0 <= k /\ Zpos p = 2 ^ k.
Proof.
  induction p as [q IH | q IH |]; cbn [pos_popcount]; intros H.
  - pose proof (pos_popcount_pos q). lia.
  - destruct (IH H) as (k & Hk & E). exists (k + 1). split; [lia |].
    rewrite Z.pow_add_r, <- E by lia. lia.
  - exists 0. split; [lia | reflexivity].
Qed.

Lemma popcount_pow2 k : 0 <= k < 64 -> popcount (2 ^ k) = 1.
Proof.
  intros Hk.
  assert (H : forallb (fun k => popcount (2 ^ k) =? 1) (range 64) = true)
    by (vm_compute; reflexivity).
  rewrite forallb_forall in H. apply Z.eqb_eq, H, in_range_iff, Hk.
Qed.

Lemma popcount_shiftr_pow2 k : 0 <= k < 64 -> popcount (Z.shiftr (2 ^ k) 1) <= 1.
Proof.
  intros Hk.
  assert (H : forallb (fun k => popcount (Z.shiftr (2 ^ k) 1) <=? 1) (range 64) = true)
    by (vm_compute; reflexivity).
  rewrite forallb_forall in H. apply Z.leb_le, H, in_range_iff, Hk.
Qed.

(** A 64-bit word with at most one bit set is 0 or a power of two. *)
Lemma popcount_le_1 w :
  U64.in_range w -> popcount w <= 1 ->
  w = 0 \/ exists k, 0 <= k < 64 /\ w = 2 ^ k.
Proof.
  intros Hw Hpc. unfold U64.in_range, U64.modulus in Hw.
  destruct w as [| p | p]; [left; reflexivity | | lia].
  right. cbn [popcount] in Hpc.
  destruct (pos_popcount_one p Hpc) as (k & Hk & E).
  exists k. split; [| exact E].
  split; [exact Hk |]. rewrite E in Hw.
  apply (Z.pow_lt_mono_r_iff 2); lia.
Qed.

(** The cursor of a state in the three cases the invariant allows. *)
Lemma cursor_cases s :
  uint64_tensor s -> cursor_invariant s ->
  (cell s 8 = 0 /\ cell s 9 = 0) \/
  (exists k, 0 <= k < 64 /\ cell s 8 = 2 ^ k /\ cell s 9 = 0) \/
  (exists k, 0 <= k < 64 /\ cell s 8 = 0 /\ cell s 9 = 2 ^ k).
Proof.
  intros Hs Hinv. unfold cursor_invariant, cursor_popcount in Hinv.
  pose proof (popcount_nonneg (cell s 8)) as H8.
  pose proof (popcount_nonneg (cell s 9)) as H9.
  assert (P8 : popcount (cell s 8) <= 1) by lia.
  assert (P9 : popcount (cell s 9) <= 1) by lia.
  destruct (popcount_le_1 _ (Hs 8) P8) as [E8 | (k & Hk & E8)];
  destruct (popcount_le_1 _ (Hs 9) P9) as [E9 | (k' & Hk' & E9)].
  - left. split; assumption.
  - right. right. exists k'. repeat split; try assumption; lia.
  - right. left. exists k. repeat split; try assumption; lia.
  - rewrite E8, E9, !popcount_pow2 in Hinv by assumption. lia.
Qed.

Lemma shift_right_one_popcount hi lo :
  (hi = 0 /\ lo = 0) \/
  (exists k, 0 <= k < 64 /\ hi = 2 ^ k /\ lo = 0) \/
  (exists k, 0 <= k < 64 /\ hi = 0 /\ lo = 2 ^ k) ->
  popcount (fst (shift_right_one hi lo)) + popcount (snd (shift_right_one hi lo)) <= 1.
Proof.
  unfold shift_right_one.
  intros [[-> ->] | [(k & Hk & -> & ->) | (k & Hk & -> & ->)]].
  - cbn. lia.
  - destruct (Z.eqb_spec (2 ^ k) 1); [cbn; lia |].
    assert (0 < 2 ^ k) by (apply Z.pow_pos_nonneg; lia).
    destruct (Z.eqb_spec (2 ^ k) 0); [lia |].
    cbn [fst snd]. pose proof (popcount_shiftr_pow2 k Hk). cbn [popcount]. lia.
  - cbn [Z.eqb fst snd]. pose proof (popcount_shiftr_pow2 k Hk). cbn [popcount]. lia.
Qed.

(** ** threefry_split *)

Lemma cursor_exhausted_value node_truth gen :
  value (cursor_exhausted node_truth gen) =
    if node_truth then cell gen 9 =? 0 else cell gen 8 =? 0.
Proof. unfold cursor_exhausted, py_and. destruct node_truth; reflexivity. Qed.

Section Split.

Variable junk : string -> Z -> Z.
Variable node_truth : bool.
Variables (gen out_left out_right : buffer).

Local Abbreviation children :=
  (split_children junk node_truth gen out_left out_right).

(** The rehash branch: what it stores after the hash. *)
Lemma split_rehash :
  value (cursor_exhausted node_truth gen) = true ->
  cell (fst children) 4 = 0 /\ cell (snd children) 4 = 2 ^ 63 /\
  cell (fst children) 8 = 2 ^ 62 /\ cell (fst children) 9 = 0 /\
  cell (snd children) 8 = 2 ^ 62 /\ cell (snd children) 9 = 0.
Proof.
  intros Hex. unfold split_children, threefry_split. run. rewrite Hex. run.
  cbn [fst snd]. run. repeat split.
Qed.

(** The path-extension branch. *)
Lemma split_extend :
  value (cursor_exhausted node_truth gen) = false ->
  cell (fst children) 4 = cell gen 4 /\
  cell (fst children) 5 = cell gen 5 /\
  cell (snd children) 4 = Z.lor (cell gen 4) (cell gen 8) /\
  cell (snd children) 5 = Z.lor (cell gen 5) (cell gen 9) /\
  (cell (fst children) 8, cell (fst children) 9)
    = shift_right_one (cell gen 8) (cell gen 9) /\
  (cell (snd children) 8, cell (snd children) 9)
    = shift_right_one (cell gen 8) (cell gen 9).
Proof.
  intros Hex. unfold split_children, threefry_split. run. rewrite Hex. run.
  unfold _shift_right, shift_right_one, U64.eqb, U64.shr, U64.or.
  destruct (cell gen 8 =? 1); [| destruct (cell gen 8 =? 0)];
    run; cbn [fst snd]; run; repeat split.
Qed.

End Split.

Lemma state_words_cell s t i :
  state_words s = state_words t -> 0 <= i < 10 -> cell s i = cell t i.
Proof.
  unfold state_words, words. rewrite range_10. cbn [map Z.add].
  intros H Hi. injection H as H0 H1 H2 H3 H4 H5 H6 H7 H8 H9.
  assert (i = 0 \/ i = 1 \/ i = 2 \/ i = 3 \/ i = 4 \/ i = 5 \/ i = 6
          \/ i = 7 \/ i = 8 \/ i = 9) as Hcases by lia.
  repeat (destruct Hcases as [-> | Hcases]; [assumption |]).
  subst i. assumption.
Qed.

Lemma lor_fresh_bit a b : Z.land a b = 0 -> b <> 0 -> Z.lor a b <> a.
Proof.
  intros Hland Hb E. apply Hb. apply Z.bits_inj'. intros n Hn.
  rewrite Z.bits_0.
  assert (Ha : Z.testbit (Z.lor a b) n = Z.testbit a n) by (rewrite E; reflexivity).
  assert (Hl : Z.testbit (Z.land a b) n = false) by (rewrite Hland; apply Z.bits_0).
  rewrite Z.lor_spec in Ha. rewrite Z.land_spec in Hl.
  destruct (Z.testbit a n), (Z.testbit b n); simpl in *; congruence.
Qed.

(** C4, as amended: for a well-formed state whose path does not yet hold
    the bit the cursor marks, the two states returned by [threefry_split]
    differ in at least one word: word 4 in the rehash branch, where
    [left.path = 0] and [right.path = (1 << 63, 0)]; the path word the
    cursor bit is appended to in the other branch. *)
Theorem split_children_distinct
    (junk : string -> Z -> Z) (node_truth : bool)
    (gen out_left out_right : buffer) :
  well_formed gen ->
  path_clear_at_cursor gen ->
  let r := split_children junk node_truth gen out_left out_right in
  state_words (fst r) <> state_words (snd r).
Proof.
  intros _ [Hhi Hlo] r Heq.
  assert (E4 : cell (fst r) 4 = cell (snd r) 4)
    by (apply state_words_cell; [exact Heq | lia]).
  assert (E5 : cell (fst r) 5 = cell (snd r) 5)
    by (apply state_words_cell; [exact Heq | lia]).
  destruct (value (cursor_exhausted node_truth gen)) eqn:Hex.
  - destruct (split_rehash junk node_truth gen out_left out_right Hex)
      as (L4 & R4 & _).
    fold r in L4, R4. rewrite L4, R4 in E4. discriminate.
  - destruct (split_extend junk node_truth gen out_left out_right Hex)
      as (L4 & L5 & R4 & R5 & _).
    fold r in L4, L5, R4, R5.
    rewrite L4, R4 in E4. rewrite L5, R5 in E5.
    rewrite cursor_exhausted_value in Hex.
    destruct node_truth.
    + apply Z.eqb_neq in Hex. symmetry in E5.
      exact (lor_fresh_bit _ _ Hlo Hex E5).
    + apply Z.eqb_neq in Hex. symmetry in E4.
      exact (lor_fresh_bit _ _ Hhi Hex E4).
Qed.

Lemma seed_state_well_formed : well_formed seed_state.
Proof.
  split; [exact seed_state_uint64 |].
  split; [vm_compute; discriminate | vm_compute; discriminate].
Qed.

Lemma split_children_distinct_witness :
  well_formed seed_state /\ path_clear_at_cursor seed_state /\
  state_words (fst (split_children zero_junk false seed_state fresh_out_left fresh_out_right))
  <> state_words (snd (split_children zero_junk false seed_state fresh_out_left fresh_out_right)).
Proof.
  assert (Hpath : path_clear_at_cursor seed_state) by (split; reflexivity).
  split; [exact seed_state_well_formed |].
  split; [exact Hpath |].
  exact (split_children_distinct zero_junk false seed_state
           fresh_out_left fresh_out_right
           seed_state_well_formed Hpath).
Defined.

(** C4, as stated, fails: [marked_state] has a one-hot cursor and a counter
    away from the sentinel, and its two children are the same ten words. *)
Lemma split_children_collide :
  well_formed marked_state /\
  state_words (fst (split_children zero_junk false marked_state fresh_out_left fresh_out_right))
  = state_words (snd (split_children zero_junk false marked_state fresh_out_left fresh_out_right)).
Proof.
  split.
  - split; [| split; [vm_compute; discriminate | vm_compute; discriminate]].
    apply of_list_uint64.
    repeat constructor; unfold U64.in_range, U64.modulus; lia.
  - vm_compute. reflexivity.
Qed.

(** ** The cursor across [threefry_generate] and [threefry_split] *)

(** Word 9 of the successor state is never stored: it is what the output
    buffer held before the call.  Word 8 is the working state's. *)
Lemma next_state_cursor junk node_truth gen n out_gen out_array :
  let r := value (generate_gen_ir junk node_truth gen n out_gen out_array) in
  cell (next_state r) 8 = cell (working r) 8 /\
  cell (next_state r) 9 = cell out_gen 9.
Proof.
  cbv zeta. rewrite !next_state_cells.
  destruct (taken_working junk node_truth gen n out_gen out_array) as [_ ->].
  split; reflexivity.
Qed.

(** The cursor of the working state in the two branches without
    headroom. *)
Lemma working_cursor_no_headroom junk node_truth gen n :
  headroom_test (cell gen 7) n = false ->
  let tmp := snd (value (working_state junk node_truth gen n)) in
  (cell tmp 8, cell tmp 9) =
    if value (cursor_exhausted node_truth gen) then (2 ^ 63, 0)
    else shift_right_one (cell gen 8) (cell gen 9).
Proof.
  intros Hlt. unfold working_state. run. rewrite Hlt. run.
  destruct (value (cursor_exhausted node_truth gen)).
  - run. cbn [fst snd]. run. reflexivity.
  - run. unfold _shift_right, shift_right_one, U64.eqb, U64.shr.
    destruct (cell gen 8 =? 1); [| destruct (cell gen 8 =? 0)];
      run; cbn [fst snd]; run; reflexivity.
Qed.

Lemma pair_eq_parts {A B} (a : A) (b : B) p : (a, b) = p -> a = fst p /\ b = snd p.
Proof. intros <-. split; reflexivity. Qed.

(** Step 1 keeps the cursor one-hot or zero. *)
Lemma working_cursor_invariant junk node_truth gen n :
  uint64_tensor gen -> cursor_invariant gen ->
  cursor_invariant (snd (value (working_state junk node_truth gen n))).
Proof.
  intros Hgen Hinv.
  destruct (headroom_test (cell gen 7) n) eqn:Hlt.
  - destruct (working_headroom junk node_truth gen n Hlt) as [_ Hcells].
    unfold cursor_invariant, cursor_popcount in *.
    rewrite !Hcells by lia. exact Hinv.
  - pose proof (working_cursor_no_headroom junk node_truth gen n Hlt) as Hc.
    apply pair_eq_parts in Hc as [H8 H9].
    unfold cursor_invariant, cursor_popcount. rewrite H8, H9.
    destruct (value (cursor_exhausted node_truth gen)).
    + vm_compute. discriminate.
    + apply shift_right_one_popcount, cursor_cases; assumption.
Qed.

(** [threefry_split] keeps the cursor one-hot or zero in both children. *)
Lemma split_cursor_invariant junk node_truth gen out_left out_right :
  uint64_tensor gen -> cursor_invariant gen ->
  let r := split_children junk node_truth gen out_left out_right in
  cursor_invariant (fst r) /\ cursor_invariant (snd r).
Proof.
  intros Hgen Hinv r. unfold cursor_invariant, cursor_popcount.
  destruct (value (cursor_exhausted node_truth gen)) eqn:Hex.
  - destruct (split_rehash junk node_truth gen out_left out_right Hex)
      as (_ & _ & L8 & L9 & R8 & R9).
    fold r in L8, L9, R8, R9. rewrite L8, L9, R8, R9.
    split; vm_compute; discriminate.
  - destruct (split_extend junk node_truth gen out_left out_right Hex)
      as (_ & _ & _ & _ & HL & HR).
    fold r in HL, HR.
    apply pair_eq_parts in HL as [L8 L9]. apply pair_eq_parts in HR as [R8 R9].
    rewrite L8, L9, R8, R9.
    split; apply shift_right_one_popcount, cursor_cases; assumption.
Qed.

(** C1, evaluated: [low_cursor_state] takes the headroom branch, the
    working state carries the cursor [(0, 2^63)] of the input, and the
    successor state has cursor [(0, 0)]: word 9 is not the cursor word of
    Step 1 but what the output buffer held.  The cursor test plays no part
    on this branch. *)
Theorem generate_drops_cursor_low_word :
  forall node_truth : bool,
  exists r,
    threefry_generate zero_junk node_truth low_cursor_state 4
      fresh_out_gen fresh_out_array = Some r /\
    taken (value r) = Headroom /\
    words low_cursor_state 8 2 = [0; 2 ^ 63] /\
    words (working (value r)) 8 2 = [0; 2 ^ 63] /\
    words (next_state (value r)) 8 2 = [0; 0].
Proof.
  intros node_truth.
  exists (generate_gen_ir zero_junk node_truth low_cursor_state 4
            fresh_out_gen fresh_out_array).
  split; [apply threefry_generate_runs; exact valid_len_4 |].
  destruct node_truth; repeat split; vm_compute; reflexivity.
Qed.

(** C8, evaluated: [seed_state] has a one-hot cursor, and the successor
    state [threefry_generate] leaves in a reused output buffer has two bits
    set in its cursor: the bit Step 1 moved to [2^62] in word 8, and the
    bit the buffer held in word 9. *)
Theorem generate_breaks_cursor_invariant :
  cursor_popcount seed_state = 1 /\
  exists r,
    threefry_generate zero_junk false seed_state 4
      stale_out_gen fresh_out_array = Some r /\
    cursor_popcount (working (value r)) = 1 /\
    words (next_state (value r)) 8 2 = [2 ^ 62; 32] /\
    cursor_popcount (next_state (value r)) = 2.
Proof.
  split; [vm_compute; reflexivity |].
  exists (generate_gen_ir zero_junk false seed_state 4
            stale_out_gen fresh_out_array).
  split; [apply threefry_generate_runs; exact valid_len_4 |].
  repeat split; vm_compute; reflexivity.
Qed.

(** ** Buffer bounds *)

(** C9, evaluated.  For one block ([out_shape = 1]) the permutation
    temporary [tmp] has extent 1 and is accessed at 1, 2 and 3; for two
    blocks it has extent 2 and is accessed up to 7; for [n] blocks, [n] from
    1 to 6, it is accessed at [4 * n - 1].  In the rehash branch of
    [threefry_generate] the 2-word [tmp_counter] is read at 2 and 3. *)
Theorem threefry_accesses_leave_extent :
  (let r := _threefry zero_junk zero_key 0 zero_counter 0 (fresh_out 4) 0 1 in
   leaves_extent r "tmp" 1 1 = true /\
   leaves_extent r "tmp" 1 2 = true /\
   leaves_extent r "tmp" 1 3 = true) /\
  (let r := _threefry zero_junk zero_key 0 zero_counter 0 (fresh_out 8) 0 2 in
   leaves_extent r "tmp" 2 2 = true /\
   leaves_extent r "tmp" 2 7 = true) /\
  forallb (fun n =>
             leaves_extent
               (_threefry zero_junk zero_key 0 zero_counter 0 (fresh_out (4 * n)) 0 n)
               "tmp" n (4 * n - 1))
          [1; 2; 3; 4; 5; 6] = true /\
  exists r,
    threefry_generate zero_junk false exhausted_state 4
      fresh_out_gen fresh_out_array = Some r /\
    taken (value r) = Rehash /\
    leaves_extent r "tmp_counter" 2 2 = true /\
    leaves_extent r "tmp_counter" 2 3 = true.
Proof.
  split; [repeat split; vm_compute; reflexivity |].
  split; [repeat split; vm_compute; reflexivity |].
  split; [vm_compute; reflexivity |].
  exists (generate_gen_ir zero_junk false exhausted_state 4
            fresh_out_gen fresh_out_array).
  split; [apply threefry_generate_runs; exact valid_len_4 |].
  repeat split; vm_compute; reflexivity.
Qed.

(** ** The block function against the published test vector *)

Lemma reference_known_answers :
  Reference.threefry4x64_20 [0; 0; 0; 0] [0; 0; 0; 0] = threefry4x64_20_kat_zero /\
  Reference.threefry4x64_20
    [Reference.ones; Reference.ones; Reference.ones; Reference.ones]
    [Reference.ones; Reference.ones; Reference.ones; Reference.ones]
  = [0x29c24097942bba1b; 0x0371bbfb0f6f4e11; 0x3c231ffa33f83a1c; 0xcd29113fde32d168].
Proof. split; vm_compute; reflexivity. Qed.

(** Leaving out the subkey after the last round is enough to miss the
    vector, in its last word. *)
Lemma five_groups_miss_the_vector :
  Reference.five_groups [0; 0; 0; 0] [0; 0; 0; 0]
  = [0x09218ebde6c85537; 0x55941f5266d86105; 0x4bd25e16282434dc; 0xee29ec846bd2e406] /\
  Reference.five_groups [0; 0; 0; 0] [0; 0; 0; 0] <> threefry4x64_20_kat_zero.
Proof. split; [vm_compute; reflexivity | vm_compute; discriminate]. Qed.

(** C3, evaluated: what [_threefry] returns for the all-zero key and
    plaintext, and that it is not the published vector (it differs from it
    in every word). *)
Theorem block_mix_zero_is_not_the_kat :
  block_mix [0; 0; 0; 0] [0; 0; 0; 0]
  = [0x962b06cc22e7230e; 0xc1f1c81efbcd382b; 0xa413346e4381ff0c; 0xc11c637d3677f887] /\
  block_mix [0; 0; 0; 0] [0; 0; 0; 0] <> threefry4x64_20_kat_zero /\
  forallb (fun p => negb (fst p =? snd p))
    (combine (block_mix [0; 0; 0; 0] [0; 0; 0; 0]) threefry4x64_20_kat_zero) = true.
Proof.
  split; [vm_compute; reflexivity |].
  split; [vm_compute; discriminate | vm_compute; reflexivity].
Qed.

(** ** scatter_nd *)

Lemma value_bindR {A B} (m : Run A) (k : A -> Run B) :
  value (bindR m k) =
    match value m with
    | Done a => value (k a)
    | AssertionFailed msg => AssertionFailed msg
    end.
Proof.
  unfold bindR. rewrite value_bind. destruct (value m); reflexivity.
Qed.

Lemma value_lift {A} (m : Ir A) : value (lift m) = Done (value m).
Proof. unfold lift. rewrite value_bind. reflexivity. Qed.

Lemma failed_done {A} (m : Run A) a : value m = Done a -> ~ failed m.
Proof. intros E [msg H]. congruence. Qed.

Lemma failed_or_done {A} (m : Run A) : failed m \/ exists a, value m = Done a.
Proof.
  destruct (value m) as [a | msg] eqn:E.
  - right. exists a. reflexivity.
  - left. exists msg. exact E.
Qed.

(** A loop stops at an assertion exactly when one of its passes does,
    provided whether a pass stops depends on its index alone. *)
Lemma for_eachR_failed_iff {S} (bad : Z -> Prop) (body : Z -> S -> Run S) l :
  (forall i s, In i l -> (failed (body i s) <-> bad i)) ->
  forall s, failed (for_eachR l body s) <-> exists i, In i l /\ bad i.
Proof.
  induction l as [| i l IH]; intros Hbody s.
  - cbn [for_eachR]. split.
    + intros [msg H]. discriminate.
    + intros (i & [] & _).
  - cbn [for_eachR]. unfold failed at 1. rewrite value_bindR.
    assert (Hl : forall i s, In i l -> failed (body i s) <-> bad i)
      by (intros; apply Hbody; right; assumption).
    destruct (value (body i s)) as [s' | msg] eqn:E.
    + fold (failed (for_eachR l body s')). rewrite (IH Hl s'). split.
      * intros (k & Hk & Hbad). exists k. split; [right |]; assumption.
      * intros (k & [<- | Hk] & Hbad).
        -- exfalso. apply (failed_done _ _ E). apply Hbody; [left; reflexivity | exact Hbad].
        -- exists k. split; assumption.
    + split.
      * intros _. exists i. split; [left; reflexivity |].
        apply (Hbody i s); [left; reflexivity |]. exists msg. exact E.
      * intros _. exists msg. reflexivity.
Qed.

Lemma for_eachR_app {S} (body : Z -> S -> Run S) l1 l2 s :
  value (for_eachR (l1 ++ l2) body s) =
    match value (for_eachR l1 body s) with
    | Done s' => value (for_eachR l2 body s')
    | AssertionFailed msg => AssertionFailed msg
    end.
Proof.
  revert s. induction l1 as [| i l1 IH]; intros s.
  - reflexivity.
  - cbn [for_eachR app]. rewrite !value_bindR.
    destruct (value (body i s)); [apply IH | reflexivity].
Qed.

Lemma range_succ n : 0 < n -> range n = 0 :: map Z.succ (range (n - 1)).
Proof.
  intros Hn. unfold range.
  replace (Z.to_nat n) with (S (Z.to_nat (n - 1))) by lia.
  cbn [seq map]. f_equal. rewrite <- seq_shift, !map_map.
  apply map_ext. intros a. lia.
Qed.

Section ScatterNdProperties.

Variables (data_shape indices_shape shape : list Z).
Variables (data indices : buffer).

Local Abbreviation M := (Scatter.mdim indices_shape).
Local Abbreviation fid := (Scatter.fused_indices_dimension indices_shape).
Local Abbreviation fdd := (Scatter.fused_data_dimension data_shape indices_shape).
Local Abbreviation step := (Scatter.index_step indices_shape shape indices).
Local Abbreviation out_index := (Scatter.out_index data_shape indices_shape shape indices).
Local Abbreviation gen_ir := (Scatter.gen_ir data_shape indices_shape shape data indices).

Local Abbreviation index_value := (index_value indices_shape indices).
Local Abbreviation past_extent := (past_extent indices_shape shape indices).

Lemma index_step_value i l index offset :
  value (step i l (index, offset)) =
    if index_value i l <? znth shape l 0
    then Done (index + offset * index_value i l, offset * znth shape l 0)
    else AssertionFailed "index out of bounds".
Proof.
  unfold Scatter.index_step, index_value. rewrite !value_bindR, !value_lift.
  rewrite value_bindR, value_lift, value_bindR. rewrite !value_load.
  unfold assert_stmt.
  destruct (cell indices (i + l * fid) <? znth shape l 0); reflexivity.
Qed.

Lemma index_step_failed i l st : failed (step i l st) <-> past_extent i l.
Proof.
  destruct st as [index offset]. unfold failed, past_extent.
  rewrite index_step_value.
  destruct (Z.ltb_spec (index_value i l) (znth shape l 0)); split.
  - intros [msg H']. discriminate.
  - lia.
  - intros _. assumption.
  - intros _. eexists. reflexivity.
Qed.

Lemma out_index_failed i j :
  failed (out_index i j) <-> exists l, 0 <= l < M /\ past_extent i l.
Proof.
  unfold Scatter.out_index.
  pose proof (for_eachR_failed_iff (past_extent i) (step i) (rev (range M))
                (fun l s _ => index_step_failed i l s) (j, fdd)) as Hloop.
  unfold failed at 1. rewrite value_bindR.
  destruct (value (for_eachR (rev (range M)) (step i) (j, fdd))) as [[index o] | msg] eqn:E.
  - split.
    + intros [msg H]. discriminate.
    + intros (l & Hl & Hbad). exfalso. apply (failed_done _ _ E), Hloop.
      exists l. split; [apply in_rev; rewrite rev_involutive; apply in_range_iff; exact Hl | exact Hbad].
  - split.
    + intros _. assert (Hf : failed (for_eachR (rev (range M)) (step i) (j, fdd)))
        by (exists msg; exact E).
      apply Hloop in Hf as (l & Hl & Hbad). exists l. split; [| exact Hbad].
      apply in_range_iff, in_rev. exact Hl.
    + intros _. exists msg. reflexivity.
Qed.

Lemma scatter_pass_failed i j out :
  failed (index <~ out_index i j ;;
          v <~ lift (load data (i * fdd + j)) ;;
          lift (store out index v))
  <-> exists l, 0 <= l < M /\ past_extent i l.
Proof.
  rewrite <- (out_index_failed i j). unfold failed. rewrite value_bindR.
  destruct (value (out_index i j)) as [index | msg].
  - rewrite value_bindR, !value_lift. split; intros [m H]; discriminate.
  - split; intros _; eexists; reflexivity.
Qed.

(** The run stops at the assertion exactly when some index value is not
    below its extent. *)
Lemma gen_ir_failed out :
  0 < fdd ->
  failed (gen_ir out) <->
  exists i l, 0 <= i < fid /\ 0 <= l < M /\ past_extent i l.
Proof.
  intros Hfdd. unfold Scatter.gen_ir. unfold failed at 1.
  rewrite value_bindR, value_lift.
  match goal with
  | |- (exists msg, value (for_eachR ?ls ?body ?st) = _) <-> ?rhs =>
      change (failed (for_eachR ls body st) <-> rhs);
      rewrite (for_eachR_failed_iff
                 (fun i => exists l, 0 <= l < M /\ past_extent i l) body ls)
  end.
  - split.
    + intros (i & Hi & l & Hl & Hbad). exists i, l.
      apply in_range_iff in Hi. repeat split; try assumption; lia.
    + intros (i & l & Hi & Hl & Hbad). exists i. split; [apply in_range_iff; exact Hi |].
      exists l. split; assumption.
  - intros i s _.
    rewrite (for_eachR_failed_iff
               (fun _ => exists l, 0 <= l < M /\ past_extent i l)).
    + split.
      * intros (j & _ & H). exact H.
      * intros H. exists 0. split; [apply in_range_iff; lia | exact H].
    + intros j s' _. apply scatter_pass_failed.
Qed.

(** Along the passes over the trailing dimensions the running index stays
    below the running offset. *)
Lemma index_steps_below_offset i ls :
  (forall l, In l ls -> 0 < znth shape l 0) ->
  forall index offset index' offset',
    value (for_eachR ls (step i) (index, offset)) = Done (index', offset') ->
    index < offset -> 0 < offset ->
    index' < offset' /\ 0 < offset'.
Proof.
  induction ls as [| l ls IH]; intros Hshape index offset index' offset' Hrun Hlt Hpos.
  - cbn [for_eachR] in Hrun. injection Hrun as <- <-. split; assumption.
  - cbn [for_eachR] in Hrun. rewrite value_bindR, index_step_value in Hrun.
    destruct (Z.ltb_spec (index_value i l) (znth shape l 0)) as [Hv |]; [| discriminate].
    assert (Hs : 0 < znth shape l 0) by (apply Hshape; left; reflexivity).
    apply (IH (fun l' Hl' => Hshape l' (or_intror Hl')) _ _ _ _ Hrun); nia.
Qed.

(** A negative leading index value puts the computed offset below 0. *)
Lemma out_index_negative i j index :
  0 < M -> 0 <= j < fdd ->
  (forall l, 0 < l < M -> 0 < znth shape l 0) ->
  index_value i 0 < 0 ->
  value (out_index i j) = Done index ->
  index < 0.
Proof.
  intros HM Hj Hshape Hneg Hrun. unfold Scatter.out_index in Hrun.
  rewrite value_bindR in Hrun.
  rewrite (range_succ M HM) in Hrun. cbn [rev] in Hrun.
  rewrite for_eachR_app in Hrun.
  destruct (value (for_eachR (rev (map Z.succ (range (M - 1)))) (step i) (j, fdd)))
    as [[index1 offset1] | msg] eqn:E; [| discriminate].
  assert (Hinv : index1 < offset1 /\ 0 < offset1).
  { apply (index_steps_below_offset i _) with (index := j) (offset := fdd) in E;
      try lia; try exact E.
    intros l Hl. apply in_rev in Hl.
    apply in_map_iff in Hl as (k & <- & Hk). apply in_range_iff in Hk.
    apply Hshape. lia. }
  cbn [for_eachR] in Hrun. rewrite value_bindR, index_step_value in Hrun.
  destruct (index_value i 0 <? znth shape 0 0); [| discriminate].
  cbn in Hrun. injection Hrun as <-. nia.
Qed.

End ScatterNdProperties.

(** C10, as amended: for tensors of positive extents (the data slice is not
    empty), the out-of-bounds assertion stops the run exactly when some
    index value is greater than or equal to its extent [shape[l]]; when all
    index values are below their extents the run finishes, whatever their
    sign, so a negative value never triggers it; and when the negative
    value is the leading one of its multi-index, the offset computed for
    the write is negative. *)
Theorem scatter_nd_assertion_exact
    (data_shape indices_shape shape : list Z) (data indices out : buffer) :
  Scatter.build_checks data_shape indices_shape shape = true ->
  0 < Scatter.fused_data_dimension data_shape indices_shape ->
  exists r,
    Scatter.scatter_nd data_shape indices_shape shape data indices out = Some r /\
    (failed r <->
       exists i l,
         0 <= i < Scatter.fused_indices_dimension indices_shape /\
         0 <= l < Scatter.mdim indices_shape /\
         znth shape l 0 <= index_value indices_shape indices i l) /\
    ((forall i l,
         0 <= i < Scatter.fused_indices_dimension indices_shape ->
         0 <= l < Scatter.mdim indices_shape ->
         index_value indices_shape indices i l < znth shape l 0) ->
     exists b, value r = Done b) /\
    (forall i j index,
        0 < Scatter.mdim indices_shape ->
        0 <= j < Scatter.fused_data_dimension data_shape indices_shape ->
        (forall l, 0 < l < Scatter.mdim indices_shape -> 0 < znth shape l 0) ->
        index_value indices_shape indices i 0 < 0 ->
        value (Scatter.out_index data_shape indices_shape shape indices i j) = Done index ->
        index < 0).
Proof.
  intros Hchecks Hfdd.
  exists (Scatter.gen_ir data_shape indices_shape shape data indices out).
  split; [unfold Scatter.scatter_nd; rewrite Hchecks; reflexivity |].
  pose proof (gen_ir_failed data_shape indices_shape shape data indices out Hfdd) as Hexact.
  split; [exact Hexact |]. split.
  - intros Hbelow.
    destruct (failed_or_done (Scatter.gen_ir data_shape indices_shape shape data indices out))
      as [Hf | Hd]; [| exact Hd].
    apply Hexact in Hf as (i & l & Hi & Hl & Hbad).
    specialize (Hbelow i l Hi Hl). unfold past_extent in Hbad. lia.
  - intros i j index HM Hj Hshape Hneg Hrun.
    exact (out_index_negative data_shape indices_shape shape indices i j index
             HM Hj Hshape Hneg Hrun).
Qed.

Lemma scatter_nd_assertion_exact_witness :
  Scatter.build_checks [2] [1; 2] [2] = true /\
  0 < Scatter.fused_data_dimension [2] [1; 2] /\
  exists r,
    Scatter.scatter_nd [2] [1; 2] [2] row_data row_indices row_out = Some r /\
    (failed r <->
       exists i l,
         0 <= i < Scatter.fused_indices_dimension [1; 2] /\
         0 <= l < Scatter.mdim [1; 2] /\
         znth [2] l 0 <= index_value [1; 2] row_indices i l) /\
    ((forall i l,
         0 <= i < Scatter.fused_indices_dimension [1; 2] ->
         0 <= l < Scatter.mdim [1; 2] ->
         index_value [1; 2] row_indices i l < znth [2] l 0) ->
     exists b, value r = Done b) /\
    (forall i j index,
        0 < Scatter.mdim [1; 2] ->
        0 <= j < Scatter.fused_data_dimension [2] [1; 2] ->
        (forall l, 0 < l < Scatter.mdim [1; 2] -> 0 < znth [2] l 0) ->
        index_value [1; 2] row_indices i 0 < 0 ->
        value (Scatter.out_index [2] [1; 2] [2] row_indices i j) = Done index ->
        index < 0).
Proof.
  assert (Hchecks : Scatter.build_checks [2] [1; 2] [2] = true) by reflexivity.
  assert (Hfdd : 0 < Scatter.fused_data_dimension [2] [1; 2]) by reflexivity.
  split; [exact Hchecks |]. split; [exact Hfdd |].
  exact (scatter_nd_assertion_exact [2] [1; 2] [2] row_data row_indices row_out
           Hchecks Hfdd).
Defined.

(** C10, as stated, fails in its last part: the index value [-1] passes the
    assertion, and the write lands at offset 1, inside the output. *)
Lemma scatter_nd_negative_index_lands_inside :
  index_value [2; 1] pair_indices 0 1 = -1 /\
  value (Scatter.out_index [1] [2; 1] [2; 2] pair_indices 0 0) = Done 1 /\
  exists r b,
    Scatter.scatter_nd [1] [2; 1] [2; 2] pair_data pair_indices pair_out = Some r /\
    value r = Done b /\
    violations r = [] /\
    words b 0 4 = [0; 5; 0; 0].
Proof.
  split; [reflexivity |]. split; [reflexivity |].
  exists (Scatter.gen_ir [1] [2; 1] [2; 2] pair_data pair_indices pair_out).
  eexists. split; [reflexivity |].
  split; [vm_compute; reflexivity |].
  split; reflexivity.
Qed.

(** C2, evaluated: two multi-indices that both address cell 1.  The output
    holds the last value written there, 7, and not the sum 12. *)
Theorem scatter_nd_overwrites_on_collision :
  exists r b,
    Scatter.scatter_nd [2] [1; 2] [2] collide_data collide_indices row_out = Some r /\
    value r = Done b /\
    violations r = [] /\
    words b 0 2 = [0; 7] /\
    words b 0 2 <> [0; 5 + 7].
Proof.
  exists (Scatter.gen_ir [2] [1; 2] [2] collide_data collide_indices row_out).
  eexists. split; [reflexivity |].
  split; [vm_compute; reflexivity |].
  split; [reflexivity |].
  split; [reflexivity | vm_compute; discriminate].
Qed.

(** * Further properties of the generator *)

(** ** What [threefry_generate] carries forward *)

Section GenerateSuccessor.

Variable junk : string -> Z -> Z.
Variable node_truth : bool.
Variables (gen out_gen out_array : buffer) (n : Z).

Local Abbreviation run_ir := (generate_gen_ir junk node_truth gen n out_gen out_array).

(** Path-extension branch of Step 1, word by word. *)
Lemma working_extend_path :
  headroom_test (cell gen 7) n = false ->
  value (cursor_exhausted node_truth gen) = false ->
  let w := value (working_state junk node_truth gen n) in
  fst w = ExtendPath /\
  (forall i, 0 <= i < 4 -> cell (snd w) i = cell gen i) /\
  cell (snd w) 4 = Z.lor (cell gen 4) (cell gen 8) /\
  cell (snd w) 5 = Z.lor (cell gen 5) (cell gen 9).
Proof.
  intros Hlt Hex. unfold working_state. run. rewrite Hlt. run. rewrite Hex. run.
  unfold _shift_right, U64.or.
  destruct (U64.eqb (cell gen 8) 1); [| destruct (U64.eqb (cell gen 8) 0)];
    run; cbn [fst snd]; run;
    (split; [reflexivity |]); (split; [| split; reflexivity]);
    intros i Hi;
    assert (i = 0 \/ i = 1 \/ i = 2 \/ i = 3) as [-> | [-> | [-> | ->]]] by lia;
    reflexivity.
Qed.

(** Rehash branch of Step 1: path and counter zeroed, cursor at the top. *)
Lemma working_rehash :
  headroom_test (cell gen 7) n = false ->
  value (cursor_exhausted node_truth gen) = true ->
  let w := value (working_state junk node_truth gen n) in
  fst w = Rehash /\
  cell (snd w) 4 = 0 /\ cell (snd w) 5 = 0 /\
  cell (snd w) 8 = 2 ^ 63 /\ cell (snd w) 9 = 0.
Proof.
  intros Hlt Hex. unfold working_state. run. rewrite Hlt. run. rewrite Hex. run.
  cbn [fst snd]. run. repeat split.
Qed.

End GenerateSuccessor.

(** X1: where the headroom test passes, for a counter in the upper half
    of the range with room for [n], the successor state has the key (words
    0 to 3), the path (words 4 and 5) and the high cursor word (word 8) of
    the input state. *)
Theorem generate_headroom_keeps_key_and_path
    (junk : string -> Z -> Z) (node_truth : bool)
    (gen out_gen out_array : buffer) (n : Z) :
  valid_len n ->
  2 ^ 63 <= cell gen 7 ->
  cell gen 7 < 2 ^ 64 - 1 - n ->
  exists r,
    threefry_generate junk node_truth gen n out_gen out_array = Some r /\
    (forall i, 0 <= i <= 5 -> cell (next_state (value r)) i = cell gen i) /\
    cell (next_state (value r)) 8 = cell gen 8.
Proof.
  intros Hn Hhalf Hroom.
  exists (generate_gen_ir junk node_truth gen n out_gen out_array).
  split; [apply threefry_generate_runs; exact Hn |].
  assert (Hlt : headroom_test (cell gen 7) n = true).
  { destruct Hn as (Hpos & _ & _). apply headroom_test_high; lia. }
  destruct (working_headroom junk node_truth gen n Hlt) as [_ Hcells].
  split.
  - intros i Hi. rewrite next_state_cells.
    assert (i = 0 \/ i = 1 \/ i = 2 \/ i = 3 \/ i = 4 \/ i = 5)
      as [-> | [-> | [-> | [-> | [-> | ->]]]]] by lia;
      cbn [Z.eqb Pos.eqb Z.leb Z.compare Pos.compare Pos.compare_cont andb];
      apply Hcells; lia.
  - rewrite next_state_cells. cbn [Z.eqb Pos.eqb]. apply Hcells. lia.
Qed.

Lemma generate_headroom_keeps_key_and_path_witness :
  valid_len 4 /\ 2 ^ 63 <= cell half_spent_state 7 /\
  cell half_spent_state 7 < 2 ^ 64 - 1 - 4 /\
  exists r,
    threefry_generate zero_junk false half_spent_state 4 fresh_out_gen fresh_out_array
      = Some r /\
    (forall i, 0 <= i <= 5 ->
       cell (next_state (value r)) i = cell half_spent_state i) /\
    cell (next_state (value r)) 8 = cell half_spent_state 8.
Proof.
  assert (Hhalf : 2 ^ 63 <= cell half_spent_state 7) by (vm_compute; discriminate).
  assert (Hroom : cell half_spent_state 7 < 2 ^ 64 - 1 - 4) by (vm_compute; reflexivity).
  split; [exact valid_len_4 |]. split; [exact Hhalf |]. split; [exact Hroom |].
  exact (generate_headroom_keeps_key_and_path zero_junk false half_spent_state
           fresh_out_gen fresh_out_array 4 valid_len_4 Hhalf Hroom).
Defined.

(** X2: without headroom and with the cursor test negative, the successor
    state keeps the key, has the cursor OR-ed into the path, and its high
    cursor word is the one [_shift_right] gives. *)
Theorem generate_extends_path
    (junk : string -> Z -> Z) (node_truth : bool)
    (gen out_gen out_array : buffer) (n : Z) :
  valid_len n ->
  2 ^ 64 - 1 - n <= cell gen 7 ->
  value (cursor_exhausted node_truth gen) = false ->
  exists r,
    threefry_generate junk node_truth gen n out_gen out_array = Some r /\
    taken (value r) = ExtendPath /\
    (forall i, 0 <= i < 4 -> cell (next_state (value r)) i = cell gen i) /\
    cell (next_state (value r)) 4 = Z.lor (cell gen 4) (cell gen 8) /\
    cell (next_state (value r)) 5 = Z.lor (cell gen 5) (cell gen 9) /\
    cell (next_state (value r)) 8 = fst (shift_right_one (cell gen 8) (cell gen 9)).
Proof.
  intros Hn Hfull Hex.
  exists (generate_gen_ir junk node_truth gen n out_gen out_array).
  split; [apply threefry_generate_runs; exact Hn |].
  assert (Hlt : headroom_test (cell gen 7) n = false).
  { apply headroom_test_full; assumption. }
  destruct (working_extend_path junk node_truth gen n Hlt Hex)
    as (Hbr & Hkey & H4 & H5).
  pose proof (working_cursor_no_headroom junk node_truth gen n Hlt) as Hcur.
  rewrite Hex in Hcur. apply pair_eq_parts in Hcur as [H8 _].
  destruct (taken_working junk node_truth gen n out_gen out_array) as [Htk _].
  split; [rewrite Htk; exact Hbr |].
  split.
  - intros i Hi. rewrite next_state_cells.
    assert (i = 0 \/ i = 1 \/ i = 2 \/ i = 3) as [-> | [-> | [-> | ->]]] by lia;
      cbn [Z.eqb Pos.eqb Z.leb Z.compare Pos.compare Pos.compare_cont andb];
      apply Hkey; lia.
  - rewrite !next_state_cells.
    cbn [Z.eqb Pos.eqb Z.leb Z.compare Pos.compare Pos.compare_cont andb].
    repeat split; assumption.
Qed.

Lemma generate_extends_path_witness :
  valid_len 4 /\ 2 ^ 64 - 1 - 4 <= cell spent_state 7 /\
  value (cursor_exhausted false spent_state) = false /\
  exists r,
    threefry_generate zero_junk false spent_state 4 fresh_out_gen fresh_out_array
      = Some r /\
    taken (value r) = ExtendPath /\
    (forall i, 0 <= i < 4 -> cell (next_state (value r)) i = cell spent_state i) /\
    cell (next_state (value r)) 4 = Z.lor (cell spent_state 4) (cell spent_state 8) /\
    cell (next_state (value r)) 5 = Z.lor (cell spent_state 5) (cell spent_state 9) /\
    cell (next_state (value r)) 8
      = fst (shift_right_one (cell spent_state 8) (cell spent_state 9)).
Proof.
  assert (Hfull : 2 ^ 64 - 1 - 4 <= cell spent_state 7) by (vm_compute; discriminate).
  assert (Hex : value (cursor_exhausted false spent_state) = false) by reflexivity.
  split; [exact valid_len_4 |]. split; [exact Hfull |]. split; [exact Hex |].
  exact (generate_extends_path zero_junk false spent_state
           fresh_out_gen fresh_out_array 4 valid_len_4 Hfull Hex).
Defined.

(** X3: without headroom and with the cursor test positive, the successor
    state has an all-zero path and the cursor's high word set to the top
    bit, whatever the input path was. *)
Theorem generate_rehash_resets_path
    (junk : string -> Z -> Z) (node_truth : bool)
    (gen out_gen out_array : buffer) (n : Z) :
  valid_len n ->
  2 ^ 64 - 1 - n <= cell gen 7 ->
  value (cursor_exhausted node_truth gen) = true ->
  exists r,
    threefry_generate junk node_truth gen n out_gen out_array = Some r /\
    taken (value r) = Rehash /\
    cell (next_state (value r)) 4 = 0 /\
    cell (next_state (value r)) 5 = 0 /\
    cell (next_state (value r)) 8 = 2 ^ 63.
Proof.
  intros Hn Hfull Hex.
  exists (generate_gen_ir junk node_truth gen n out_gen out_array).
  split; [apply threefry_generate_runs; exact Hn |].
  assert (Hlt : headroom_test (cell gen 7) n = false).
  { apply headroom_test_full; assumption. }
  destruct (working_rehash junk node_truth gen n Hlt Hex)
    as (Hbr & H4 & H5 & H8 & _).
  destruct (taken_working junk node_truth gen n out_gen out_array) as [Htk _].
  split; [rewrite Htk; exact Hbr |].
  rewrite !next_state_cells.
  cbn [Z.eqb Pos.eqb Z.leb Z.compare Pos.compare Pos.compare_cont andb].
  repeat split; assumption.
Qed.

Lemma generate_rehash_resets_path_witness :
  valid_len 4 /\ 2 ^ 64 - 1 - 4 <= cell exhausted_state 7 /\
  value (cursor_exhausted false exhausted_state) = true /\
  exists r,
    threefry_generate zero_junk false exhausted_state 4 fresh_out_gen fresh_out_array
      = Some r /\
    taken (value r) = Rehash /\
    cell (next_state (value r)) 4 = 0 /\
    cell (next_state (value r)) 5 = 0 /\
    cell (next_state (value r)) 8 = 2 ^ 63.
Proof.
  assert (Hfull : 2 ^ 64 - 1 - 4 <= cell exhausted_state 7) by (vm_compute; discriminate).
  assert (Hex : value (cursor_exhausted false exhausted_state) = true) by reflexivity.
  split; [exact valid_len_4 |]. split; [exact Hfull |]. split; [exact Hex |].
  exact (generate_rehash_resets_path zero_junk false exhausted_state
           fresh_out_gen fresh_out_array 4 valid_len_4 Hfull Hex).
Defined.

(** ** What the two children of [threefry_split] share *)

(** X4: the two states [threefry_split] returns agree on the key, the
    counter and the cursor (words 0 to 3 and 6 to 9) in either branch: they
    can differ in the path words 4 and 5 only. *)
Theorem split_children_agree_outside_path
    (junk : string -> Z -> Z) (node_truth : bool)
    (gen out_left out_right : buffer) (i : Z) :
  0 <= i < 10 -> i <> 4 -> i <> 5 ->
  let r := split_children junk node_truth gen out_left out_right in
  cell (fst r) i = cell (snd r) i.
Proof.
  intros Hi H4 H5. unfold split_children, threefry_split. run.
  assert (i = 0 \/ i = 1 \/ i = 2 \/ i = 3 \/ i = 6 \/ i = 7 \/ i = 8 \/ i = 9)
    as Hcases by lia.
  destruct (value (cursor_exhausted node_truth gen)).
  - run. cbn [fst snd].
    destruct Hcases as [-> | [-> | [-> | [-> | [-> | [-> | [-> | ->]]]]]]];
      run; cbn [Z.eqb Pos.eqb]; reflexivity.
  - run. unfold _shift_right.
    destruct (U64.eqb (cell gen 8) 1); [| destruct (U64.eqb (cell gen 8) 0)];
      run; cbn [fst snd];
      destruct Hcases as [-> | [-> | [-> | [-> | [-> | [-> | [-> | ->]]]]]]];
      run; cbn [Z.eqb Pos.eqb]; reflexivity.
Qed.

Lemma split_children_agree_outside_path_witness :
  0 <= 8 < 10 /\
  cell (fst (split_children zero_junk false seed_state fresh_out_left fresh_out_right)) 8
  = cell (snd (split_children zero_junk false seed_state fresh_out_left fresh_out_right)) 8.
Proof.
  split; [lia |].
  apply (split_children_agree_outside_path zero_junk false seed_state
           fresh_out_left fresh_out_right 8); lia.
Defined.

(** X5: when the cursor test is negative, [threefry_split] hands the key and
    the counter of the input to both children and the path of the input to
    the left child. *)
Theorem split_extend_keeps_key_and_counter
    (junk : string -> Z -> Z) (node_truth : bool)
    (gen out_left out_right : buffer) :
  value (cursor_exhausted node_truth gen) = false ->
  let r := split_children junk node_truth gen out_left out_right in
  (forall i, 0 <= i < 8 -> cell (fst r) i = cell gen i) /\
  (forall i, 0 <= i < 8 -> i <> 4 -> i <> 5 -> cell (snd r) i = cell gen i).
Proof.
  intros Hex. unfold split_children, threefry_split. run. rewrite Hex. run.
  unfold _shift_right.
  destruct (U64.eqb (cell gen 8) 1); [| destruct (U64.eqb (cell gen 8) 0)];
    run; cbn [fst snd]; (split; intros i Hi; [| intros H4 H5]); run;
    (assert (i = 0 \/ i = 1 \/ i = 2 \/ i = 3 \/ i = 4 \/ i = 5 \/ i = 6 \/ i = 7)
       as Hcases by lia);
    repeat (destruct Hcases as [-> | Hcases]; [first [reflexivity | contradiction] |]);
    subst i; reflexivity.
Qed.

Lemma split_extend_keeps_key_and_counter_witness :
  value (cursor_exhausted false seed_state) = false /\
  (forall i, 0 <= i < 8 ->
     cell (fst (split_children zero_junk false seed_state fresh_out_left fresh_out_right)) i
     = cell seed_state i) /\
  (forall i, 0 <= i < 8 -> i <> 4 -> i <> 5 ->
     cell (snd (split_children zero_junk false seed_state fresh_out_left fresh_out_right)) i
     = cell seed_state i).
Proof.
  assert (Hex : value (cursor_exhausted false seed_state) = false) by reflexivity.
  split; [exact Hex |].
  exact (split_extend_keeps_key_and_counter zero_junk false seed_state
           fresh_out_left fresh_out_right Hex).
Defined.

(** ** [_shift_right] as a 128-bit shift *)

Lemma cursor_word_cases hi lo :
  U64.in_range hi -> U64.in_range lo -> popcount hi + popcount lo <= 1 ->
  (hi = 0 /\ lo = 0) \/
  (exists k, 0 <= k < 64 /\ hi = 2 ^ k /\ lo = 0) \/
  (exists k, 0 <= k < 64 /\ hi = 0 /\ lo = 2 ^ k).
Proof.
  intros Hhi Hlo Hpc.
  pose proof (popcount_nonneg hi) as Nhi. pose proof (popcount_nonneg lo) as Nlo.
  assert (Phi : popcount hi <= 1) by lia.
  assert (Plo : popcount lo <= 1) by lia.
  destruct (popcount_le_1 _ Hhi Phi) as [Ehi | (k & Hk & Ehi)];
  destruct (popcount_le_1 _ Hlo Plo) as [Elo | (k' & Hk' & Elo)].
  - left. split; assumption.
  - right. right. exists k'. repeat split; try assumption; lia.
  - right. left. exists k. repeat split; try assumption; lia.
  - rewrite Ehi, Elo, !popcount_pow2 in Hpc by assumption. lia.
Qed.

Lemma shift_right_one_halves hi lo :
  (hi = 0 /\ lo = 0) \/
  (exists k, 0 <= k < 64 /\ hi = 2 ^ k /\ lo = 0) \/
  (exists k, 0 <= k < 64 /\ hi = 0 /\ lo = 2 ^ k) ->
  join128 (fst (shift_right_one hi lo)) (snd (shift_right_one hi lo))
  = join128 hi lo / 2.
Proof.
  unfold shift_right_one, join128.
  intros [[-> ->] | [(k & Hk & -> & ->) | (k & Hk & -> & ->)]].
  - reflexivity.
  - destruct (Z.eqb_spec (2 ^ k) 1) as [E | E].
    + rewrite E. reflexivity.
    + assert (0 < 2 ^ k) by (apply Z.pow_pos_nonneg; lia).
      destruct (Z.eqb_spec (2 ^ k) 0); [lia |].
      cbn [fst snd]. rewrite Z.shiftr_div_pow2 by lia.
      assert (k <> 0) by (intros ->; apply E; reflexivity).
      replace k with (k - 1 + 1) at 1 2 by lia.
      rewrite (Z.pow_add_r 2 (k - 1) 1) by lia.
      change (2 ^ 1) with 2. rewrite Z.div_mul by lia.
      rewrite Z.add_0_r, Z.add_0_r.
      replace (2 ^ (k - 1) * 2 * 2 ^ 64) with (2 ^ (k - 1) * 2 ^ 64 * 2) by lia.
      rewrite Z.div_mul by lia. reflexivity.
  - cbn [Z.eqb fst snd]. rewrite Z.shiftr_div_pow2 by lia. reflexivity.
Qed.

(** X6: on a cursor that is one-hot or zero, [_shift_right] is the shift of
    the 128-bit value by one position: the value its two output cells hold
    is half the value of its two input words. *)
Theorem shift_right_halves_cursor (out : buffer) (a_off b_off hi lo : Z) :
  a_off <> b_off ->
  U64.in_range hi -> U64.in_range lo ->
  popcount hi + popcount lo <= 1 ->
  join128 (fst (shifted out a_off b_off hi lo)) (snd (shifted out a_off b_off hi lo))
  = join128 hi lo / 2.
Proof.
  intros Hoff Hhi Hlo Hpc. rewrite (shifted_eq out a_off b_off Hoff).
  apply shift_right_one_halves, cursor_word_cases; assumption.
Qed.

Lemma shift_right_halves_cursor_witness :
  U64.in_range 1 /\ U64.in_range 0 /\ popcount 1 + popcount 0 <= 1 /\
  join128 (fst (shifted fresh_out_left 8 9 1 0)) (snd (shifted fresh_out_left 8 9 1 0))
  = join128 1 0 / 2.
Proof.
  assert (H1 : U64.in_range 1) by (unfold U64.in_range, U64.modulus; lia).
  assert (H0 : U64.in_range 0) by (unfold U64.in_range, U64.modulus; lia).
  assert (Hpc : popcount 1 + popcount 0 <= 1) by (vm_compute; discriminate).
  split; [exact H1 |]. split; [exact H0 |]. split; [exact Hpc |].
  apply (shift_right_halves_cursor fresh_out_left 8 9 1 0); [lia | exact H1 | exact H0 | exact Hpc].
Defined.

(** Outside that condition it is not: the low bit of the high word is lost
    instead of moving into the low word. *)
Lemma shift_right_drops_a_second_bit :
  shift_right_one 3 0 = (1, 0) /\
  join128 3 0 / 2 = join128 1 (2 ^ 63).
Proof. split; reflexivity. Qed.

(** ** Splitting again and again *)

Lemma lor_fresh_pow2 p k : 0 <= k -> (2 ^ (k + 1) | p) -> Z.lor p (2 ^ k) = p + 2 ^ k.
Proof.
  intros Hk [q ->].
  assert (Hland : Z.land (q * 2 ^ (k + 1)) (2 ^ k) = 0).
  { apply Z.bits_inj'. intros n Hn.
    rewrite Z.land_spec, Z.bits_0, Z.pow2_bits_eqb by lia.
    destruct (Z.eqb_spec k n) as [<- | Hne].
    - rewrite Z.mul_pow2_bits_low by lia. reflexivity.
    - apply andb_false_r. }
  rewrite <- Z.lxor_lor, <- Z.add_nocarry_lxor by exact Hland. reflexivity.
Qed.

Lemma lor_in_range a b : U64.in_range a -> U64.in_range b -> U64.in_range (Z.lor a b).
Proof.
  unfold U64.in_range, U64.modulus. intros [Ha0 Ha] [Hb0 Hb].
  assert (H0 : 0 <= Z.lor a b) by (apply Z.lor_nonneg; split; assumption).
  split; [exact H0 |].
  destruct (Z.eq_dec (Z.lor a b) 0) as [-> | Hne]; [lia |].
  apply Z.log2_lt_pow2; [lia |].
  rewrite Z.log2_lor by assumption.
  assert (La : Z.log2 a < 64).
  { destruct (Z.eq_dec a 0) as [-> | ?]; [cbn; lia | apply Z.log2_lt_pow2; lia]. }
  assert (Lb : Z.log2 b < 64).
  { destruct (Z.eq_dec b 0) as [-> | ?]; [cbn; lia | apply Z.log2_lt_pow2; lia]. }
  lia.
Qed.

Lemma pow2_in_range k : 0 <= k < 64 -> U64.in_range (2 ^ k).
Proof.
  intros Hk. unfold U64.in_range, U64.modulus. split.
  - apply Z.pow_nonneg. lia.
  - apply Z.pow_lt_mono_r; lia.
Qed.

Lemma pow2_succ k : 0 <= k -> 2 ^ (k + 1) = 2 * 2 ^ k.
Proof. intros Hk. rewrite Z.pow_add_r by lia. change (2 ^ 1) with 2. lia. Qed.

Lemma shiftr_pow2 k : 1 <= k -> Z.shiftr (2 ^ k) 1 = 2 ^ (k - 1).
Proof.
  intros Hk. rewrite Z.shiftr_div_pow2 by lia. change (2 ^ 1) with 2.
  replace k with (k - 1 + 1) at 1 by lia. rewrite pow2_succ by lia.
  rewrite Z.mul_comm, Z.div_mul by lia. reflexivity.
Qed.

(** The step both children of the path-extension branch take, on words. *)
Lemma extend_keeps_path_clear p4 p5 c8 c9 :
  U64.in_range p4 -> U64.in_range p5 ->
  (c8 = 0 /\ c9 = 0) \/
  (exists k, 0 <= k < 64 /\ c8 = 2 ^ k /\ c9 = 0) \/
  (exists k, 0 <= k < 64 /\ c8 = 0 /\ c9 = 2 ^ k) ->
  join128 c8 c9 = 0 \/ (2 * join128 c8 c9 | join128 p4 p5) ->
  let c' := join128 (fst (shift_right_one c8 c9)) (snd (shift_right_one c8 c9)) in
  U64.in_range (fst (shift_right_one c8 c9)) /\
  U64.in_range (snd (shift_right_one c8 c9)) /\
  (c' = 0 \/ (2 * c' | join128 p4 p5)) /\
  (c' = 0 \/ (2 * c' | join128 (Z.lor p4 c8) (Z.lor p5 c9))).
Proof.
  intros Hp4 Hp5 Hcases Hclear.
  assert (R0 : U64.in_range 0) by (unfold U64.in_range, U64.modulus; lia).
  unfold join128 in *.
  destruct Hcases as [[-> ->] | [(k & Hk & -> & ->) | (k & Hk & -> & ->)]].
  - cbn. repeat split; try lia; left; reflexivity.
  - assert (Hpos : 0 < 2 ^ k) by (apply Z.pow_pos_nonneg; lia).
    destruct Hclear as [Hz | [q Hq]]; [lia |].
    assert (Hp5z : p5 = 0 /\ p4 = q * (2 * 2 ^ k)).
    { unfold U64.in_range, U64.modulus in Hp5.
      change (2 ^ 64) with 18446744073709551616 in *.
      remember (q * (2 * 2 ^ k)) as X.
      assert (p4 * 18446744073709551616 + p5 = X * 18446744073709551616) by (subst X; lia).
      lia. }
    destruct Hp5z as [-> Hp4q]. rewrite Z.lor_0_r.
    unfold shift_right_one.
    destruct (Z.eqb_spec (2 ^ k) 1) as [E | E].
    + cbn [fst snd]. rewrite E in *.
      assert (Hl : Z.lor p4 1 = p4 + 1).
      { apply (lor_fresh_pow2 p4 0); [lia |]. exists q. rewrite Hp4q. reflexivity. }
      rewrite Hl. split; [exact R0 |]. split; [apply (pow2_in_range 63); lia |].
      split; right.
      * exists p4. change (0 * 2 ^ 64 + 9223372036854775808) with (2 ^ 63).
        change (2 ^ 64) with (2 * 2 ^ 63). lia.
      * exists (p4 + 1). change (0 * 2 ^ 64 + 9223372036854775808) with (2 ^ 63).
        change (2 ^ 64) with (2 * 2 ^ 63). lia.
    + destruct (Z.eqb_spec (2 ^ k) 0); [lia |].
      assert (Hk1 : 1 <= k).
      { destruct (Z.eq_dec k 0) as [-> | ?]; [exfalso; apply E; reflexivity | lia]. }
      cbn [fst snd]. rewrite shiftr_pow2 by exact Hk1.
      assert (Hl : Z.lor p4 (2 ^ k) = p4 + 2 ^ k).
      { apply lor_fresh_pow2; [lia |]. exists q. rewrite pow2_succ by lia. exact Hp4q. }
      rewrite Hl.
      assert (E2 : 2 ^ k = 2 * 2 ^ (k - 1)).
      { replace k with (k - 1 + 1) at 1 by lia. apply pow2_succ. lia. }
      split; [apply pow2_in_range; lia |]. split; [exact R0 |].
      split; right.
      * exists (2 * q). rewrite Hp4q, E2. lia.
      * exists (2 * q + 1). rewrite Hp4q. rewrite E2 at 1 2. lia.
  - assert (Hpos : 0 < 2 ^ k) by (apply Z.pow_pos_nonneg; lia).
    destruct Hclear as [Hz | [q Hq]]; [lia |].
    rewrite Z.lor_0_r. unfold shift_right_one. cbn [Z.eqb fst snd].
    destruct (Z.eq_dec k 0) as [-> | Hk0].
    + cbn. repeat split; try lia; left; reflexivity.
    + rewrite shiftr_pow2 by lia.
      assert (E2 : 2 ^ k = 2 * 2 ^ (k - 1)).
      { replace k with (k - 1 + 1) at 1 by lia. apply pow2_succ. lia. }
      assert (H64 : exists m, 2 ^ 64 = m * (2 * 2 ^ k)).
      { exists (2 ^ (63 - k)). rewrite <- pow2_succ, <- Z.pow_add_r by lia.
        f_equal. lia. }
      destruct H64 as [m Hm].
      assert (Hdiv5 : (2 ^ (k + 1) | p5)).
      { exists (q - p4 * m). rewrite pow2_succ by lia. rewrite Hm in Hq. lia. }
      rewrite (lor_fresh_pow2 p5 k) by (lia || exact Hdiv5).
      split; [exact R0 |]. split; [apply pow2_in_range; lia |].
      split; right.
      * exists (2 * q). rewrite E2 in Hq. lia.
      * exists (2 * q + 1). rewrite E2 in Hq. rewrite E2 at 1. lia.
Qed.

Lemma land_clear_pow2 p k : 0 <= k -> (2 ^ (k + 1) | p) -> Z.land p (2 ^ k) = 0.
Proof.
  intros Hk [q ->]. apply Z.bits_inj'. intros n Hn.
  rewrite Z.land_spec, Z.bits_0, Z.pow2_bits_eqb by lia.
  destruct (Z.eqb_spec k n) as [<- | Hne].
  - rewrite Z.mul_pow2_bits_low by lia. reflexivity.
  - apply andb_false_r.
Qed.

(** A path that is clear from the cursor down is clear at the cursor. *)
Lemma clear_below_is_clear_at p4 p5 c8 c9 :
  U64.in_range p5 ->
  (c8 = 0 /\ c9 = 0) \/
  (exists k, 0 <= k < 64 /\ c8 = 2 ^ k /\ c9 = 0) \/
  (exists k, 0 <= k < 64 /\ c8 = 0 /\ c9 = 2 ^ k) ->
  join128 c8 c9 = 0 \/ (2 * join128 c8 c9 | join128 p4 p5) ->
  Z.land p4 c8 = 0 /\ Z.land p5 c9 = 0.
Proof.
  intros Hp5 Hcases Hclear. unfold join128 in *.
  destruct Hcases as [[-> ->] | [(k & Hk & -> & ->) | (k & Hk & -> & ->)]].
  - rewrite !Z.land_0_r. split; reflexivity.
  - assert (Hpos : 0 < 2 ^ k) by (apply Z.pow_pos_nonneg; lia).
    destruct Hclear as [Hz | [q Hq]]; [lia |].
    rewrite Z.land_0_r. split; [| reflexivity].
    apply land_clear_pow2; [lia |]. exists q. rewrite pow2_succ by lia.
    unfold U64.in_range, U64.modulus in Hp5.
    change (2 ^ 64) with 18446744073709551616 in *.
    remember (q * (2 * 2 ^ k)) as X.
    assert (p4 * 18446744073709551616 + p5 = X * 18446744073709551616) by (subst X; lia).
    lia.
  - assert (Hpos : 0 < 2 ^ k) by (apply Z.pow_pos_nonneg; lia).
    destruct Hclear as [Hz | [q Hq]]; [lia |].
    rewrite Z.land_0_r. split; [reflexivity |].
    assert (H64 : exists m, 2 ^ 64 = m * (2 * 2 ^ k)).
    { exists (2 ^ (63 - k)). rewrite <- pow2_succ, <- Z.pow_add_r by lia.
      f_equal. lia. }
    destruct H64 as [m Hm].
    apply land_clear_pow2; [lia |].
    exists (q - p4 * m). rewrite pow2_succ by lia. rewrite Hm in Hq. lia.
Qed.

Section SplitAgain.

Variable junk : string -> Z -> Z.
Variable node_truth : bool.
Variables (gen out_left out_right : buffer).

Local Abbreviation children :=
  (split_children junk node_truth gen out_left out_right).

Lemma split_rehash_low_path :
  value (cursor_exhausted node_truth gen) = true ->
  cell (fst children) 5 = 0 /\ cell (snd children) 5 = 0.
Proof.
  intros Hex. unfold split_children, threefry_split. run. rewrite Hex. run.
  cbn [fst snd]. run. split; reflexivity.
Qed.

Lemma splittable_cursor_cases :
  splittable gen ->
  (cell gen 8 = 0 /\ cell gen 9 = 0) \/
  (exists k, 0 <= k < 64 /\ cell gen 8 = 2 ^ k /\ cell gen 9 = 0) \/
  (exists k, 0 <= k < 64 /\ cell gen 8 = 0 /\ cell gen 9 = 2 ^ k).
Proof.
  intros (_ & _ & H8 & H9 & Hinv & _). apply cursor_word_cases; assumption.
Qed.

(** Both children of a splittable state are splittable. *)
Lemma split_keeps_splittable :
  splittable gen -> splittable (fst children) /\ splittable (snd children).
Proof.
  intros Hs. pose proof (splittable_cursor_cases Hs) as Hcases.
  destruct Hs as (H4 & H5 & H8 & H9 & Hinv & Hclear).
  unfold splittable, cursor_invariant, cursor_popcount,
    path_clear_below_cursor, path128, cursor128.
  destruct (value (cursor_exhausted node_truth gen)) eqn:Hex.
  - destruct (split_rehash junk node_truth gen out_left out_right Hex)
      as (L4 & R4 & L8 & L9 & R8 & R9).
    destruct (split_rehash_low_path Hex) as [L5 R5].
    rewrite L4, L5, L8, L9, R4, R5, R8, R9.
    assert (R0 : U64.in_range 0) by (unfold U64.in_range, U64.modulus; lia).
    split; (repeat split; try exact R0; try (apply pow2_in_range; lia);
            try (vm_compute; discriminate)); right.
    + exists 0. reflexivity.
    + exists 1. reflexivity.
  - destruct (split_extend junk node_truth gen out_left out_right Hex)
      as (L4 & L5 & R4 & R5 & HL & HR).
    apply pair_eq_parts in HL as [L8 L9]. apply pair_eq_parts in HR as [R8 R9].
    rewrite L4, L5, L8, L9, R4, R5, R8, R9.
    destruct (extend_keeps_path_clear _ _ _ _ H4 H5 Hcases Hclear)
      as (S8 & S9 & CL & CR).
    pose proof (shift_right_one_popcount _ _ Hcases) as Hpc.
    split; repeat split; try assumption; try (apply lor_in_range; assumption);
      try (apply S8); try (apply S9);
      unfold U64.in_range in H4, H5; lia.
Qed.

(** The children of a splittable state differ. *)
Lemma splittable_children_differ :
  splittable gen -> state_words (fst children) <> state_words (snd children).
Proof.
  intros Hs Heq. pose proof (splittable_cursor_cases Hs) as Hcases.
  destruct Hs as (H4 & H5 & H8 & H9 & Hinv & Hclear).
  destruct (clear_below_is_clear_at _ _ _ _ H5 Hcases Hclear) as [Hhi Hlo].
  assert (E4 : cell (fst children) 4 = cell (snd children) 4)
    by (apply state_words_cell; [exact Heq | lia]).
  assert (E5 : cell (fst children) 5 = cell (snd children) 5)
    by (apply state_words_cell; [exact Heq | lia]).
  destruct (value (cursor_exhausted node_truth gen)) eqn:Hex.
  - destruct (split_rehash junk node_truth gen out_left out_right Hex)
      as (L4 & R4 & _).
    rewrite L4, R4 in E4. discriminate.
  - destruct (split_extend junk node_truth gen out_left out_right Hex)
      as (L4 & L5 & R4 & R5 & _).
    rewrite L4, R4 in E4. rewrite L5, R5 in E5.
    rewrite cursor_exhausted_value in Hex.
    destruct node_truth.
    + apply Z.eqb_neq in Hex. symmetry in E5.
      exact (lor_fresh_bit _ _ Hlo Hex E5).
    + apply Z.eqb_neq in Hex. symmetry in E4.
      exact (lor_fresh_bit _ _ Hhi Hex E4).
Qed.

End SplitAgain.

(** X7: from a state whose path is clear from the cursor position down and
    whose cursor is one-hot or zero, every state reached by any sequence of
    left and right splits has the same two properties, and its own two
    children differ in at least one word. *)
Theorem descendants_split_apart
    (junk : string -> Z -> Z) (node_truth : bool)
    (gen : buffer) (choices : list bool) :
  splittable gen ->
  let s := descend junk node_truth gen choices in
  let r := split_children junk node_truth s fresh_out_left fresh_out_right in
  splittable s /\ state_words (fst r) <> state_words (snd r).
Proof.
  revert gen. induction choices as [| c rest IH]; intros gen Hs.
  - cbn [descend]. split; [exact Hs |].
    apply splittable_children_differ. exact Hs.
  - cbn [descend].
    destruct (split_keeps_splittable junk node_truth gen
                fresh_out_left fresh_out_right Hs) as [HL HR].
    destruct c; apply IH; assumption.
Qed.

Lemma seed_state_splittable : splittable seed_state.
Proof.
  unfold splittable, cursor_invariant, path_clear_below_cursor.
  repeat split; try (vm_compute; discriminate); try (vm_compute; reflexivity).
  right. exists 0. reflexivity.
Qed.

Lemma descendants_split_apart_witness :
  splittable seed_state /\
  splittable (descend zero_junk false seed_state [true; false; true]) /\
  state_words (fst (split_children zero_junk false
                      (descend zero_junk false seed_state [true; false; true])
                      fresh_out_left fresh_out_right))
  <> state_words (snd (split_children zero_junk false
                      (descend zero_junk false seed_state [true; false; true])
                      fresh_out_left fresh_out_right)).
Proof.
  split; [exact seed_state_splittable |].
  exact (descendants_split_apart zero_junk false seed_state [true; false; true]
           seed_state_splittable).
Defined.

(** * The block function, block by block *)

(** ** Loops *)

Lemma value_for_each_cons {S} (body : Z -> S -> Ir S) i l s :
  value (for_each (i :: l) body s) = value (for_each l body (value (body i s))).
Proof. cbn [for_each]. apply value_bind. Qed.

Lemma value_for_each_nil {S} (body : Z -> S -> Ir S) s :
  value (for_each [] body s) = s.
Proof. reflexivity. Qed.

(** A property every pass keeps is kept by the loop. *)
Lemma for_each_keeps {S} (P : S -> Prop) (body : Z -> S -> Ir S) l :
  (forall i s, In i l -> P s -> P (value (body i s))) ->
  forall s, P s -> P (value (for_each l body s)).
Proof.
  induction l as [| i l IH]; intros Hbody s Hs.
  - exact Hs.
  - rewrite value_for_each_cons. apply IH.
    + intros k s' Hk. apply Hbody. right. exact Hk.
    + apply Hbody; [left; reflexivity | exact Hs].
Qed.

(** Passes that each rewrite their own view of the state and leave the
    other views alone: after the loop every view of a pass has been
    rewritten once, by its own pass. *)
Lemma for_each_views {S V} (Inv : S -> Prop) (view : Z -> S -> V)
    (F : Z -> V -> V) (body : Z -> S -> Ir S) l :
  NoDup l ->
  (forall i s, In i l -> Inv s ->
     Inv (value (body i s)) /\
     view i (value (body i s)) = F i (view i s) /\
     forall k, k <> i -> view k (value (body i s)) = view k s) ->
  forall s, Inv s ->
    Inv (value (for_each l body s)) /\
    (forall i, In i l -> view i (value (for_each l body s)) = F i (view i s)) /\
    (forall k, ~ In k l -> view k (value (for_each l body s)) = view k s).
Proof.
  induction l as [| i l IH]; intros Hnd Hbody s Hs.
  - cbn [for_each]. split; [exact Hs |].
    split; [intros i [] | intros k _; reflexivity].
  - rewrite value_for_each_cons.
    inversion Hnd as [| ? ? Hnotin Hnd']; subst.
    destruct (Hbody i s (or_introl eq_refl) Hs) as (Hinv1 & Hview1 & Hother1).
    destruct (IH Hnd' (fun k s' Hk => Hbody k s' (or_intror Hk)) _ Hinv1)
      as (Hinv2 & Hin2 & Hout2).
    split; [exact Hinv2 |]. split.
    + intros k [<- | Hk].
      * rewrite (Hout2 i Hnotin). exact Hview1.
      * rewrite (Hin2 k Hk). f_equal. apply Hother1.
        intros ->. contradiction.
    + intros k Hk. rewrite Hout2 by (intros H; apply Hk; right; exact H).
      apply Hother1. intros ->. apply Hk. left. reflexivity.
Qed.

Lemma range_NoDup n : NoDup (range n).
Proof.
  unfold range. generalize (seq_NoDup (Z.to_nat n) 0).
  generalize (seq 0 (Z.to_nat n)). intros l Hl.
  induction Hl as [| a l Hnotin Hl IH]; cbn [map]; constructor.
  - intros Hin. apply in_map_iff in Hin as (x & Hx & Hin).
    apply Nat2Z.inj in Hx. subst x. contradiction.
  - exact IH.
Qed.

(** ** One round *)

Lemma range_2 : range (nwords / 2) = [0; 1].
Proof. reflexivity. Qed.

Lemma range_4 : range nwords = [0; 1; 2; 3].
Proof. reflexivity. Qed.

Ltac decide_index_tests :=
  repeat match goal with
         | |- context [?a =? ?b] =>
             first
               [ replace (a =? b) with true by (symmetry; apply Z.eqb_eq; lia)
               | replace (a =? b) with false by (symmetry; apply Z.eqb_neq; lia) ]
         end;
  cbv iota.

(** The two stores of one pair. *)
Lemma mix_stores out A B rot :
  A <> B ->
  let res :=
    value (let '(x, y) := mix (fun m => load m A) (fun m => load m B) rot in
           vx <- x out ;;
           out' <- store out A vx ;;
           vy <- y out' ;;
           store out' B vy) in
  cell res A = fst (Block.mix rot (cell out A) (cell out B)) /\
  cell res B = snd (Block.mix rot (cell out A) (cell out B)) /\
  forall c, c <> A -> c <> B -> cell res c = cell out c.
Proof.
  intros Hne. unfold mix, Block.mix. run. cbn [fst snd].
  split; [| split].
  - decide_index_tests. reflexivity.
  - decide_index_tests. reflexivity.
  - intros c HA HB. run. decide_index_tests. reflexivity.
Qed.

(** The loop over the pairs of one round. *)
Lemma pairs_loop out off l r :
  let out1 :=
    value (for_each (range (nwords / 2)) (fun j out =>
             let '(x, y) :=
               mix (fun m => load m (off + l * nwords + j * 2 + 0))
                   (fun m => load m (off + l * nwords + j * 2 + 1))
                   (rotation nwords r j) in
             vx <- x out ;;
             out' <- store out (off + l * nwords + j * 2 + 0) vx ;;
             vy <- y out' ;;
             store out' (off + l * nwords + j * 2 + 1) vy) out) in
  cell out1 (off + l * 4 + 0)
  = fst (Block.mix (rotation nwords r 0) (cell out (off + l * 4 + 0)) (cell out (off + l * 4 + 1))) /\
  cell out1 (off + l * 4 + 1)
  = snd (Block.mix (rotation nwords r 0) (cell out (off + l * 4 + 0)) (cell out (off + l * 4 + 1))) /\
  cell out1 (off + l * 4 + 2)
  = fst (Block.mix (rotation nwords r 1) (cell out (off + l * 4 + 2)) (cell out (off + l * 4 + 3))) /\
  cell out1 (off + l * 4 + 3)
  = snd (Block.mix (rotation nwords r 1) (cell out (off + l * 4 + 2)) (cell out (off + l * 4 + 3))) /\
  forall c, ~ in_window off l c -> cell out1 c = cell out c.
Proof.
  rewrite range_2, !value_for_each_cons, value_for_each_nil. cbv beta.
  destruct (mix_stores out (off + l * nwords + 0 * 2 + 0) (off + l * nwords + 0 * 2 + 1)
              (rotation nwords r 0) ltac:(lia)) as (A0 & B0 & O0).
  cbv zeta in A0, B0, O0.
  set (o1 := value (let '(x, y) := mix _ _ (rotation nwords r 0) in _)) in *.
  destruct (mix_stores o1 (off + l * nwords + 1 * 2 + 0) (off + l * nwords + 1 * 2 + 1)
              (rotation nwords r 1) ltac:(lia)) as (A1 & B1 & O1).
  cbv zeta in A1, B1, O1.
  set (o2 := value (let '(x, y) := mix _ _ (rotation nwords r 1) in _)) in *.
  unfold in_window, nwords in *. cbv zeta.
  replace (off + l * 4 + 0) with (off + l * 4 + 0 * 2 + 0) by lia.
  replace (off + l * 4 + 1) with (off + l * 4 + 0 * 2 + 1) by lia.
  replace (off + l * 4 + 2) with (off + l * 4 + 1 * 2 + 0) by lia.
  replace (off + l * 4 + 3) with (off + l * 4 + 1 * 2 + 1) by lia.
  rewrite A1, B1, (O1 (off + l * 4 + 0 * 2 + 0)), (O1 (off + l * 4 + 0 * 2 + 1)) by lia.
  rewrite A0, B0, (O0 (off + l * 4 + 1 * 2 + 0)), (O0 (off + l * 4 + 1 * 2 + 1)) by lia.
  repeat split.
  intros c Hc. rewrite O1, O0 by lia. reflexivity.
Qed.

(** The permuted copy into the other buffer. *)
Lemma perm_loop src off tmp toff l :
  let tmp1 :=
    value (for_each (range nwords) (fun j tmp =>
             v <- load src (off + l * nwords + permutation nwords j) ;;
             store tmp (toff + l * nwords + j) v) tmp) in
  window tmp1 toff l =
    [cell src (off + l * 4 + 0); cell src (off + l * 4 + 3);
     cell src (off + l * 4 + 2); cell src (off + l * 4 + 1)] /\
  forall c, ~ in_window toff l c -> cell tmp1 c = cell tmp c.
Proof.
  rewrite range_4. cbn [for_each].
  change (permutation nwords 0) with 0. change (permutation nwords 1) with 3.
  change (permutation nwords 2) with 2. change (permutation nwords 3) with 1.
  unfold window, in_window, nwords. cbv zeta. split.
  - run. decide_index_tests. reflexivity.
  - intros c Hc. run. decide_index_tests. reflexivity.
Qed.

(** One round: the mixed and permuted block lands in the other buffer,
    which becomes the current one; nothing else in it changes. *)
Lemma round_effect l i k s :
  let s' := value (round l i k s) in
  l_out_offset s' = l_tmp_offset s /\ l_tmp_offset s' = l_out_offset s /\
  window (l_out s') (l_tmp_offset s) l
  = Block.round ((i * 4 + k) mod 8) (window (l_out s) (l_out_offset s) l) /\
  (forall c, ~ in_window (l_tmp_offset s) l c -> cell (l_out s') c = cell (l_tmp s) c) /\
  (forall c, ~ in_window (l_out_offset s) l c -> cell (l_tmp s') c = cell (l_out s) c).
Proof.
  unfold round. rewrite !value_bind, value_ret.
  destruct (pairs_loop (l_out s) (l_out_offset s) l ((i * 4 + k) mod 8))
    as (E0 & E1 & E2 & E3 & O1).
  cbv zeta in E0, E1, E2, E3, O1.
  set (out1 := value (for_each (range (nwords / 2)) _ (l_out s))) in *.
  destruct (perm_loop out1 (l_out_offset s) (l_tmp s) (l_tmp_offset s) l) as [W2 O2].
  cbv zeta in W2, O2.
  set (tmp1 := value (for_each (range nwords) _ (l_tmp s))) in *.
  cbv zeta. cbn [swap l_out l_tmp l_out_offset l_tmp_offset].
  split; [reflexivity |]. split; [reflexivity |]. split; [| split].
  - rewrite W2, E0, E1, E2, E3. unfold window, Block.round.
    destruct (Block.mix (rotation nwords ((i * 4 + k) mod 8) 0) _ _).
    destruct (Block.mix (rotation nwords ((i * 4 + k) mod 8) 1) _ _).
    reflexivity.
  - exact O2.
  - exact O1.
Qed.

(** Two rounds bring the block back into the buffer it started in. *)
Lemma two_rounds_effect l i k s :
  let s' := value (round l i (k + 1) (value (round l i k s))) in
  l_out_offset s' = l_out_offset s /\ l_tmp_offset s' = l_tmp_offset s /\
  window (l_out s') (l_out_offset s) l
  = Block.round ((i * 4 + (k + 1)) mod 8)
      (Block.round ((i * 4 + k) mod 8) (window (l_out s) (l_out_offset s) l)) /\
  (forall c, ~ in_window (l_out_offset s) l c -> cell (l_out s') c = cell (l_out s) c).
Proof.
  destruct (round_effect l i k s) as (Oa & Ta & Wa & Fa & Ga). cbv zeta in *.
  set (s1 := value (round l i k s)) in *.
  destruct (round_effect l i (k + 1) s1) as (Ob & Tb & Wb & Fb & Gb). cbv zeta in *.
  set (s2 := value (round l i (k + 1) s1)) in *.
  rewrite Ta in Ob, Wb, Fb. rewrite Oa in Tb, Wb, Gb.
  split; [exact Ob |]. split; [exact Tb |]. split.
  - rewrite Wb, Wa. reflexivity.
  - intros c Hc. rewrite Fb, Ga by exact Hc. reflexivity.
Qed.

(** The key injection of a stage. *)
Lemma inject_loop full_key fkl out off l i :
  (forall idx, 0 <= idx < 5 -> cell full_key idx = znth fkl idx 0) ->
  let out1 :=
    value (for_each (range nwords) (fun j out =>
             v <- load out (off + l * nwords + j) ;;
             ks <- key_schedule full_key i j ;;
             store out (off + l * nwords + j) (U64.add v ks)) out) in
  window out1 off l = Block.inject fkl i (window out off l) /\
  forall c, ~ in_window off l c -> cell out1 c = cell out c.
Proof.
  intros Hfk. rewrite range_4. cbn [for_each]. unfold key_schedule.
  change (0 =? nwords - 1) with false. change (1 =? nwords - 1) with false.
  change (2 =? nwords - 1) with false. change (3 =? nwords - 1) with true.
  cbv iota. unfold window, in_window, nwords, Block.inject. cbv zeta.
  change (4 + 1) with 5.
  assert (B0 := Z.mod_pos_bound (i + 0) 5 ltac:(lia)).
  assert (B1 := Z.mod_pos_bound (i + 1) 5 ltac:(lia)).
  assert (B2 := Z.mod_pos_bound (i + 2) 5 ltac:(lia)).
  assert (B3 := Z.mod_pos_bound (i + 3) 5 ltac:(lia)).
  rewrite <- !Hfk by assumption. split.
  - run. decide_index_tests. reflexivity.
  - intros c Hc. run. decide_index_tests. reflexivity.
Qed.

(** One stage on block [l]: the block is replaced by [Block.stage] of
    itself, in place; the buffers keep their roles. *)
Lemma stage_effect full_key fkl l i s :
  (forall idx, 0 <= idx < 5 -> cell full_key idx = znth fkl idx 0) ->
  let s' := value (stage full_key l i s) in
  l_out_offset s' = l_out_offset s /\ l_tmp_offset s' = l_tmp_offset s /\
  window (l_out s') (l_out_offset s) l
  = Block.stage fkl i (window (l_out s) (l_out_offset s) l) /\
  (forall c, ~ in_window (l_out_offset s) l c -> cell (l_out s') c = cell (l_out s) c).
Proof.
  intros Hfk. unfold stage. rewrite value_bind.
  destruct (inject_loop full_key fkl (l_out s) (l_out_offset s) l i Hfk) as [W0 O0].
  cbv zeta in W0, O0.
  set (out1 := value (for_each (range nwords) _ (l_out s))) in *.
  change (range 4) with [0; 0 + 1; 2; 2 + 1].
  rewrite !value_for_each_cons, value_for_each_nil.
  set (s0 := Lanes out1 (l_out_offset s) (l_tmp s) (l_tmp_offset s)).
  destruct (two_rounds_effect l i 0 s0) as (Oa & Ta & Wa & Fa). cbv zeta in *.
  set (s2 := value (round l i (0 + 1) (value (round l i 0 s0)))) in *.
  destruct (two_rounds_effect l i 2 s2) as (Ob & Tb & Wb & Fb). cbv zeta in *.
  set (s4 := value (round l i (2 + 1) (value (round l i 2 s2)))) in *.
  cbn [s0 l_out l_out_offset l_tmp_offset] in Oa, Ta, Wa, Fa.
  rewrite Oa in Ob, Wb, Fb. rewrite Ta in Tb.
  split; [exact Ob |]. split; [exact Tb |]. split.
  - rewrite Wb, Wa, W0. reflexivity.
  - intros c Hc. rewrite Fb, Fa, O0 by exact Hc. reflexivity.
Qed.

(** A run of stages on block [l]. *)
Lemma stages_effect full_key fkl l stages :
  (forall idx, 0 <= idx < 5 -> cell full_key idx = znth fkl idx 0) ->
  forall s,
  let s' := value (for_each stages (stage full_key l) s) in
  l_out_offset s' = l_out_offset s /\ l_tmp_offset s' = l_tmp_offset s /\
  window (l_out s') (l_out_offset s) l
  = fold_left (fun x i => Block.stage fkl i x) stages
      (window (l_out s) (l_out_offset s) l) /\
  (forall c, ~ in_window (l_out_offset s) l c -> cell (l_out s') c = cell (l_out s) c).
Proof.
  intros Hfk. induction stages as [| i stages IH]; intros s.
  - cbv zeta. rewrite value_for_each_nil. repeat split.
  - cbv zeta. rewrite value_for_each_cons.
    destruct (stage_effect full_key fkl l i s Hfk) as (O1 & T1 & W1 & F1).
    cbv zeta in O1, T1, W1, F1.
    set (s1 := value (stage full_key l i s)) in *.
    destruct (IH s1) as (O2 & T2 & W2 & F2). cbv zeta in O2, T2, W2, F2.
    rewrite O1 in O2, W2, F2. rewrite T1 in T2.
    split; [exact O2 |]. split; [exact T2 |]. split.
    + cbn [fold_left]. rewrite W2, W1. reflexivity.
    + intros c Hc. rewrite F2, F1 by exact Hc. reflexivity.
Qed.

Lemma window_other off l k b b' :
  k <> l ->
  (forall c, ~ in_window off l c -> cell b' c = cell b c) ->
  window b' off k = window b off k.
Proof.
  intros Hne Hout. unfold window.
  rewrite !Hout by (unfold in_window; lia). reflexivity.
Qed.

(** The loop over the blocks: every block is taken through all stages,
    and only the cells of the blocks change. *)
Lemma blocks_loop full_key fkl out off tmp toff n :
  (forall idx, 0 <= idx < 5 -> cell full_key idx = znth fkl idx 0) ->
  let s' :=
    value (for_each (range n) (fun l s =>
             for_each (range (nrounds / 4)) (stage full_key l) s)
           (Lanes out off tmp toff)) in
  l_out_offset s' = off /\
  (forall l, 0 <= l < n ->
     window (l_out s') off l
     = fold_left (fun x i => Block.stage fkl i x) (range 5) (window out off l)) /\
  (forall c, ~ (off <= c < off + 4 * n) -> cell (l_out s') c = cell out c).
Proof.
  intros Hfk. cbv zeta.
  set (body := fun l s => for_each (range (nrounds / 4)) (stage full_key l) s).
  set (s0 := Lanes out off tmp toff).
  assert (Hpass : forall l s, l_out_offset s = off ->
            l_out_offset (value (body l s)) = off /\
            window (l_out (value (body l s))) off l
            = fold_left (fun x i => Block.stage fkl i x) (range 5) (window (l_out s) off l) /\
            forall c, ~ in_window off l c ->
                      cell (l_out (value (body l s))) c = cell (l_out s) c).
  { intros l s Hoff. unfold body.
    destruct (stages_effect full_key fkl l (range (nrounds / 4)) Hfk s)
      as (O1 & _ & W1 & F1). cbv zeta in O1, W1, F1.
    rewrite Hoff in O1, W1, F1. repeat split; assumption. }
  destruct (for_each_views (fun s => l_out_offset s = off)
              (fun l s => window (l_out s) off l)
              (fun _ x => fold_left (fun x i => Block.stage fkl i x) (range 5) x)
              body (range n) (range_NoDup n)) with (s := s0) as (Hoff & Hin & _).
  - intros l s _ Hs. destruct (Hpass l s Hs) as (O1 & W1 & F1).
    split; [exact O1 |]. split; [exact W1 |].
    intros k Hk. apply (window_other off l k); assumption.
  - reflexivity.
  - split; [exact Hoff |]. split.
    + intros l Hl. apply Hin. apply in_range_iff. exact Hl.
    + intros c Hc.
      apply (for_each_keeps
               (fun s => l_out_offset s = off /\ cell (l_out s) c = cell out c)
               body (range n)); [| split; reflexivity].
      intros l s Hl [Hs Hcell]. apply in_range_iff in Hl.
      destruct (Hpass l s Hs) as (O1 & _ & F1).
      split; [exact O1 |]. rewrite F1 by (unfold in_window; lia). exact Hcell.
Qed.

(** The loop that fills block [i] with the counter words plus [i]. *)
Lemma counter_loop counter_buf coff out off n :
  let out1 :=
    value (for_each (range n) (fun i out =>
             for_each (range nwords) (fun j out =>
               c <- load counter_buf (coff + j) ;;
               store out (off + i * nwords + j) (U64.add c i)) out) out) in
  (forall l, 0 <= l < n ->
     window out1 off l = map (fun c => U64.add c l) (words counter_buf coff 4)) /\
  (forall c, ~ (off <= c < off + 4 * n) -> cell out1 c = cell out c).
Proof.
  cbv zeta.
  set (body := fun i out =>
         for_each (range nwords) (fun j out =>
           c <- load counter_buf (coff + j) ;;
           store out (off + i * nwords + j) (U64.add c i)) out).
  assert (Hpass : forall l b,
            window (value (body l b)) off l
            = map (fun c => U64.add c l) (words counter_buf coff 4) /\
            forall c, ~ in_window off l c -> cell (value (body l b)) c = cell b c).
  { intros l b. unfold body. rewrite range_4. cbn [for_each].
    unfold window, in_window, nwords, words. cbv zeta. split.
    - run. decide_index_tests. reflexivity.
    - intros c Hc. run. decide_index_tests. reflexivity. }
  destruct (for_each_views (fun _ => True) (fun l b => window b off l)
              (fun l _ => map (fun c => U64.add c l) (words counter_buf coff 4))
              body (range n) (range_NoDup n)) with (s := out) as (_ & Hin & _).
  - intros l b _ _. destruct (Hpass l b) as [W1 F1].
    split; [exact I |]. split; [exact W1 |].
    intros k Hk. apply (window_other off l k); assumption.
  - exact I.
  - split.
    + intros l Hl. apply Hin. apply in_range_iff. exact Hl.
    + intros c Hc.
      apply (for_each_keeps (fun b => cell b c = cell out c) body (range n));
        [| reflexivity].
      intros l b Hl Hcell. apply in_range_iff in Hl.
      destruct (Hpass l b) as [_ F1].
      rewrite F1 by (unfold in_window; lia). exact Hcell.
Qed.

(** The extended key, as [_threefry] builds it. *)
Lemma full_key_cells junk key_buf key_offset :
  let fk0 := allocate junk "full_key" (nwords + 1) in
  let fk1 := value (for_each (range nwords) (fun i fk =>
                      v <- load key_buf (key_offset + i) ;; store fk i v) fk0) in
  let fk2 := value (store fk1 nwords 0x1BD11BDAA9FC1A22) in
  let fk3 := value (for_each (range nwords) (fun i fk =>
                      a <- load fk nwords ;;
                      v <- load key_buf (key_offset + i) ;;
                      store fk nwords (U64.xor a v)) fk2) in
  forall idx, 0 <= idx < 5 ->
    cell fk3 idx = znth (Block.full_key (words key_buf key_offset 4)) idx 0.
Proof.
  cbv zeta. rewrite range_4. cbn [for_each]. intros idx Hidx.
  assert (idx = 0 \/ idx = 1 \/ idx = 2 \/ idx = 3 \/ idx = 4)
    as [-> | [-> | [-> | [-> | ->]]]] by lia;
    run; reflexivity.
Qed.

(** X8: [_threefry] computes every block on its own.  Block [l] of the
    output is [Block.threefry] of the four key words and of the four
    counter words with [l] added to each of them, modulo 2^64. *)
Theorem threefry_block_values
    (junk : string -> Z -> Z) (key_buf : buffer) (key_offset : Z)
    (counter_buf : buffer) (counter_offset : Z)
    (out_buf : buffer) (out_offset out_shape l : Z) :
  0 <= l < out_shape ->
  window (value (_threefry junk key_buf key_offset counter_buf counter_offset
                   out_buf out_offset out_shape)) out_offset l
  = Block.threefry (words key_buf key_offset 4)
      (map (fun c => U64.add c l) (words counter_buf counter_offset 4)).
Proof.
  intros Hl. unfold _threefry. cbv zeta. rewrite !value_bind, value_ret.
  pose proof (full_key_cells junk key_buf key_offset) as Hfk. cbv zeta in Hfk.
  set (fk := value (for_each (range nwords) _ (value (store _ nwords _)))) in *.
  destruct (counter_loop counter_buf counter_offset out_buf out_offset out_shape)
    as [Wc _]. cbv zeta in Wc.
  set (out1 := value (for_each (range out_shape) _ out_buf)) in *.
  destruct (blocks_loop fk (Block.full_key (words key_buf key_offset 4))
              out1 out_offset (allocate junk "tmp" out_shape) 0 out_shape Hfk)
    as (_ & Wb & _). cbv zeta in Wb.
  rewrite (Wb l Hl), (Wc l Hl). unfold Block.threefry. reflexivity.
Qed.

Lemma threefry_block_values_witness :
  0 <= 1 < 2 /\
  window (value (_threefry zero_junk zero_key 0 zero_counter 0 (fresh_out 8) 0 2)) 0 1
  = Block.threefry (words zero_key 0 4)
      (map (fun c => U64.add c 1) (words zero_counter 0 4)).
Proof.
  split; [lia |].
  apply (threefry_block_values zero_junk zero_key 0 zero_counter 0 (fresh_out 8) 0 2 1).
  lia.
Defined.

(** X9: [_threefry] writes the [4 * out_shape] cells of its blocks and no
    other cell of the output buffer. *)
Theorem threefry_writes_its_blocks_only
    (junk : string -> Z -> Z) (key_buf : buffer) (key_offset : Z)
    (counter_buf : buffer) (counter_offset : Z)
    (out_buf : buffer) (out_offset out_shape c : Z) :
  ~ (out_offset <= c < out_offset + 4 * out_shape) ->
  cell (value (_threefry junk key_buf key_offset counter_buf counter_offset
                 out_buf out_offset out_shape)) c
  = cell out_buf c.
Proof.
  intros Hc. unfold _threefry. cbv zeta. rewrite !value_bind, value_ret.
  pose proof (full_key_cells junk key_buf key_offset) as Hfk. cbv zeta in Hfk.
  set (fk := value (for_each (range nwords) _ (value (store _ nwords _)))) in *.
  destruct (counter_loop counter_buf counter_offset out_buf out_offset out_shape)
    as [_ Fc]. cbv zeta in Fc.
  set (out1 := value (for_each (range out_shape) _ out_buf)) in *.
  destruct (blocks_loop fk (Block.full_key (words key_buf key_offset 4))
              out1 out_offset (allocate junk "tmp" out_shape) 0 out_shape Hfk)
    as (_ & _ & Fb). cbv zeta in Fb.
  rewrite (Fb c Hc), (Fc c Hc). reflexivity.
Qed.

Lemma threefry_writes_its_blocks_only_witness :
  ~ (0 <= 9 < 0 + 4 * 2) /\
  cell (value (_threefry zero_junk zero_key 0 zero_counter 0 stale_out_gen 0 2)) 9
  = cell stale_out_gen 9.
Proof.
  assert (H : ~ (0 <= 9 < 0 + 4 * 2)) by lia.
  split; [exact H |].
  exact (threefry_writes_its_blocks_only zero_junk zero_key 0 zero_counter 0
           stale_out_gen 0 2 9 H).
Defined.

(** The function of one block and the buffer code agree on the test
    input of C3. *)
Lemma block_agrees_on_zero :
  Block.threefry [0; 0; 0; 0] [0; 0; 0; 0] = block_mix [0; 0; 0; 0] [0; 0; 0; 0].
Proof. vm_compute. reflexivity. Qed.

(** * What the generator hashes *)

(** Both effects of [_threefry] on its output buffer. *)
Lemma threefry_effect junk key_buf key_offset counter_buf counter_offset
    out_buf out_offset out_shape :
  let out := value (_threefry junk key_buf key_offset counter_buf counter_offset
                      out_buf out_offset out_shape) in
  (forall l, 0 <= l < out_shape ->
     window out out_offset l
     = Block.threefry (words key_buf key_offset 4)
         (map (fun c => U64.add c l) (words counter_buf counter_offset 4))) /\
  (forall c, ~ (out_offset <= c < out_offset + 4 * out_shape) ->
     cell out c = cell out_buf c).
Proof.
  unfold _threefry. cbv zeta. rewrite !value_bind, value_ret.
  pose proof (full_key_cells junk key_buf key_offset) as Hfk. cbv zeta in Hfk.
  set (fk := value (for_each (range nwords) _ (value (store _ nwords _)))) in *.
  destruct (counter_loop counter_buf counter_offset out_buf out_offset out_shape)
    as [Wc Fc]. cbv zeta in Wc, Fc.
  set (out1 := value (for_each (range out_shape) _ out_buf)) in *.
  destruct (blocks_loop fk (Block.full_key (words key_buf key_offset 4))
              out1 out_offset (allocate junk "tmp" out_shape) 0 out_shape Hfk)
    as (_ & Wb & Fb). cbv zeta in Wb, Fb.
  split.
  - intros l Hl. rewrite (Wb l Hl), (Wc l Hl). unfold Block.threefry. reflexivity.
  - intros c Hc. rewrite (Fb c Hc), (Fc c Hc). reflexivity.
Qed.

Lemma words_4 b off :
  words b off 4 = [cell b (off + 0); cell b (off + 1); cell b (off + 2); cell b (off + 3)].
Proof. reflexivity. Qed.

Lemma window_0 b : window b 0 0 = words b 0 4.
Proof. reflexivity. Qed.

Section GenerateBlocks.

Variable junk : string -> Z -> Z.
Variable node_truth : bool.
Variables (gen out_gen out_array : buffer) (n : Z).

(** The random words are [_threefry] of the working state. *)
Lemma rand_threefry :
  let r := value (generate_gen_ir junk node_truth gen n out_gen out_array) in
  let tmp := snd (value (working_state junk node_truth gen n)) in
  rand r = value (_threefry junk tmp 0 tmp 4 out_array 0 (n / 4)).
Proof.
  unfold generate_gen_ir. rewrite value_bind.
  destruct (value (working_state junk node_truth gen n)) as [br tmp].
  run. reflexivity.
Qed.

Lemma generate_blocks :
  let r := value (generate_gen_ir junk node_truth gen n out_gen out_array) in
  let tmp := snd (value (working_state junk node_truth gen n)) in
  (forall l, 0 <= l < n / 4 ->
     window (rand r) 0 l
     = Block.threefry (words tmp 0 4)
         (map (fun c => U64.add c l) (words tmp 4 4))) /\
  (forall c, ~ (0 <= c < 4 * (n / 4)) -> cell (rand r) c = cell out_array c).
Proof.
  cbv zeta. rewrite rand_threefry.
  exact (threefry_effect junk _ 0 _ 4 out_array 0 (n / 4)).
Qed.

End GenerateBlocks.

Lemma quarter_len n : n mod 4 = 0 -> 4 * (n / 4) = n.
Proof. intros H. pose proof (Z.div_mod n 4 ltac:(lia)). lia. Qed.

(** X10: where the headroom test passes, for a counter in the upper half
    of the range with room for [n], block [l] of the random words is the
    block function of the key of the input state and of its path and
    counter words with [l] added to each of the four, for every [l] below
    [n / 4]; the cells of the output array from [n] on are left as they
    were. *)
Theorem generate_headroom_blocks
    (junk : string -> Z -> Z) (node_truth : bool)
    (gen out_gen out_array : buffer) (n : Z) :
  valid_len n ->
  2 ^ 63 <= cell gen 7 ->
  cell gen 7 < 2 ^ 64 - 1 - n ->
  exists r,
    threefry_generate junk node_truth gen n out_gen out_array = Some r /\
    (forall l, 0 <= l < n / 4 ->
       window (rand (value r)) 0 l
       = Block.threefry (words gen 0 4)
           (map (fun c => U64.add c l) (words gen 4 4))) /\
    (forall c, ~ (0 <= c < n) -> cell (rand (value r)) c = cell out_array c).
Proof.
  intros Hn Hhalf Hroom.
  exists (generate_gen_ir junk node_truth gen n out_gen out_array).
  split; [apply threefry_generate_runs; exact Hn |].
  assert (Hlt : headroom_test (cell gen 7) n = true).
  { destruct Hn as (Hpos & _ & _). apply headroom_test_high; lia. }
  destruct (working_headroom junk node_truth gen n Hlt) as [_ Hcells].
  destruct (generate_blocks junk node_truth gen out_gen out_array n) as [Hb Hf].
  cbv zeta in Hb, Hf, Hcells. split.
  - intros l Hl. rewrite (Hb l Hl), !words_4.
    rewrite !Hcells by lia. reflexivity.
  - intros c Hc. apply Hf. destruct Hn as (_ & Hmod & _).
    rewrite (quarter_len n Hmod). exact Hc.
Qed.

Lemma generate_headroom_blocks_witness :
  valid_len 4 /\ 2 ^ 63 <= cell half_spent_state 7 /\
  cell half_spent_state 7 < 2 ^ 64 - 1 - 4 /\
  exists r,
    threefry_generate zero_junk false half_spent_state 4 fresh_out_gen fresh_out_array
      = Some r /\
    (forall l, 0 <= l < 4 / 4 ->
       window (rand (value r)) 0 l
       = Block.threefry (words half_spent_state 0 4)
           (map (fun c => U64.add c l) (words half_spent_state 4 4))) /\
    (forall c, ~ (0 <= c < 4) -> cell (rand (value r)) c = cell fresh_out_array c).
Proof.
  assert (Hhalf : 2 ^ 63 <= cell half_spent_state 7) by (vm_compute; discriminate).
  assert (Hroom : cell half_spent_state 7 < 2 ^ 64 - 1 - 4) by (vm_compute; reflexivity).
  split; [exact valid_len_4 |]. split; [exact Hhalf |]. split; [exact Hroom |].
  exact (generate_headroom_blocks zero_junk false half_spent_state
           fresh_out_gen fresh_out_array 4 valid_len_4 Hhalf Hroom).
Defined.

Section RehashKey.

Variable junk : string -> Z -> Z.
Variable node_truth : bool.
Variables (gen : buffer) (n : Z).

(** The plaintext of the rehash in [threefry_generate]: the two words
    stored in [tmp_counter], then the two words found behind it. *)
Lemma rehash_plaintext :
  let tmp_counter :=
    value (store (value (store (allocate junk "tmp_counter" 2) 0 0xFFFFFFFFFFFFFFFF))
             1 0xFFFFFFFFFFFFFFFF) in
  map (fun c => U64.add c 0) (words tmp_counter 0 4)
  = [0xFFFFFFFFFFFFFFFF; 0xFFFFFFFFFFFFFFFF;
     U64.wrap (junk "tmp_counter" 2); U64.wrap (junk "tmp_counter" 3)].
Proof.
  cbv zeta. rewrite words_4. cbn [map]. run.
  cbn [Z.add Z.eqb Pos.eqb Pos.add Pos.succ allocate cell].
  unfold U64.add. rewrite !Z.add_0_r. reflexivity.
Qed.

(** Rehash branch of Step 1: the key and the zeroed path and counter. *)
Lemma working_rehash_key :
  headroom_test (cell gen 7) n = false ->
  value (cursor_exhausted node_truth gen) = true ->
  let w := value (working_state junk node_truth gen n) in
  words (snd w) 0 4
  = Block.threefry (words gen 0 4)
      [0xFFFFFFFFFFFFFFFF; 0xFFFFFFFFFFFFFFFF;
       U64.wrap (junk "tmp_counter" 2); U64.wrap (junk "tmp_counter" 3)] /\
  words (snd w) 4 4 = [0; 0; 0; 0].
Proof.
  intros Hlt Hex. unfold working_state. run. rewrite Hlt. run. rewrite Hex. run.
  cbn [fst snd]. rewrite <- rehash_plaintext. cbv zeta.
  match goal with
  | |- context [_threefry junk gen 0 ?tc 0 ?tmp 0 1] =>
      destruct (threefry_effect junk gen 0 tc 0 tmp 0 1) as [Hw _];
      specialize (Hw 0 ltac:(lia)); cbv zeta in Hw; rewrite <- Hw
  end.
  rewrite !words_4. unfold window. run.
  cbn [Z.add Z.mul Z.eqb Pos.eqb Pos.add Pos.succ Pos.mul].
  split; reflexivity.
Qed.

End RehashKey.

(** X11: without headroom and with the cursor test positive, the key of the
    successor state is the block function of the old key and of a plaintext
    made of the two all-ones words stored in [tmp_counter] and of the two
    words found behind that two-word buffer; neither the path nor the
    counter of the input state enters it.  Block [l] of the random words is
    the block function of that new key and of four zero words with [l]
    added to each. *)
Theorem generate_rehash_key
    (junk : string -> Z -> Z) (node_truth : bool)
    (gen out_gen out_array : buffer) (n : Z) :
  valid_len n ->
  2 ^ 64 - 1 - n <= cell gen 7 ->
  value (cursor_exhausted node_truth gen) = true ->
  exists r,
    threefry_generate junk node_truth gen n out_gen out_array = Some r /\
    let new_key :=
      Block.threefry (words gen 0 4)
        [0xFFFFFFFFFFFFFFFF; 0xFFFFFFFFFFFFFFFF;
         U64.wrap (junk "tmp_counter" 2); U64.wrap (junk "tmp_counter" 3)] in
    words (next_state (value r)) 0 4 = new_key /\
    (forall l, 0 <= l < n / 4 ->
       window (rand (value r)) 0 l
       = Block.threefry new_key (map (fun c => U64.add c l) [0; 0; 0; 0])).
Proof.
  intros Hn Hfull Hex.
  exists (generate_gen_ir junk node_truth gen n out_gen out_array).
  split; [apply threefry_generate_runs; exact Hn |].
  assert (Hlt : headroom_test (cell gen 7) n = false).
  { apply headroom_test_full; assumption. }
  destruct (working_rehash_key junk node_truth gen n Hlt Hex) as [Hkey Hctr].
  destruct (generate_blocks junk node_truth gen out_gen out_array n) as [Hb _].
  cbv zeta in Hkey, Hctr, Hb. cbv zeta. split.
  - rewrite <- Hkey, !words_4, !next_state_cells.
    cbn [Z.add Z.eqb Pos.eqb Z.leb Z.compare Pos.compare Pos.compare_cont andb].
    reflexivity.
  - intros l Hl. rewrite (Hb l Hl), Hkey, Hctr. reflexivity.
Qed.

Lemma generate_rehash_key_witness :
  valid_len 4 /\ 2 ^ 64 - 1 - 4 <= cell exhausted_state 7 /\
  value (cursor_exhausted false exhausted_state) = true /\
  exists r,
    threefry_generate zero_junk false exhausted_state 4 fresh_out_gen fresh_out_array
      = Some r /\
    let new_key :=
      Block.threefry (words exhausted_state 0 4)
        [0xFFFFFFFFFFFFFFFF; 0xFFFFFFFFFFFFFFFF;
         U64.wrap (zero_junk "tmp_counter" 2); U64.wrap (zero_junk "tmp_counter" 3)] in
    words (next_state (value r)) 0 4 = new_key /\
    (forall l, 0 <= l < 4 / 4 ->
       window (rand (value r)) 0 l
       = Block.threefry new_key (map (fun c => U64.add c l) [0; 0; 0; 0])).
Proof.
  assert (Hfull : 2 ^ 64 - 1 - 4 <= cell exhausted_state 7) by (vm_compute; discriminate).
  assert (Hex : value (cursor_exhausted false exhausted_state) = true) by reflexivity.
  split; [exact valid_len_4 |]. split; [exact Hfull |]. split; [exact Hex |].
  exact (generate_rehash_key zero_junk false exhausted_state
           fresh_out_gen fresh_out_array 4 valid_len_4 Hfull Hex).
Defined.

(** X12: without headroom and with the cursor test negative, the random
    words are hashed under the unchanged key, from the extended path and a
    zero counter: block [l] is the block function of the key and of the
    words [path | cursor] and two zeros, with [l] added to each. *)
Theorem generate_extend_blocks
    (junk : string -> Z -> Z) (node_truth : bool)
    (gen out_gen out_array : buffer) (n : Z) :
  valid_len n ->
  2 ^ 64 - 1 - n <= cell gen 7 ->
  value (cursor_exhausted node_truth gen) = false ->
  exists r,
    threefry_generate junk node_truth gen n out_gen out_array = Some r /\
    (forall l, 0 <= l < n / 4 ->
       window (rand (value r)) 0 l
       = Block.threefry (words gen 0 4)
           (map (fun c => U64.add c l)
              [Z.lor (cell gen 4) (cell gen 8); Z.lor (cell gen 5) (cell gen 9); 0; 0])).
Proof.
  intros Hn Hfull Hex.
  exists (generate_gen_ir junk node_truth gen n out_gen out_array).
  split; [apply threefry_generate_runs; exact Hn |].
  assert (Hlt : headroom_test (cell gen 7) n = false).
  { apply headroom_test_full; assumption. }
  destruct (working_extend_path junk node_truth gen n Hlt Hex)
    as (_ & Hkey & H4 & H5).
  destruct (working_no_headroom junk node_truth gen n Hlt) as (_ & H6 & H7).
  destruct (generate_blocks junk node_truth gen out_gen out_array n) as [Hb _].
  cbv zeta in Hkey, H4, H5, H6, H7, Hb.
  intros l Hl. rewrite (Hb l Hl), !words_4.
  cbn [Z.add Pos.add Pos.succ].
  rewrite !Hkey by lia. rewrite H4, H5, H6, H7. reflexivity.
Qed.

Lemma generate_extend_blocks_witness :
  valid_len 4 /\ 2 ^ 64 - 1 - 4 <= cell spent_state 7 /\
  value (cursor_exhausted false spent_state) = false /\
  exists r,
    threefry_generate zero_junk false spent_state 4 fresh_out_gen fresh_out_array
      = Some r /\
    (forall l, 0 <= l < 4 / 4 ->
       window (rand (value r)) 0 l
       = Block.threefry (words spent_state 0 4)
           (map (fun c => U64.add c l)
              [Z.lor (cell spent_state 4) (cell spent_state 8);
               Z.lor (cell spent_state 5) (cell spent_state 9); 0; 0])).
Proof.
  assert (Hfull : 2 ^ 64 - 1 - 4 <= cell spent_state 7) by (vm_compute; discriminate).
  assert (Hex : value (cursor_exhausted false spent_state) = false) by reflexivity.
  split; [exact valid_len_4 |]. split; [exact Hfull |]. split; [exact Hex |].
  exact (generate_extend_blocks zero_junk false spent_state
           fresh_out_gen fresh_out_array 4 valid_len_4 Hfull Hex).
Defined.

(** X13: when the cursor test is positive, [threefry_split] gives both
    children one and the same new key: the block function of the old key
    and of the old path and counter words, as its docstring has it
    ([new_key = threefry(old_key, [old_path, old_counter])]).  The key does
    not depend on what the output buffers held. *)
Theorem split_rehash_key
    (junk : string -> Z -> Z) (node_truth : bool)
    (gen out_left out_right : buffer) :
  value (cursor_exhausted node_truth gen) = true ->
  let r := split_children junk node_truth gen out_left out_right in
  let new_key := Block.threefry (words gen 0 4) (map U64.wrap (words gen 4 4)) in
  words (fst r) 0 4 = new_key /\ words (snd r) 0 4 = new_key.
Proof.
  intros Hex. cbv zeta. unfold split_children, threefry_split. run.
  rewrite Hex. run. cbn [fst snd].
  destruct (threefry_effect junk gen 0 gen 4 out_left 0 1) as [Hw _].
  specialize (Hw 0 ltac:(lia)). cbv zeta in Hw.
  replace (map U64.wrap (words gen 4 4))
    with (map (fun c => U64.add c 0) (words gen 4 4))
    by (apply map_ext; intros c; unfold U64.add; rewrite Z.add_0_r; reflexivity).
  rewrite <- Hw. rewrite !words_4. unfold window. run.
  cbn [Z.add Z.mul Z.eqb Pos.eqb Pos.add Pos.succ Pos.mul].
  split; reflexivity.
Qed.

Lemma split_rehash_key_witness :
  value (cursor_exhausted false exhausted_state) = true /\
  words (fst (split_children zero_junk false exhausted_state
                fresh_out_left fresh_out_right)) 0 4
  = Block.threefry (words exhausted_state 0 4)
      (map U64.wrap (words exhausted_state 4 4)) /\
  words (snd (split_children zero_junk false exhausted_state
                fresh_out_left fresh_out_right)) 0 4
  = Block.threefry (words exhausted_state 0 4)
      (map U64.wrap (words exhausted_state 4 4)).
Proof.
  assert (Hex : value (cursor_exhausted false exhausted_state) = true) by reflexivity.
  split; [exact Hex |].
  exact (split_rehash_key zero_junk false exhausted_state
           fresh_out_left fresh_out_right Hex).
Defined.

Lemma wrap_add_cancel a l l' :
  0 <= l < U64.modulus -> 0 <= l' < U64.modulus ->
  U64.add a l = U64.add a l' -> l = l'.
Proof.
  unfold U64.add, U64.wrap. intros Hl Hl' H.
  assert (Hm : (l - l') mod U64.modulus = 0).
  { replace (l - l') with ((a + l) - (a + l')) by lia.
    rewrite Zminus_mod, H, Z.sub_diag. reflexivity. }
  apply Z.mod_divide in Hm; [| unfold U64.modulus; lia].
  destruct Hm as [q Hq]. unfold U64.modulus in *. nia.
Qed.

(** X14: a draw on the headroom branch (a counter in the upper half of
    the range with room for [n]) hashes the path and counter words of the
    input state, and leaves a state whose own path and counter words give
    inputs the draw did not use: with [l'] added they differ from those of
    every block [l] of the draw, because the last counter word has moved on
    by [n]. *)
Theorem generate_successor_hashes_fresh_inputs
    (junk : string -> Z -> Z) (node_truth : bool)
    (gen out_gen out_array : buffer) (n : Z) :
  valid_len n ->
  2 ^ 63 <= cell gen 7 ->
  cell gen 7 < 2 ^ 64 - 1 - n ->
  exists r,
    threefry_generate junk node_truth gen n out_gen out_array = Some r /\
    forall l l', 0 <= l < n / 4 -> 0 <= l' < 2 ^ 64 ->
      map (fun c => U64.add c l) (words gen 4 4)
      <> map (fun c => U64.add c l') (words (next_state (value r)) 4 4).
Proof.
  intros Hn Hhalf Hroom.
  exists (generate_gen_ir junk node_truth gen n out_gen out_array).
  split; [apply threefry_generate_runs; exact Hn |].
  assert (Hlt : headroom_test (cell gen 7) n = true).
  { destruct Hn as (Hpos & _ & _). apply headroom_test_high; lia. }
  destruct (working_headroom junk node_truth gen n Hlt) as [_ Hcells].
  cbv zeta in Hcells.
  intros l l' Hl Hl'. rewrite !words_4, !next_state_cells.
  cbn [Z.add Pos.add Pos.succ Z.eqb Pos.eqb Z.leb Z.compare Pos.compare
       Pos.compare_cont andb map].
  rewrite !Hcells by lia. intros Heq.
  injection Heq as E4 _ _ E7.
  destruct Hn as (Hpos & Hmod & Hle).
  assert (Hq : n / 4 <= n) by (apply Z.div_le_upper_bound; lia).
  assert (l = l').
  { apply (wrap_add_cancel (cell gen 4) l l'); [unfold U64.modulus; lia | unfold U64.modulus; lia | exact E4]. }
  subst l'. clear E4.
  unfold U64.add, U64.wrap, U64.modulus in E7.
  rewrite (Z.mod_small n) in E7 by lia. rewrite Zplus_mod_idemp_l in E7.
  assert (Hm : n mod 2 ^ 64 = 0).
  { replace n with ((cell gen 7 + n + l) - (cell gen 7 + l)) at 1 by lia.
    rewrite Zminus_mod, <- E7, Z.sub_diag. reflexivity. }
  rewrite Z.mod_small in Hm by lia. lia.
Qed.

Lemma generate_successor_hashes_fresh_inputs_witness :
  valid_len 4 /\ 2 ^ 63 <= cell half_spent_state 7 /\
  cell half_spent_state 7 < 2 ^ 64 - 1 - 4 /\
  exists r,
    threefry_generate zero_junk false half_spent_state 4 fresh_out_gen fresh_out_array
      = Some r /\
    forall l l', 0 <= l < 4 / 4 -> 0 <= l' < 2 ^ 64 ->
      map (fun c => U64.add c l) (words half_spent_state 4 4)
      <> map (fun c => U64.add c l') (words (next_state (value r)) 4 4).
Proof.
  assert (Hhalf : 2 ^ 63 <= cell half_spent_state 7) by (vm_compute; discriminate).
  assert (Hroom : cell half_spent_state 7 < 2 ^ 64 - 1 - 4) by (vm_compute; reflexivity).
  split; [exact valid_len_4 |]. split; [exact Hhalf |]. split; [exact Hroom |].
  exact (generate_successor_hashes_fresh_inputs zero_junk false half_spent_state
           fresh_out_gen fresh_out_array 4 valid_len_4 Hhalf Hroom).
Defined.

(** ** The two children hash different inputs *)

Section ChildrenInputs.

Variable junk : string -> Z -> Z.
Variable node_truth : bool.
Variables (gen out_left out_right : buffer).

Local Abbreviation children :=
  (split_children junk node_truth gen out_left out_right).



End ChildrenInputs.




(** * Further properties of scatter_nd *)

(** ** The offset of a write *)

Lemma range_snoc (k : nat) :
  range (Z.of_nat (S k)) = range (Z.of_nat k) ++ [Z.of_nat k].
Proof.
  unfold range. rewrite !Nat2Z.id, seq_S, map_app. reflexivity.
Qed.

Lemma combine_snoc {A B} (l1 : list A) (l2 : list B) a b :
  List.length l1 = List.length l2 ->
  combine (l1 ++ [a]) (l2 ++ [b]) = combine l1 l2 ++ [(a, b)].
Proof.
  revert l2. induction l1 as [| x l1 IH]; intros [| y l2] H; try discriminate.
  - reflexivity.
  - cbn [app combine]. f_equal. apply IH. injection H as H. exact H.
Qed.

Lemma row_major_snoc dims idx d v :
  List.length dims = List.length idx ->
  row_major (dims ++ [d]) (idx ++ [v]) = row_major dims idx * d + v.
Proof.
  intros H. unfold row_major. rewrite (combine_snoc _ _ _ _ H), fold_left_app.
  reflexivity.
Qed.

Lemma product_snoc l d : product (l ++ [d]) = product l * d.
Proof. unfold product. rewrite fold_left_app. reflexivity. Qed.

Lemma product_cons d l : product (d :: l) = d * product l.
Proof.
  unfold product. cbn [fold_left]. rewrite Z.mul_1_l.
  assert (H : forall a, fold_left Z.mul l a = a * fold_left Z.mul l 1).
  { induction l as [| x l IH]; intros a; cbn [fold_left].
    - lia.
    - rewrite (IH (a * x)), (IH (1 * x)). lia. }
  apply H.
Qed.

Lemma product_app l1 l2 : product (l1 ++ l2) = product l1 * product l2.
Proof.
  induction l1 as [| d l1 IH]; cbn [app].
  - unfold product at 2. cbn [fold_left]. lia.
  - rewrite !product_cons, IH. lia.
Qed.

(** The first [m] extents of a shape, read one by one. *)
Lemma firstn_znth (l : list Z) (m : Z) :
  m <= Z.of_nat (List.length l) ->
  map (fun k => znth l k 0) (range m) = firstn (Z.to_nat m) l.
Proof.
  intros Hm. unfold range, znth. rewrite map_map.
  assert (Hlen : (Z.to_nat m <= List.length l)%nat) by lia.
  clear Hm. generalize dependent (Z.to_nat m). clear m.
  induction l as [| x l IH]; intros m Hlen.
  - cbn [List.length] in Hlen. replace m with 0%nat by lia. reflexivity.
  - destruct m as [| m]; [reflexivity |].
    cbn [seq map firstn]. rewrite Nat2Z.id. cbn [nth]. f_equal.
    rewrite <- seq_shift, map_map. rewrite <- (IH m) by (cbn [List.length] in Hlen; lia).
    apply map_ext. intros k. rewrite !Nat2Z.id. reflexivity.
Qed.

Lemma build_checks_mdim data_shape indices_shape shape :
  Scatter.build_checks data_shape indices_shape shape = true ->
  Scatter.mdim indices_shape <= Z.of_nat (List.length shape).
Proof.
  unfold Scatter.build_checks, Scatter.mdim, Scatter.shape_at, znth.
  cbn [Z.ltb Z.compare Z.to_nat].
  destruct indices_shape as [| m rest]; cbn [nth_error nth]; [discriminate |].
  intros H. apply andb_prop in H as [H _]. apply andb_prop in H as [H _].
  apply Z.leb_le. exact H.
Qed.

Section ScatterNdWrites.

Variables (data_shape indices_shape shape : list Z).
Variables (data indices : buffer).

Local Abbreviation M := (Scatter.mdim indices_shape).
Local Abbreviation fid := (Scatter.fused_indices_dimension indices_shape).
Local Abbreviation fdd := (Scatter.fused_data_dimension data_shape indices_shape).
Local Abbreviation step := (Scatter.index_step indices_shape shape indices).
Local Abbreviation out_index := (Scatter.out_index data_shape indices_shape shape indices).
Local Abbreviation gen_ir := (Scatter.gen_ir data_shape indices_shape shape data indices).
Local Abbreviation index_value := (index_value indices_shape indices).

(** The passes over the leading dimensions, last one first, add the
    row-major offset of the multi-index, scaled by the running offset. *)
Lemma index_steps_value i (k : nat) :
  (forall l, 0 <= l < Z.of_nat k -> index_value i l < znth shape l 0) ->
  forall index offset,
    value (for_eachR (rev (range (Z.of_nat k))) (step i) (index, offset))
    = Done (index + offset * row_major (map (fun l => znth shape l 0) (range (Z.of_nat k)))
                               (map (index_value i) (range (Z.of_nat k))),
            offset * product (map (fun l => znth shape l 0) (range (Z.of_nat k)))).
Proof.
  induction k as [| k IH]; intros Hlt index offset.
  - cbn. f_equal. f_equal; lia.
  - rewrite range_snoc, rev_app_distr. cbn [rev app for_eachR].
    rewrite value_bindR, index_step_value.
    destruct (Z.ltb_spec (index_value i (Z.of_nat k)) (znth shape (Z.of_nat k) 0))
      as [_ | Hge]; [| specialize (Hlt (Z.of_nat k)); lia].
    rewrite IH by (intros l Hl; apply Hlt; lia).
    rewrite !map_app. cbn [map].
    rewrite row_major_snoc by (rewrite !length_map; reflexivity).
    rewrite product_snoc. f_equal. f_equal; ring.
Qed.

Lemma out_index_value i j :
  M <= Z.of_nat (List.length shape) ->
  (forall l, 0 <= l < M -> index_value i l < znth shape l 0) ->
  value (out_index i j)
  = Done (row_major (firstn (Z.to_nat M) shape) (multi_index indices_shape indices i) * fdd + j).
Proof.
  intros HM Hlt. unfold Scatter.out_index. rewrite value_bindR.
  assert (HR : range M = range (Z.of_nat (Z.to_nat M))).
  { unfold range. rewrite Nat2Z.id. reflexivity. }
  rewrite HR, index_steps_value.
  - rewrite <- HR, (firstn_znth shape M HM). unfold retR. rewrite value_ret.
    unfold multi_index. f_equal. ring.
  - intros l Hl. apply Hlt. lia.
Qed.

(** Indices within their extents give an offset within the leading part
    of the output. *)
Lemma row_major_bounds (dims idx : list Z) :
  List.length dims = List.length idx ->
  (forall k, (k < List.length dims)%nat -> 0 <= nth k idx 0 < nth k dims 0) ->
  0 <= row_major dims idx < product dims \/ (dims = [] /\ row_major dims idx = 0).
Proof.
  revert idx. induction dims as [| d dims IH] using rev_ind; intros idx Hlen Hin.
  - right. destruct idx; [| discriminate]. split; reflexivity.
  - left. destruct idx as [| v idx _] using rev_ind.
    { rewrite length_app in Hlen. cbn in Hlen. lia. }
    rewrite !length_app in Hlen. cbn [List.length] in Hlen.
    assert (Hlen' : List.length dims = List.length idx) by lia.
    rewrite row_major_snoc by exact Hlen'. rewrite product_snoc.
    assert (Hlast : 0 <= v < d).
    { specialize (Hin (List.length dims)). rewrite length_app in Hin.
      cbn [List.length] in Hin. rewrite nth_middle in Hin.
      rewrite Hlen', nth_middle in Hin. apply Hin. lia. }
    assert (Hrest : forall k, (k < List.length dims)%nat -> 0 <= nth k idx 0 < nth k dims 0).
    { intros k Hk. specialize (Hin k). rewrite length_app in Hin.
      rewrite !app_nth1 in Hin by lia. apply Hin. cbn [List.length]. lia. }
    destruct (IH idx Hlen' Hrest) as [Hb | [-> Hz]].
    + nia.
    + rewrite Hz. unfold product. cbn [fold_left]. lia.
Qed.

End ScatterNdWrites.

Lemma nth_map_range {A} (f : Z -> A) (m : Z) (k : nat) (d : A) :
  (k < Z.to_nat m)%nat -> nth k (map f (range m)) d = f (Z.of_nat k).
Proof.
  intros Hk. unfold range. rewrite map_map.
  rewrite (nth_indep _ d (f (Z.of_nat 0))) by (rewrite length_map, length_seq; exact Hk).
  rewrite (map_nth (fun x => f (Z.of_nat x))), seq_nth by exact Hk.
  reflexivity.
Qed.

(** Index values within their extents give a row-major offset within the
    product of the extents. *)
Lemma multi_index_offset_bounds
    (data_shape indices_shape shape : list Z) (indices : buffer) (i j : Z) :
  Scatter.mdim indices_shape <= Z.of_nat (List.length shape) ->
  (forall l, 0 <= l < Scatter.mdim indices_shape ->
     0 <= index_value indices_shape indices i l < znth shape l 0) ->
  0 <= j < Scatter.fused_data_dimension data_shape indices_shape ->
  let dims := firstn (Z.to_nat (Scatter.mdim indices_shape)) shape in
  let fdd := Scatter.fused_data_dimension data_shape indices_shape in
  0 <= row_major dims (multi_index indices_shape indices i) * fdd + j < product dims * fdd.
Proof.
  intros HM Hin Hj. cbv zeta.
  rewrite <- (firstn_znth shape _ HM). unfold multi_index.
  destruct (row_major_bounds
              (map (fun k => znth shape k 0) (range (Scatter.mdim indices_shape)))
              (map (index_value indices_shape indices i)
                   (range (Scatter.mdim indices_shape))))
    as [Hb | [Hnil Hz]].
  - rewrite !length_map. reflexivity.
  - intros k Hk. rewrite length_map in Hk.
    assert (Hk' : (k < Z.to_nat (Scatter.mdim indices_shape))%nat).
    { unfold range in Hk. rewrite length_map, length_seq in Hk. exact Hk. }
    rewrite !nth_map_range by exact Hk'. apply Hin. lia.
  - nia.
  - rewrite Hz, Hnil. unfold product. cbn [fold_left]. lia.
Qed.

(** X15: when every index value of the multi-index at position [i] is below
    its extent, the offset computed for iteration [(i, j)] is the row-major
    offset of the multi-index in the leading [M] dimensions of the output,
    times the fused data dimension, plus [j]; when the index values are not
    negative either and [j] is within the fused data dimension, that
    offset is within the product of those extents. *)
Theorem scatter_nd_offset_is_row_major
    (data_shape indices_shape shape : list Z) (indices : buffer) (i j : Z) :
  Scatter.build_checks data_shape indices_shape shape = true ->
  (forall l, 0 <= l < Scatter.mdim indices_shape ->
     index_value indices_shape indices i l < znth shape l 0) ->
  let dims := firstn (Z.to_nat (Scatter.mdim indices_shape)) shape in
  let fdd := Scatter.fused_data_dimension data_shape indices_shape in
  let offset := row_major dims (multi_index indices_shape indices i) * fdd + j in
  value (Scatter.out_index data_shape indices_shape shape indices i j) = Done offset /\
  ((forall l, 0 <= l < Scatter.mdim indices_shape ->
      0 <= index_value indices_shape indices i l) ->
   0 <= j < fdd ->
   0 <= offset < product dims * fdd).
Proof.
  intros Hchecks Hup. cbv zeta.
  pose proof (build_checks_mdim _ _ _ Hchecks) as HM.
  split; [apply out_index_value; assumption |].
  intros Hlow Hj.
  apply (multi_index_offset_bounds data_shape indices_shape shape indices i j HM);
    [| exact Hj].
  intros l Hl. split; [apply Hlow | apply Hup]; exact Hl.
Qed.

Lemma scatter_nd_offset_is_row_major_witness :
  Scatter.build_checks [1] [2; 1] [2; 2] = true /\
  value (Scatter.out_index [1] [2; 1] [2; 2] pair_indices 0 0)
  = Done (row_major (firstn (Z.to_nat (Scatter.mdim [2; 1])) [2; 2])
            (multi_index [2; 1] pair_indices 0)
          * Scatter.fused_data_dimension [1] [2; 1] + 0).
Proof.
  assert (Hchecks : Scatter.build_checks [1] [2; 1] [2; 2] = true) by reflexivity.
  split; [exact Hchecks |].
  apply (scatter_nd_offset_is_row_major [1] [2; 1] [2; 2] pair_indices 0 0 Hchecks).
  intros l Hl. assert (l = 0 \/ l = 1) as [-> | ->] by (change (Scatter.mdim [2; 1]) with 2 in Hl; lia);
    vm_compute; reflexivity.
Defined.

(** ** The audit of a run *)

Lemma violations_bind {A B} (m : Ir A) (k : A -> Ir B) :
  violations (bind m k) = violations m ++ violations (k (value m)).
Proof.
  unfold bind, violations, value. destruct m as [a l1]. cbn [fst snd].
  destruct (k a) as [b l2]. reflexivity.
Qed.

Lemma violations_bindR {A B} (m : Run A) (k : A -> Run B) :
  violations (bindR m k)
  = violations m ++ match value m with
                    | Done a => violations (k a)
                    | AssertionFailed _ => []
                    end.
Proof.
  unfold bindR. rewrite violations_bind. destruct (value m); reflexivity.
Qed.

Lemma violations_lift {A} (m : Ir A) : violations (lift m) = violations m.
Proof. unfold lift. rewrite violations_bind. apply app_nil_r. Qed.

Lemma audit_inside b i : 0 <= i < extent b -> audit b i = [].
Proof.
  intros Hi. unfold audit, in_extent.
  replace (0 <=? i) with true by (symmetry; apply Z.leb_le; lia).
  replace (i <? extent b) with true by (symmetry; apply Z.ltb_lt; lia).
  reflexivity.
Qed.

Lemma violations_load b i : 0 <= i < extent b -> violations (load b i) = [].
Proof. apply audit_inside. Qed.

Lemma violations_store b i v : 0 <= i < extent b -> violations (store b i v) = [].
Proof. apply audit_inside. Qed.

Lemma extent_store b i v : extent (value (store b i v)) = extent b.
Proof. reflexivity. Qed.

(** A loop whose passes all finish and keep an invariant finishes and
    keeps it; if no pass leaves an extent, the loop does not. *)
Lemma for_eachR_finishes {S} (Inv : S -> Prop) (body : Z -> S -> Run S) l :
  (forall i s, In i l -> Inv s ->
     exists s', value (body i s) = Done s' /\ Inv s' /\ violations (body i s) = []) ->
  forall s, Inv s ->
    exists s', value (for_eachR l body s) = Done s' /\ Inv s' /\
               violations (for_eachR l body s) = [].
Proof.
  induction l as [| i l IH]; intros Hbody s Hs.
  - exists s. repeat split. exact Hs.
  - destruct (Hbody i s (or_introl eq_refl) Hs) as (s1 & E1 & I1 & V1).
    destruct (IH (fun k s' Hk => Hbody k s' (or_intror Hk)) s1 I1) as (s2 & E2 & I2 & V2).
    exists s2. cbn [for_eachR]. rewrite value_bindR, violations_bindR, E1, V1.
    repeat split; assumption.
Qed.

Lemma for_each_clean {S} (Inv : S -> Prop) (body : Z -> S -> Ir S) l :
  (forall i s, In i l -> Inv s ->
     Inv (value (body i s)) /\ violations (body i s) = []) ->
  forall s, Inv s ->
    Inv (value (for_each l body s)) /\ violations (for_each l body s) = [].
Proof.
  induction l as [| i l IH]; intros Hbody s Hs.
  - split; [exact Hs | reflexivity].
  - destruct (Hbody i s (or_introl eq_refl) Hs) as (I1 & V1).
    destruct (IH (fun k s' Hk => Hbody k s' (or_intror Hk)) _ I1) as (I2 & V2).
    cbn [for_each]. rewrite value_bind, violations_bind, V1.
    split; assumption.
Qed.

(** ** What the output holds *)

(** The zero fill. *)
Lemma zero_fill_cells n out c :
  cell (value (for_each (range n) (fun i out => store out i 0) out)) c
  = if (0 <=? c) && (c <? n) then 0 else cell out c.
Proof.
  assert (H : forall l b,
             cell (value (for_each l (fun i out => store out i 0) b)) c
             = if existsb (Z.eqb c) l then 0 else cell b c).
  { induction l as [| i l IH]; intros b.
    - reflexivity.
    - rewrite value_for_each_cons, IH, cell_store. cbn [existsb].
      destruct (c =? i); cbn [orb]; [destruct (existsb (Z.eqb c) l) |]; reflexivity. }
  rewrite H.
  destruct (existsb (Z.eqb c) (range n)) eqn:E.
  - apply existsb_exists in E as (x & Hx & Hcx). apply Z.eqb_eq in Hcx. subst x.
    apply in_range_iff in Hx.
    replace (0 <=? c) with true by (symmetry; apply Z.leb_le; lia).
    replace (c <? n) with true by (symmetry; apply Z.ltb_lt; lia).
    reflexivity.
  - destruct (Z.leb_spec 0 c), (Z.ltb_spec c n); cbn [andb]; try reflexivity.
    assert (Hin : In c (range n)) by (apply in_range_iff; lia).
    assert (Hex : existsb (Z.eqb c) (range n) = true).
    { apply existsb_exists. exists c. split; [exact Hin | apply Z.eqb_refl]. }
    congruence.
Qed.

Lemma last_hit_none {V} hit (val : Z -> V) l init :
  (forall x, In x l -> hit x = false) -> last_hit hit val l init = init.
Proof.
  unfold last_hit. revert init. induction l as [| x l IH]; intros init H.
  - reflexivity.
  - cbn [fold_left]. rewrite (H x (or_introl eq_refl)).
    apply IH. intros y Hy. apply H. right. exact Hy.
Qed.

Lemma last_hit_range {V} hit (val : Z -> V) (n : Z) a init :
  0 <= a < n -> hit a = true ->
  (forall x, a < x < n -> hit x = false) ->
  last_hit hit val (range n) init = val a.
Proof.
  intros Ha Hhit Hlater.
  assert (HR : range n = range (Z.of_nat (Z.to_nat n)))
    by (unfold range; rewrite Nat2Z.id; reflexivity).
  rewrite HR. assert (Hn : n = Z.of_nat (Z.to_nat n)) by lia.
  rewrite Hn in Ha, Hlater. clear HR Hn.
  induction (Z.to_nat n) as [| k IH]; [lia |].
  rewrite range_snoc. unfold last_hit. rewrite fold_left_app. cbn [fold_left].
  destruct (Z.eq_dec a (Z.of_nat k)) as [-> | Hne].
  - rewrite Hhit. reflexivity.
  - rewrite (Hlater (Z.of_nat k)) by lia.
    apply IH; [lia |]. intros x Hx. apply Hlater. lia.
Qed.

(** The same for rows of writes: the last row that hit the cell decides. *)
Lemma last_row_none {V} (row : Z -> V -> V) l init :
  (forall x acc, In x l -> row x acc = acc) -> fold_left (fun acc x => row x acc) l init = init.
Proof.
  revert init. induction l as [| x l IH]; intros init H.
  - reflexivity.
  - cbn [fold_left]. rewrite (H x init (or_introl eq_refl)).
    apply IH. intros y acc Hy. apply H. right. exact Hy.
Qed.

Lemma last_row_range {V} (row : Z -> V -> V) (n : Z) a w init :
  0 <= a < n -> (forall acc, row a acc = w) ->
  (forall x acc, a < x < n -> row x acc = acc) ->
  fold_left (fun acc x => row x acc) (range n) init = w.
Proof.
  intros Ha Hhit Hlater.
  assert (HR : range n = range (Z.of_nat (Z.to_nat n)))
    by (unfold range; rewrite Nat2Z.id; reflexivity).
  rewrite HR. assert (Hn : n = Z.of_nat (Z.to_nat n)) by lia.
  rewrite Hn in Ha, Hlater. clear HR Hn.
  induction (Z.to_nat n) as [| k IH]; [lia |].
  rewrite range_snoc, fold_left_app. cbn [fold_left].
  destruct (Z.eq_dec a (Z.of_nat k)) as [-> | Hne].
  - apply Hhit.
  - rewrite (Hlater (Z.of_nat k)) by lia.
    apply IH; [lia |]. intros x acc Hx. apply Hlater. lia.
Qed.

(** A loop of passes that each finish and rewrite every cell by a function
    of its content. *)
Lemma for_eachR_cells (body : Z -> buffer -> Run buffer) (F : Z -> Z -> Z -> Z) l :
  (forall i b, In i l ->
     exists b', value (body i b) = Done b' /\ forall c, cell b' c = F i c (cell b c)) ->
  forall b,
    exists b', value (for_eachR l body b) = Done b' /\
               forall c, cell b' c = fold_left (fun acc i => F i c acc) l (cell b c).
Proof.
  induction l as [| i l IH]; intros Hbody b.
  - exists b. split; reflexivity.
  - destruct (Hbody i b (or_introl eq_refl)) as (b1 & E1 & C1).
    destruct (IH (fun k b' Hk => Hbody k b' (or_intror Hk)) b1) as (b2 & E2 & C2).
    exists b2. cbn [for_eachR fold_left]. rewrite value_bindR, E1.
    split; [exact E2 |]. intros c. rewrite C2, C1. reflexivity.
Qed.

Section ScatterNdRun.

Variables (data_shape indices_shape shape : list Z).
Variables (data indices : buffer).

Local Abbreviation fid := (Scatter.fused_indices_dimension indices_shape).
Local Abbreviation fdd := (Scatter.fused_data_dimension data_shape indices_shape).
Local Abbreviation out_index := (Scatter.out_index data_shape indices_shape shape indices).
Local Abbreviation gen_ir := (Scatter.gen_ir data_shape indices_shape shape data indices).

(** The offsets of the writes, when every iteration computes one. *)
Variable off : Z -> Z -> Z.
Hypothesis out_index_off :
  forall i j, 0 <= i < fid -> 0 <= j < fdd -> value (out_index i j) = Done (off i j).

(** The output, cell by cell: the zero fill, then row after row of
    writes. *)
Lemma gen_ir_cells out :
  exists b, value (gen_ir out) = Done b /\
    forall c,
      cell b c
      = fold_left
          (fun acc i =>
             last_hit (fun j => c =? off i j) (fun j => cell data (i * fdd + j))
                      (range fdd) acc)
          (range fid)
          (if (0 <=? c) && (c <? Scatter.fused_shape shape) then 0 else cell out c).
Proof.
  unfold Scatter.gen_ir. rewrite value_bindR, value_lift.
  match goal with
  | |- exists b, value (for_eachR ?ls ?body ?st) = _ /\ _ =>
      destruct (for_eachR_cells body
                  (fun i c acc =>
                     last_hit (fun j => c =? off i j) (fun j => cell data (i * fdd + j))
                              (range fdd) acc) ls) with (b := st) as (b & E & C)
  end.
  - intros i b Hi. apply in_range_iff in Hi.
    match goal with
    | |- exists b', value (for_eachR ?ls ?body ?st) = _ /\ _ =>
        destruct (for_eachR_cells body
                    (fun j c acc => if c =? off i j then cell data (i * fdd + j) else acc)
                    ls) with (b := st) as (b' & E & C)
    end.
    + intros j b0 Hj. apply in_range_iff in Hj.
      exists (value (store b0 (off i j) (cell data (i * fdd + j)))).
      split.
      * rewrite value_bindR, (out_index_off i j Hi Hj).
        rewrite value_bindR, value_lift, value_lift, value_load. reflexivity.
      * intros c. apply cell_store.
    + exists b'. split; [exact E |]. intros c. rewrite C. reflexivity.
  - exists b. split; [exact E |]. intros c. rewrite C, zero_fill_cells. reflexivity.
Qed.

(** A cell no write hits holds the zero of the fill, or what it held
    before when it lies outside the filled range. *)
Lemma gen_ir_unwritten out b c :
  value (gen_ir out) = Done b ->
  (forall i j, 0 <= i < fid -> 0 <= j < fdd -> off i j <> c) ->
  cell b c = if (0 <=? c) && (c <? Scatter.fused_shape shape) then 0 else cell out c.
Proof.
  intros Hrun Hmiss. destruct (gen_ir_cells out) as (b' & E & C).
  rewrite Hrun in E. injection E as <-. rewrite C.
  apply (last_row_none
           (fun i acc => last_hit (fun j => c =? off i j)
                           (fun j => cell data (i * fdd + j)) (range fdd) acc)).
  intros i acc Hi. apply in_range_iff in Hi. apply last_hit_none.
  intros j Hj. apply in_range_iff in Hj. apply Z.eqb_neq.
  intros ->. exact (Hmiss i j Hi Hj eq_refl).
Qed.

(** A cell holds the data element of the last iteration that wrote it. *)
Lemma gen_ir_last_write out b i j :
  value (gen_ir out) = Done b ->
  0 <= i < fid -> 0 <= j < fdd ->
  (forall i' j', 0 <= i' < fid -> 0 <= j' < fdd ->
     i < i' \/ (i = i' /\ j < j') -> off i' j' <> off i j) ->
  cell b (off i j) = cell data (i * fdd + j).
Proof.
  intros Hrun Hi Hj Hlater. destruct (gen_ir_cells out) as (b' & E & C).
  rewrite Hrun in E. injection E as <-. rewrite C.
  apply (last_row_range
           (fun i' acc => last_hit (fun j' => off i j =? off i' j')
                            (fun j' => cell data (i' * fdd + j')) (range fdd) acc)
           fid i); [exact Hi | |].
  - intros acc.
    apply (last_hit_range (fun j' => off i j =? off i j')
             (fun j' => cell data (i * fdd + j')) fdd j); [exact Hj | apply Z.eqb_refl |].
    intros j' Hj'. apply Z.eqb_neq. intros Heq.
    apply (Hlater i j' Hi ltac:(lia) ltac:(right; lia)). symmetry. exact Heq.
  - intros i' acc Hi'. apply last_hit_none. intros j' Hj'.
    apply in_range_iff in Hj'. apply Z.eqb_neq. intros Heq.
    apply (Hlater i' j' ltac:(lia) Hj' ltac:(left; lia)). symmetry. exact Heq.
Qed.

End ScatterNdRun.

Section ScatterNdResult.

Variables (data_shape indices_shape shape : list Z).
Variables (data indices : buffer).

Local Abbreviation M := (Scatter.mdim indices_shape).
Local Abbreviation fid := (Scatter.fused_indices_dimension indices_shape).
Local Abbreviation fdd := (Scatter.fused_data_dimension data_shape indices_shape).
Local Abbreviation out_index := (Scatter.out_index data_shape indices_shape shape indices).
Local Abbreviation gen_ir := (Scatter.gen_ir data_shape indices_shape shape data indices).

Hypothesis checks : Scatter.build_checks data_shape indices_shape shape = true.
Hypothesis below_extents :
  forall i l, 0 <= i < fid -> 0 <= l < M ->
    index_value indices_shape indices i l < znth shape l 0.

Local Abbreviation off :=
  (fun i j => row_major (firstn (Z.to_nat M) shape) (multi_index indices_shape indices i)
              * fdd + j).

Lemma out_index_off i j :
  0 <= i < fid -> 0 <= j < fdd -> value (out_index i j) = Done (off i j).
Proof.
  intros Hi _. apply out_index_value.
  - exact (build_checks_mdim _ _ _ checks).
  - intros l Hl. apply below_extents; assumption.
Qed.

Lemma scatter_nd_finishes out :
  exists b, value (gen_ir out) = Done b.
Proof.
  destruct (gen_ir_cells data_shape indices_shape shape data indices off out_index_off out)
    as (b & E & _).
  exists b. exact E.
Qed.

Lemma scatter_nd_unwritten out b c :
  value (gen_ir out) = Done b ->
  (forall i j, 0 <= i < fid -> 0 <= j < fdd -> value (out_index i j) <> Done c) ->
  cell b c = if (0 <=? c) && (c <? Scatter.fused_shape shape) then 0 else cell out c.
Proof.
  intros Hrun Hmiss.
  apply (gen_ir_unwritten data_shape indices_shape shape data indices off out_index_off
           out b c Hrun).
  intros i j Hi Hj Heq. apply (Hmiss i j Hi Hj).
  rewrite (out_index_off i j Hi Hj), Heq. reflexivity.
Qed.

Lemma scatter_nd_last_write out b i j c :
  value (gen_ir out) = Done b ->
  0 <= i < fid -> 0 <= j < fdd ->
  value (out_index i j) = Done c ->
  (forall i' j', 0 <= i' < fid -> 0 <= j' < fdd ->
     i < i' \/ (i = i' /\ j < j') -> value (out_index i' j') <> Done c) ->
  cell b c = cell data (i * fdd + j).
Proof.
  intros Hrun Hi Hj Hc Hlater.
  rewrite (out_index_off i j Hi Hj) in Hc. injection Hc as <-.
  apply (gen_ir_last_write data_shape indices_shape shape data indices off out_index_off
           out b i j Hrun Hi Hj).
  intros i' j' Hi' Hj' Hord Heq. apply (Hlater i' j' Hi' Hj' Hord).
  rewrite (out_index_off i' j' Hi' Hj'), Heq. reflexivity.
Qed.

End ScatterNdResult.

(** X16: when the build checks pass and every index value is below its
    extent, the run finishes, and a cell that is the target of no
    iteration holds 0 if it lies within the first [prod(shape)] cells of
    the output, and what it held before the call otherwise. *)
Theorem scatter_nd_unwritten_cells
    (data_shape indices_shape shape : list Z) (data indices out : buffer) :
  Scatter.build_checks data_shape indices_shape shape = true ->
  (forall i l,
     0 <= i < Scatter.fused_indices_dimension indices_shape ->
     0 <= l < Scatter.mdim indices_shape ->
     index_value indices_shape indices i l < znth shape l 0) ->
  exists r b,
    Scatter.scatter_nd data_shape indices_shape shape data indices out = Some r /\
    value r = Done b /\
    forall c,
      (forall i j,
         0 <= i < Scatter.fused_indices_dimension indices_shape ->
         0 <= j < Scatter.fused_data_dimension data_shape indices_shape ->
         value (Scatter.out_index data_shape indices_shape shape indices i j) <> Done c) ->
      cell b c = if (0 <=? c) && (c <? Scatter.fused_shape shape) then 0 else cell out c.
Proof.
  intros Hchecks Hup.
  destruct (scatter_nd_finishes data_shape indices_shape shape data indices Hchecks Hup out)
    as (b & Hrun).
  exists (Scatter.gen_ir data_shape indices_shape shape data indices out), b.
  split; [unfold Scatter.scatter_nd; rewrite Hchecks; reflexivity |].
  split; [exact Hrun |].
  intros c Hmiss.
  exact (scatter_nd_unwritten data_shape indices_shape shape data indices Hchecks Hup
           out b c Hrun Hmiss).
Qed.

Lemma row_indices_below_extents :
  forall i l,
    0 <= i < Scatter.fused_indices_dimension [1; 2] ->
    0 <= l < Scatter.mdim [1; 2] ->
    index_value [1; 2] row_indices i l < znth [2] l 0.
Proof.
  intros i l Hi Hl.
  change (Scatter.fused_indices_dimension [1; 2]) with 2 in Hi.
  change (Scatter.mdim [1; 2]) with 1 in Hl.
  assert (l = 0) as -> by lia.
  assert (i = 0 \/ i = 1) as [-> | ->] by lia; vm_compute; reflexivity.
Qed.

Lemma scatter_nd_unwritten_cells_witness :
  Scatter.build_checks [2] [1; 2] [2] = true /\
  exists r b,
    Scatter.scatter_nd [2] [1; 2] [2] row_data row_indices row_out = Some r /\
    value r = Done b /\
    forall c,
      (forall i j,
         0 <= i < Scatter.fused_indices_dimension [1; 2] ->
         0 <= j < Scatter.fused_data_dimension [2] [1; 2] ->
         value (Scatter.out_index [2] [1; 2] [2] row_indices i j) <> Done c) ->
      cell b c = if (0 <=? c) && (c <? Scatter.fused_shape [2]) then 0 else cell row_out c.
Proof.
  assert (Hchecks : Scatter.build_checks [2] [1; 2] [2] = true) by reflexivity.
  split; [exact Hchecks |].
  exact (scatter_nd_unwritten_cells [2] [1; 2] [2] row_data row_indices row_out
           Hchecks row_indices_below_extents).
Defined.

(** X17: when the build checks pass and every index value is below its
    extent, a cell holds the data element of the last iteration that
    targets it, in the order of the loops ([i] outer, [j] inner): earlier
    writes to the same cell are overwritten.  In particular, when no two
    iterations share a target, every iteration's element is in the output
    at its offset. *)
Theorem scatter_nd_last_write_wins
    (data_shape indices_shape shape : list Z) (data indices out : buffer) :
  Scatter.build_checks data_shape indices_shape shape = true ->
  (forall i l,
     0 <= i < Scatter.fused_indices_dimension indices_shape ->
     0 <= l < Scatter.mdim indices_shape ->
     index_value indices_shape indices i l < znth shape l 0) ->
  exists r b,
    Scatter.scatter_nd data_shape indices_shape shape data indices out = Some r /\
    value r = Done b /\
    forall i j c,
      0 <= i < Scatter.fused_indices_dimension indices_shape ->
      0 <= j < Scatter.fused_data_dimension data_shape indices_shape ->
      value (Scatter.out_index data_shape indices_shape shape indices i j) = Done c ->
      (forall i' j',
         0 <= i' < Scatter.fused_indices_dimension indices_shape ->
         0 <= j' < Scatter.fused_data_dimension data_shape indices_shape ->
         i < i' \/ (i = i' /\ j < j') ->
         value (Scatter.out_index data_shape indices_shape shape indices i' j') <> Done c) ->
      cell b c
      = cell data (i * Scatter.fused_data_dimension data_shape indices_shape + j).
Proof.
  intros Hchecks Hup.
  destruct (scatter_nd_finishes data_shape indices_shape shape data indices Hchecks Hup out)
    as (b & Hrun).
  exists (Scatter.gen_ir data_shape indices_shape shape data indices out), b.
  split; [unfold Scatter.scatter_nd; rewrite Hchecks; reflexivity |].
  split; [exact Hrun |].
  intros i j c Hi Hj Hc Hlater.
  exact (scatter_nd_last_write data_shape indices_shape shape data indices Hchecks Hup
           out b i j c Hrun Hi Hj Hc Hlater).
Qed.

Lemma collide_indices_below_extents :
  forall i l,
    0 <= i < Scatter.fused_indices_dimension [1; 2] ->
    0 <= l < Scatter.mdim [1; 2] ->
    index_value [1; 2] collide_indices i l < znth [2] l 0.
Proof.
  intros i l Hi Hl.
  change (Scatter.fused_indices_dimension [1; 2]) with 2 in Hi.
  change (Scatter.mdim [1; 2]) with 1 in Hl.
  assert (l = 0) as -> by lia.
  assert (i = 0 \/ i = 1) as [-> | ->] by lia; vm_compute; reflexivity.
Qed.

Lemma scatter_nd_last_write_wins_witness :
  Scatter.build_checks [2] [1; 2] [2] = true /\
  exists r b,
    Scatter.scatter_nd [2] [1; 2] [2] collide_data collide_indices row_out = Some r /\
    value r = Done b /\
    forall i j c,
      0 <= i < Scatter.fused_indices_dimension [1; 2] ->
      0 <= j < Scatter.fused_data_dimension [2] [1; 2] ->
      value (Scatter.out_index [2] [1; 2] [2] collide_indices i j) = Done c ->
      (forall i' j',
         0 <= i' < Scatter.fused_indices_dimension [1; 2] ->
         0 <= j' < Scatter.fused_data_dimension [2] [1; 2] ->
         i < i' \/ (i = i' /\ j < j') ->
         value (Scatter.out_index [2] [1; 2] [2] collide_indices i' j') <> Done c) ->
      cell b c = cell collide_data (i * Scatter.fused_data_dimension [2] [1; 2] + j).
Proof.
  assert (Hchecks : Scatter.build_checks [2] [1; 2] [2] = true) by reflexivity.
  split; [exact Hchecks |].
  exact (scatter_nd_last_write_wins [2] [1; 2] [2] collide_data collide_indices row_out
           Hchecks collide_indices_below_extents).
Defined.

(** ** Staying within the extents *)

Section ScatterNdSafe.

Variables (data_shape indices_shape shape : list Z).
Variables (data indices : buffer).

Local Abbreviation M := (Scatter.mdim indices_shape).
Local Abbreviation fid := (Scatter.fused_indices_dimension indices_shape).
Local Abbreviation fdd := (Scatter.fused_data_dimension data_shape indices_shape).
Local Abbreviation step := (Scatter.index_step indices_shape shape indices).
Local Abbreviation out_index := (Scatter.out_index data_shape indices_shape shape indices).
Local Abbreviation gen_ir := (Scatter.gen_ir data_shape indices_shape shape data indices).

Lemma index_step_clean i l st :
  0 <= i + l * fid < extent indices -> violations (step i l st) = [].
Proof.
  intros Hin. destruct st as [index offset]. unfold Scatter.index_step.
  rewrite violations_bindR, violations_lift, value_lift.
  rewrite violations_bindR, violations_lift, value_lift.
  rewrite violations_bindR.
  rewrite (violations_load indices _ Hin). unfold assert_stmt.
  destruct (value (load indices (i + l * fid)) <? znth shape l 0); reflexivity.
Qed.

Lemma out_index_clean i j :
  0 <= i < fid ->
  extent indices = M * fid ->
  (forall l, 0 <= l < M ->
     index_value indices_shape indices i l < znth shape l 0) ->
  violations (out_index i j) = [].
Proof.
  intros Hi Hext Hup. unfold Scatter.out_index. rewrite violations_bindR.
  destruct (for_eachR_finishes (fun _ => True) (step i) (rev (range M)))
    with (s := (j, fdd)) as ([index offset] & E & _ & V).
  - intros l [index offset] Hl _. apply in_rev, in_range_iff in Hl.
    rewrite index_step_value.
    destruct (Z.ltb_spec (index_value indices_shape indices i l) (znth shape l 0))
      as [_ | Hge]; [| specialize (Hup l Hl); lia].
    eexists. split; [reflexivity |]. split; [exact I |].
    apply index_step_clean. rewrite Hext. nia.
  - exact I.
  - rewrite E, V. reflexivity.
Qed.

End ScatterNdSafe.

(** X18: for tensors shaped as the docstring has them, with as many fused
    index dimensions as leading output dimensions ([indices] of shape
    [(M, Y_0 .. Y_{M-1})], [data] of shape [(Y_0 .. Y_{M-1}, X_M ..)],
    output of shape [(X_0 .. X_{M-1}, X_M ..)]), in buffers of those sizes:
    when the build checks pass and every index value is within
    [0, shape[l])], the run finishes and no load or store leaves the extent
    of its buffer. *)
Theorem scatter_nd_stays_in_extents
    (ys lead xs : list Z) (data indices out : buffer) :
  let indices_shape := Z.of_nat (List.length lead) :: ys in
  let data_shape := ys ++ xs in
  let shape := lead ++ xs in
  List.length ys = List.length lead ->
  Scatter.build_checks data_shape indices_shape shape = true ->
  extent indices = product indices_shape ->
  extent data = product data_shape ->
  extent out = product shape ->
  (forall i l,
     0 <= i < Scatter.fused_indices_dimension indices_shape ->
     0 <= l < Scatter.mdim indices_shape ->
     0 <= index_value indices_shape indices i l < znth shape l 0) ->
  exists r b,
    Scatter.scatter_nd data_shape indices_shape shape data indices out = Some r /\
    value r = Done b /\
    violations r = [].
Proof.
  cbv zeta. intros Hlen Hchecks Hxi Hxd Hxo Hin.
  set (indices_shape := Z.of_nat (List.length lead) :: ys) in *.
  set (data_shape := ys ++ xs) in *.
  set (shape := lead ++ xs) in *.
  assert (HM : Scatter.mdim indices_shape = Z.of_nat (List.length lead)) by reflexivity.
  assert (Hfid : Scatter.fused_indices_dimension indices_shape = product ys) by reflexivity.
  assert (Hfdd : Scatter.fused_data_dimension data_shape indices_shape = product xs).
  { unfold Scatter.fused_data_dimension. rewrite HM, Nat2Z.id. unfold data_shape.
    rewrite <- Hlen, skipn_app, skipn_all, Nat.sub_diag. reflexivity. }
  assert (Hdims : firstn (Z.to_nat (Scatter.mdim indices_shape)) shape = lead).
  { rewrite HM, Nat2Z.id. unfold shape.
    rewrite firstn_app, firstn_all, Nat.sub_diag. cbn [firstn]. apply app_nil_r. }
  assert (Hup : forall i l,
             0 <= i < Scatter.fused_indices_dimension indices_shape ->
             0 <= l < Scatter.mdim indices_shape ->
             index_value indices_shape indices i l < znth shape l 0).
  { intros i l Hi Hl. apply Hin; assumption. }
  exists (Scatter.gen_ir data_shape indices_shape shape data indices out).
  assert (Hxi' : extent indices
                 = Scatter.mdim indices_shape * Scatter.fused_indices_dimension indices_shape).
  { rewrite Hxi. unfold indices_shape at 1. rewrite product_cons, HM, Hfid. reflexivity. }
  assert (Hxd' : extent data
                 = Scatter.fused_indices_dimension indices_shape
                   * Scatter.fused_data_dimension data_shape indices_shape).
  { rewrite Hxd, Hfid, Hfdd. unfold data_shape. apply product_app. }
  assert (Hxo' : extent out = product lead * product xs).
  { rewrite Hxo. unfold shape. apply product_app. }
  unfold Scatter.scatter_nd. rewrite Hchecks.
  unfold Scatter.gen_ir. 
  assert (Hfill : extent (value (for_each (range (Scatter.fused_shape shape))
                                   (fun i out => store out i 0) out)) = extent out /\
                  violations (for_each (range (Scatter.fused_shape shape))
                                (fun i out => store out i 0) out) = []).
  { apply (for_each_clean (fun b => extent b = extent out)); [| reflexivity].
    intros i b Hi Hb. apply in_range_iff in Hi. split; [exact Hb |].
    apply violations_store. rewrite Hb, Hxo. exact Hi. }
  destruct Hfill as [Hfx Hfv].
  match goal with
  | |- exists b, Some (bindR _ ?k) = _ /\ _ =>
      destruct (for_eachR_finishes (fun b => extent b = extent out)
                  (fun i out =>
                     for_eachR (range (Scatter.fused_data_dimension data_shape indices_shape))
                       (fun j out =>
                          index <~ Scatter.out_index data_shape indices_shape shape indices i j ;;
                          v <~ lift (load data
                                 (i * Scatter.fused_data_dimension data_shape indices_shape + j)) ;;
                          lift (store out index v)) out)
                  (range (Scatter.fused_indices_dimension indices_shape)))
        with (s := value (for_each (range (Scatter.fused_shape shape))
                            (fun i out => store out i 0) out))
        as (b & E & _ & V)
  end.
  - intros i b Hi Hb. apply in_range_iff in Hi.
    apply (for_eachR_finishes (fun b => extent b = extent out)); [| exact Hb].
    intros j b0 Hj Hb0. apply in_range_iff in Hj.
    pose proof (build_checks_mdim _ _ _ Hchecks) as HMlen.
    assert (Hval := out_index_value data_shape indices_shape shape indices i j HMlen
                      (fun l Hl => Hup i l Hi Hl)).
    pose proof (multi_index_offset_bounds data_shape indices_shape shape indices i j
                  HMlen (fun l Hl => Hin i l Hi Hl) Hj) as Hbnd.
    cbv zeta in Hbnd. rewrite Hdims, Hfdd in Hbnd.
    eexists. rewrite value_bindR, violations_bindR, Hval.
    rewrite value_bindR, violations_bindR, value_lift, violations_lift.
    rewrite value_lift, violations_lift.
    split; [reflexivity |]. split; [rewrite extent_store; exact Hb0 |].
    rewrite (out_index_clean data_shape indices_shape shape indices i j Hi Hxi')
      by (intros l Hl; apply Hup; assumption).
    rewrite violations_load by (rewrite Hxd'; nia).
    rewrite violations_store; [reflexivity |].
    rewrite Hb0, Hxo', Hdims, Hfdd. exact Hbnd.
  - exact Hfx.
  - exists b. split; [reflexivity |].
    rewrite value_bindR, violations_bindR, value_lift, violations_lift, Hfv.
    split; [exact E |]. exact V.
Qed.

Lemma collide_indices_within_extents :
  forall i l,
    0 <= i < Scatter.fused_indices_dimension [1; 2] ->
    0 <= l < Scatter.mdim [1; 2] ->
    0 <= index_value [1; 2] collide_indices i l < znth [2] l 0.
Proof.
  intros i l Hi Hl.
  change (Scatter.fused_indices_dimension [1; 2]) with 2 in Hi.
  change (Scatter.mdim [1; 2]) with 1 in Hl.
  assert (l = 0) as -> by lia.
  assert (i = 0 \/ i = 1) as [-> | ->] by lia; vm_compute; split; congruence.
Qed.

Lemma scatter_nd_stays_in_extents_witness :
  Scatter.build_checks [2] [1; 2] [2] = true /\
  exists r b,
    Scatter.scatter_nd [2] [1; 2] [2] collide_data collide_indices row_out = Some r /\
    value r = Done b /\
    violations r = [].
Proof.
  assert (Hchecks : Scatter.build_checks [2] [1; 2] [2] = true) by reflexivity.
  split; [exact Hchecks |].
  exact (scatter_nd_stays_in_extents [2] [2] [] collide_data collide_indices row_out
           eq_refl Hchecks eq_refl eq_refl eq_refl collide_indices_within_extents).
Defined.

(** * Properties of the scatter operator *)

(** ** Nested loops as one pass over the positions *)

Lemma fold_left_flat_map {A B S} (g : S -> B -> S) (h : A -> list B) l s :
  fold_left g (flat_map h l) s = fold_left (fun s x => fold_left g (h x) s) l s.
Proof.
  revert s. induction l as [| x l IH]; intros s.
  - reflexivity.
  - cbn [flat_map fold_left]. rewrite fold_left_app. apply IH.
Qed.

Lemma fold_left_map {A B S} (g : S -> B -> S) (h : A -> B) l s :
  fold_left g (map h l) s = fold_left (fun s x => g s (h x)) l s.
Proof.
  revert s. induction l as [| x l IH]; intros s.
  - reflexivity.
  - cbn [map fold_left]. apply IH.
Qed.

Lemma fold_left_pointwise {A S} (f g : S -> A -> S) l s :
  (forall s' x, f s' x = g s' x) -> fold_left f l s = fold_left g l s.
Proof.
  intros H. revert s. induction l as [| x l IH]; intros s.
  - reflexivity.
  - cbn [fold_left]. rewrite H. apply IH.
Qed.

(** A pass over the positions of [n :: dims] is a loop over [range n]
    around a pass over the positions of [dims]. *)
Lemma grid_cons {S} (f : list Z -> S -> S) n dims s :
  fold_left (fun s q => f q s) (grid (n :: dims)) s
  = fold_left (fun s i => fold_left (fun s q => f (i :: q) s) (grid dims) s)
      (range n) s.
Proof.
  cbn [grid]. rewrite fold_left_flat_map.
  apply fold_left_pointwise. intros s' i. apply fold_left_map.
Qed.

(** A loop whose passes all return is the fold of what they return. *)
Lemma each_returned {S} (body : Z -> S -> result S) (f : Z -> S -> S) l s :
  (forall i s', body i s' = Returned (f i s')) ->
  each l body s = Returned (fold_left (fun s i => f i s) l s).
Proof.
  intros H. revert s. induction l as [| i l IH]; intros s.
  - reflexivity.
  - cbn [each fold_left]. rewrite H. cbn [and_then]. apply IH.
Qed.

(** A loop whose every pass is a pass over the positions of [dims]. *)
Lemma loop_step {S} (body : Z -> S -> result S) (f : list Z -> S -> S) n dims s :
  (forall i s',
     body i s' = Returned (fold_left (fun s q => f (i :: q) s) (grid dims) s')) ->
  for_range (Returned n) body s
  = Returned (fold_left (fun s q => f q s) (grid (n :: dims)) s).
Proof.
  intros H. unfold for_range. cbn [and_then].
  rewrite (each_returned body
             (fun i s => fold_left (fun s q => f (i :: q) s) (grid dims) s))
    by exact H.
  rewrite grid_cons. reflexivity.
Qed.

Lemma or_from_end_returned v n :
  or_from_end v (Returned n) = Returned (from_end v n).
Proof. unfold or_from_end, from_end. destruct (v >=? 0); reflexivity. Qed.

(** ** The hybrid scripts as two passes *)

Ltac nest_loops :=
  repeat (apply loop_step; intros ? ?);
  first [ reflexivity | rewrite or_from_end_returned; reflexivity ].

(** Both statements of a script, for shapes of known rank and a known
    axis. *)
Ltac two_passes Hd Hi :=
  unfold scattered, copied, target, dim, shape_item;
  rewrite Hd, Hi;
  cbn [List.length Z.of_nat Pos.of_succ_nat Pos.succ Z.leb Z.ltb Z.eqb Pos.eqb
       Z.compare Pos.compare Pos.compare_cont andb znth Z.to_nat Pos.to_nat
       Pos.iter_op Init.Nat.add nth];
  match goal with
  | |- and_then ?m _ = Returned (fold_left _ _ ?c) =>
      let Hcopy := fresh "Hcopy" in
      assert (Hcopy : m = Returned c) by nest_loops;
      rewrite Hcopy; cbn [and_then]
  end;
  match goal with
  | |- and_then ?m _ = Returned ?r =>
      let Hsc := fresh "Hsc" in
      assert (Hsc : m = Returned r) by nest_loops;
      rewrite Hsc; reflexivity
  end.

Section TwoPasses.

Variable fresh : list Z -> Z.
Variables data indices updates : tensor.

Lemma scatter_1d_scattered d0 i0 :
  shape data = [d0] -> shape indices = [i0] ->
  _scatter_1d fresh data indices updates
  = Returned (scattered fresh data indices updates 0).
Proof.
  intros Hd Hi. unfold _scatter_1d. two_passes Hd Hi.
Qed.

Lemma scatter_2d_scattered d0 d1 i0 i1 axis :
  shape data = [d0; d1] -> shape indices = [i0; i1] -> 0 <= axis < 2 ->
  _scatter_2d fresh data indices updates axis
  = Returned (scattered fresh data indices updates axis).
Proof.
  intros Hd Hi Ha. unfold _scatter_2d.
  assert (axis = 0 \/ axis = 1) as [-> | ->] by lia; two_passes Hd Hi.
Qed.

Lemma scatter_3d_scattered d0 d1 d2 i0 i1 i2 axis :
  shape data = [d0; d1; d2] -> shape indices = [i0; i1; i2] -> 0 <= axis < 3 ->
  _scatter_3d fresh data indices updates axis
  = Returned (scattered fresh data indices updates axis).
Proof.
  intros Hd Hi Ha. unfold _scatter_3d.
  assert (axis = 0 \/ axis = 1 \/ axis = 2) as [-> | [-> | ->]] by lia;
    two_passes Hd Hi.
Qed.

Lemma scatter_4d_scattered d0 d1 d2 d3 i0 i1 i2 i3 axis :
  shape data = [d0; d1; d2; d3] -> shape indices = [i0; i1; i2; i3] -> 0 <= axis < 4 ->
  _scatter_4d fresh data indices updates axis
  = Returned (scattered fresh data indices updates axis).
Proof.
  intros Hd Hi Ha. unfold _scatter_4d.
  assert (axis = 0 \/ axis = 1 \/ axis = 2 \/ axis = 3) as [-> | [-> | [-> | ->]]] by lia;
    two_passes Hd Hi.
Qed.

End TwoPasses.

(** ** Reading a tensor after a pass of writes *)

Lemma index_eqb_eq p q : index_eqb p q = true <-> p = q.
Proof.
  unfold index_eqb. destruct (list_eq_dec Z.eq_dec p q); split; congruence.
Qed.

Lemma index_eqb_neq p q : index_eqb p q = false <-> p <> q.
Proof.
  unfold index_eqb. destruct (list_eq_dec Z.eq_dec p q); split; congruence.
Qed.

Section Writes.

Context {A : Type} (key : A -> list Z) (val : A -> Z).

Local Abbreviation pass := (fold_left (fun t a => set t (key a) (val a))).

Lemma shape_pass ws t : shape (pass ws t) = shape t.
Proof.
  revert t. induction ws as [| a ws IH]; intros t; [reflexivity |].
  cbn [fold_left]. rewrite IH. reflexivity.
Qed.

Lemma get_pass_miss ws t p :
  (forall a, In a ws -> key a <> p) -> get (pass ws t) p = get t p.
Proof.
  revert t. induction ws as [| a ws IH]; intros t H; [reflexivity |].
  cbn [fold_left]. rewrite IH by (intros a' Ha'; apply H; right; exact Ha').
  unfold get, set. cbn [elem].
  replace (index_eqb p (key a)) with false; [reflexivity |].
  symmetry. apply index_eqb_neq. intros ->. exact (H a (or_introl eq_refl) eq_refl).
Qed.

Lemma get_pass_last pre a post t :
  (forall a', In a' post -> key a' <> key a) ->
  get (pass (pre ++ a :: post) t) (key a) = val a.
Proof.
  intros H. rewrite fold_left_app. cbn [fold_left].
  rewrite get_pass_miss by exact H.
  unfold get, set. cbn [elem].
  replace (index_eqb (key a) (key a)) with true; [reflexivity |].
  symmetry. apply index_eqb_eq. reflexivity.
Qed.

(** Writes that agree on what a position gets. *)
Lemma get_pass_agreed ws t p v :
  (exists a, In a ws /\ key a = p) ->
  (forall a, In a ws -> key a = p -> val a = v) ->
  get (pass ws t) p = v.
Proof.
  revert t. induction ws as [| a ws IH] using rev_ind; intros t [a0 [Hin Hk]] Hv.
  - destruct Hin.
  - rewrite fold_left_app. cbn [fold_left]. unfold get, set. cbn [elem].
    destruct (index_eqb p (key a)) eqn:E.
    + apply index_eqb_eq in E. apply Hv; [apply in_or_app; right; left; reflexivity |].
      symmetry. exact E.
    + apply index_eqb_neq in E. apply in_app_or in Hin as [Hin | [<- | []]].
      * apply (IH t).
        -- exists a0. split; assumption.
        -- intros a' Ha'. apply Hv. apply in_or_app. left. exact Ha'.
      * congruence.
Qed.

End Writes.

Section ScatterResult.

Variable fresh : list Z -> Z.
Variables data indices updates : tensor.
Variable axis : Z.

Lemma shape_copied : shape (copied fresh data) = shape data.
Proof. unfold copied. rewrite (shape_pass (fun p => p) (get data)). reflexivity. Qed.

Lemma get_copied p : In p (grid (shape data)) -> get (copied fresh data) p = get data p.
Proof.
  intros Hp. unfold copied. apply (get_pass_agreed (fun p => p) (get data)).
  - exists p. split; [exact Hp | reflexivity].
  - intros a _ ->. reflexivity.
Qed.

Lemma shape_scattered : shape (scattered fresh data indices updates axis) = shape data.
Proof.
  unfold scattered.
  rewrite (shape_pass (target data indices axis) (get updates)). apply shape_copied.
Qed.

Lemma scattered_untargeted p :
  In p (grid (shape data)) ->
  (forall q, In q (grid (shape indices)) -> target data indices axis q <> p) ->
  get (scattered fresh data indices updates axis) p = get data p.
Proof.
  intros Hp Hmiss. unfold scattered.
  rewrite (get_pass_miss (target data indices axis) (get updates)) by exact Hmiss.
  apply get_copied. exact Hp.
Qed.

Lemma scattered_last_write pre q post :
  grid (shape indices) = pre ++ q :: post ->
  (forall q', In q' post -> target data indices axis q' <> target data indices axis q) ->
  get (scattered fresh data indices updates axis) (target data indices axis q)
  = get updates q.
Proof.
  intros Hgrid Hlater. unfold scattered. rewrite Hgrid.
  apply (get_pass_last (target data indices axis) (get updates)). exact Hlater.
Qed.

End ScatterResult.

(** ** The dispatch *)

Lemma normal_axis_range data axis :
  let rank := Z.of_nat (List.length (shape data)) in
  0 <= normal_axis data axis < rank <-> - rank <= axis < rank.
Proof.
  cbv zeta. unfold normal_axis. destruct (Z.ltb_spec axis 0); lia.
Qed.

Lemma scatter_returns fresh data indices updates axis :
  let rank := Z.of_nat (List.length (shape data)) in
  1 <= rank <= 4 ->
  List.length (shape indices) = List.length (shape data) ->
  - rank <= axis < rank ->
  scatter fresh data indices updates axis
  = Returned (scattered fresh data indices updates (normal_axis data axis)).
Proof.
  cbv zeta. intros Hrank Hlen Haxis.
  apply (normal_axis_range data axis) in Haxis. cbv zeta in Haxis.
  unfold scatter. fold (normal_axis data axis).
  replace (normal_axis data axis >=? 0) with true by (symmetry; apply Z.geb_le; lia).
  replace (normal_axis data axis <? Z.of_nat (List.length (shape data))) with true
    by (symmetry; apply Z.ltb_lt; lia).
  cbn [negb].
  destruct (shape data) as [| d0 [| d1 [| d2 [| d3 [| d4 rest]]]]] eqn:Hd;
    cbn [List.length] in Hrank, Hlen, Haxis |- *; try lia;
  destruct (shape indices) as [| i0 [| i1 [| i2 [| i3 [| i4 rest']]]]] eqn:Hi;
    cbn [List.length] in Hlen; try discriminate.
  - cbn [Z.of_nat Pos.of_succ_nat Z.eqb Pos.eqb].
    replace (normal_axis data axis) with 0 by lia.
    exact (scatter_1d_scattered fresh data indices updates d0 i0 Hd Hi).
  - cbn [Z.of_nat Pos.of_succ_nat Pos.succ Z.eqb Pos.eqb].
    exact (scatter_2d_scattered fresh data indices updates d0 d1 i0 i1 _ Hd Hi Haxis).
  - cbn [Z.of_nat Pos.of_succ_nat Pos.succ Z.eqb Pos.eqb].
    exact (scatter_3d_scattered fresh data indices updates d0 d1 d2 i0 i1 i2 _ Hd Hi Haxis).
  - cbn [Z.of_nat Pos.of_succ_nat Pos.succ Z.eqb Pos.eqb].
    exact (scatter_4d_scattered fresh data indices updates d0 d1 d2 d3 i0 i1 i2 i3 _
             Hd Hi Haxis).
Qed.

(** ** What the scripts can raise *)

Lemma and_then_tame {A B} (m : result A) (k : A -> result B) :
  returns_or_index_error m -> (forall a, returns_or_index_error (k a)) ->
  returns_or_index_error (and_then m k).
Proof. destruct m; cbn; intros Hm Hk; try contradiction; [apply Hk | exact I]. Qed.

Lemma each_tame {S} (body : Z -> S -> result S) l s :
  (forall i s', returns_or_index_error (body i s')) ->
  returns_or_index_error (each l body s).
Proof.
  intros H. revert s. induction l as [| i l IH]; intros s.
  - exact I.
  - cbn [each]. apply and_then_tame; [apply H | exact IH].
Qed.

Lemma for_range_tame {S} n (body : Z -> S -> result S) s :
  returns_or_index_error n ->
  (forall i s', returns_or_index_error (body i s')) ->
  returns_or_index_error (for_range n body s).
Proof.
  intros Hn H. unfold for_range. apply and_then_tame; [exact Hn |].
  intros v. apply each_tame. exact H.
Qed.

Lemma shape_item_tame t k : returns_or_index_error (shape_item t k).
Proof.
  unfold shape_item.
  destruct ((0 <=? k) && (k <? Z.of_nat (List.length (shape t))));
    [exact I |].
  destruct ((- Z.of_nat (List.length (shape t)) <=? k) && (k <? 0)); exact I.
Qed.

Lemma or_from_end_tame v extent :
  returns_or_index_error extent -> returns_or_index_error (or_from_end v extent).
Proof.
  intros H. unfold or_from_end. destruct (v >=? 0); [exact I |].
  apply and_then_tame; [exact H | intros n; exact I].
Qed.

Ltac tame :=
  repeat first
    [ exact I
    | apply shape_item_tame
    | apply or_from_end_tame
    | apply for_range_tame
    | apply and_then_tame
    | intros ?
    | match goal with
      | |- returns_or_index_error (if ?c then _ else _) => destruct c
      end ].

(** The four scripts return or raise [IndexError]. *)
Lemma scripts_tame fresh data indices updates axis :
  returns_or_index_error (_scatter_1d fresh data indices updates) /\
  returns_or_index_error (_scatter_2d fresh data indices updates axis) /\
  returns_or_index_error (_scatter_3d fresh data indices updates axis) /\
  returns_or_index_error (_scatter_4d fresh data indices updates axis).
Proof.
  unfold _scatter_1d, _scatter_2d, _scatter_3d, _scatter_4d.
  repeat split; tame.
Qed.

Lemma for_range_raises {S} v (body : Z -> S -> result S) s :
  0 < v -> body 0 s = IndexError -> for_range (Returned v) body s = IndexError.
Proof.
  intros Hv H. unfold for_range. cbn [and_then].
  rewrite (range_succ v Hv). cbn [each]. rewrite H. reflexivity.
Qed.

(** The copy of [data] returns; then the first subscript of the shape of
    [indices] past its rank raises, once the loops around it are entered. *)
Ltac second_statement_raises fr data Hd Hi Hpos :=
  unfold shape_item; rewrite Hd, Hi;
  cbn [List.length Z.of_nat Pos.of_succ_nat Pos.succ Z.leb Z.ltb Z.eqb Pos.eqb
       Z.compare Pos.compare Pos.compare_cont andb znth Z.to_nat Pos.to_nat
       Pos.iter_op Init.Nat.add nth Z.opp Z.add];
  match goal with
  | |- and_then ?m _ = IndexError =>
      let Hcopy := fresh "Hcopy" in
      assert (Hcopy : m = Returned (copied fr data))
        by (unfold copied; rewrite Hd; repeat (apply loop_step; intros ? ?);
            reflexivity);
      rewrite Hcopy; cbn [and_then]
  end;
  match goal with
  | |- and_then ?m _ = IndexError =>
      let Hr := fresh "Hr" in
      assert (Hr : m = IndexError)
        by (repeat first
              [ reflexivity
              | apply for_range_raises; [apply Hpos; cbn [In]; tauto |] ]);
      rewrite Hr; reflexivity
  end.

Lemma scatter_index_error fr data indices updates axis :
  let rank := Z.of_nat (List.length (shape data)) in
  - rank <= axis < rank -> rank <= 4 ->
  (List.length (shape indices) < List.length (shape data))%nat ->
  (forall d, In d (shape indices) -> 0 < d) ->
  scatter fr data indices updates axis = IndexError.
Proof.
  cbv zeta. intros Haxis Hrank Hlen Hpos.
  apply (normal_axis_range data axis) in Haxis. cbv zeta in Haxis.
  unfold scatter. fold (normal_axis data axis).
  replace (normal_axis data axis >=? 0) with true by (symmetry; apply Z.geb_le; lia).
  replace (normal_axis data axis <? Z.of_nat (List.length (shape data))) with true
    by (symmetry; apply Z.ltb_lt; lia).
  cbn [negb].
  set (a := normal_axis data axis) in *. clearbody a.
  destruct (shape data) as [| d0 [| d1 [| d2 [| d3 [| d4 rest]]]]] eqn:Hd;
    cbn [List.length] in Hrank, Hlen, Haxis |- *; try lia;
  destruct (shape indices) as [| i0 [| i1 [| i2 [| i3 rest']]]] eqn:Hi;
    cbn [List.length] in Hlen; try lia;
  cbn [Z.of_nat Pos.of_succ_nat Pos.succ Z.eqb Pos.eqb].
  all: first
    [ assert (a = 0) as -> by lia
    | assert (a = 0 \/ a = 1) as [-> | ->] by lia
    | assert (a = 0 \/ a = 1 \/ a = 2) as [-> | [-> | ->]] by lia
    | assert (a = 0 \/ a = 1 \/ a = 2 \/ a = 3) as [-> | [-> | [-> | ->]]] by lia ].
  all: unfold _scatter_1d, _scatter_2d, _scatter_3d, _scatter_4d;
    second_statement_raises fr data Hd Hi Hpos.
Qed.

(** What [scatter] does by the axis and the rank of [data] alone. *)
Lemma scatter_by_axis_and_rank fr data indices updates axis :
  let rank := Z.of_nat (List.length (shape data)) in
  (~ (- rank <= axis < rank) ->
   scatter fr data indices updates axis = AssertionError) /\
  (- rank <= axis < rank -> 4 < rank ->
   scatter fr data indices updates axis
   = ValueError "scatter only support for 1-4 dimensions") /\
  (- rank <= axis < rank -> rank <= 4 ->
   returns_or_index_error (scatter fr data indices updates axis)).
Proof.
  cbv zeta. unfold scatter.
  pose proof (normal_axis_range data axis) as Hrange. cbv zeta in Hrange.
  fold (normal_axis data axis).
  set (a := normal_axis data axis) in *.
  set (rank := Z.of_nat (List.length (shape data))) in *.
  destruct (scripts_tame fr data indices updates a) as (T1 & T2 & T3 & T4).
  destruct (a >=? 0) eqn:E1; cbn [negb].
  - apply Z.geb_le in E1.
    destruct (Z.ltb_spec a rank) as [E2 | E2]; cbn [negb].
    + destruct (Z.eqb_spec rank 1); [| destruct (Z.eqb_spec rank 2);
        [| destruct (Z.eqb_spec rank 3); [| destruct (Z.eqb_spec rank 4)]]];
        (split; [| split]); intros; first [assumption | lia | reflexivity].
    + (split; [| split]); intros; first [reflexivity | lia].
  - assert (a < 0).
    { destruct (Z.leb_spec 0 a) as [H | H]; [| exact H].
      apply Z.geb_le in H. congruence. }
    (split; [| split]); intros; first [reflexivity | lia].
Qed.

(** X19: [scatter] raises [AssertionError] exactly when [axis] is outside
    [-rank, rank), whatever the rank (so always for data of rank 0, and
    before the rank is looked at); with [axis] in that range it raises
    [ValueError] exactly when the rank of [data] is above 4.  It returns a
    tensor only with [axis] in range and a rank of at most 4, and it does
    return one when [indices] has the rank of [data]; when [indices] has a
    lower rank and no extent 0, subscripting its shape raises
    [IndexError]. *)
Theorem scatter_raises
    (fresh : list Z -> Z) (data indices updates : tensor) (axis : Z) :
  let rank := Z.of_nat (List.length (shape data)) in
  (scatter fresh data indices updates axis = AssertionError
   <-> axis < - rank \/ rank <= axis) /\
  (scatter fresh data indices updates axis
   = ValueError "scatter only support for 1-4 dimensions"
   <-> - rank <= axis < rank /\ 4 < rank) /\
  ((exists out, scatter fresh data indices updates axis = Returned out)
   -> - rank <= axis < rank /\ rank <= 4) /\
  (- rank <= axis < rank -> rank <= 4 ->
   List.length (shape indices) = List.length (shape data) ->
   exists out, scatter fresh data indices updates axis = Returned out) /\
  (- rank <= axis < rank -> rank <= 4 ->
   (List.length (shape indices) < List.length (shape data))%nat ->
   (forall d, In d (shape indices) -> 0 < d) ->
   scatter fresh data indices updates axis = IndexError).
Proof.
  cbv zeta.
  destruct (scatter_by_axis_and_rank fresh data indices updates axis)
    as (Hassert & Hvalue & Htame). cbv zeta in Hassert, Hvalue, Htame.
  set (rank := Z.of_nat (List.length (shape data))) in *.
  assert (Hcases : ~ (- rank <= axis < rank)
                   \/ (- rank <= axis < rank /\ 4 < rank)
                   \/ (- rank <= axis < rank /\ rank <= 4)) by lia.
  repeat split.
  - intros H. destruct Hcases as [Ho | [[Hin Hr] | [Hin Hr]]]; [lia | |].
    + rewrite (Hvalue Hin Hr) in H. discriminate.
    + specialize (Htame Hin Hr). rewrite H in Htame. contradiction.
  - intros Ho. apply Hassert. lia.
  - destruct Hcases as [Ho | [[Hin Hr] | [Hin Hr]]]; [| exact (proj1 Hin) |].
    + rewrite (Hassert Ho) in H. discriminate.
    + specialize (Htame Hin Hr). rewrite H in Htame. contradiction.
  - destruct Hcases as [Ho | [[Hin Hr] | [Hin Hr]]]; [| exact (proj2 Hin) |].
    + rewrite (Hassert Ho) in H. discriminate.
    + specialize (Htame Hin Hr). rewrite H in Htame. contradiction.
  - destruct Hcases as [Ho | [[Hin Hr] | [Hin Hr]]]; [| exact Hr |].
    + rewrite (Hassert Ho) in H. discriminate.
    + specialize (Htame Hin Hr). rewrite H in Htame. contradiction.
  - intros [Hin Hr]. exact (Hvalue Hin Hr).
  - destruct H as [out H].
    destruct Hcases as [Ho | [[Hin Hr] | [Hin Hr]]]; [| | exact (proj1 Hin)].
    + rewrite (Hassert Ho) in H. discriminate.
    + rewrite (Hvalue Hin Hr) in H. discriminate.
  - destruct H as [out H].
    destruct Hcases as [Ho | [[Hin Hr] | [Hin Hr]]]; [| | exact (proj2 Hin)].
    + rewrite (Hassert Ho) in H. discriminate.
    + rewrite (Hvalue Hin Hr) in H. discriminate.
  - destruct H as [out H].
    destruct Hcases as [Ho | [[Hin Hr] | [Hin Hr]]]; [| | exact Hr].
    + rewrite (Hassert Ho) in H. discriminate.
    + rewrite (Hvalue Hin Hr) in H. discriminate.
  - intros Hin Hr Hlen.
    exists (scattered fresh data indices updates (normal_axis data axis)).
    apply scatter_returns; [| exact Hlen | exact Hin].
    cbv zeta. fold rank. pose proof (normal_axis_range data axis) as Hn.
    cbv zeta in Hn. fold rank in Hn. lia.
  - intros Hin Hr Hlen Hpos.
    exact (scatter_index_error fresh data indices updates axis Hin Hr Hlen Hpos).
Qed.

(** X20: for data of rank 1 to 4, indices of the same rank and an axis in
    [-rank, rank), when every element of [updates] goes to a position of
    [data]: [scatter] returns a tensor of the shape of [data] that holds
    the element of [data] at every position no element of [updates] goes
    to. *)
Theorem scatter_keeps_untargeted
    (fresh : list Z -> Z) (data indices updates : tensor) (axis : Z) :
  let rank := Z.of_nat (List.length (shape data)) in
  let a := normal_axis data axis in
  1 <= rank <= 4 ->
  List.length (shape indices) = List.length (shape data) ->
  - rank <= axis < rank ->
  targets_within data indices a ->
  exists out,
    scatter fresh data indices updates axis = Returned out /\
    shape out = shape data /\
    forall p,
      In p (grid (shape data)) ->
      (forall q, In q (grid (shape indices)) -> target data indices a q <> p) ->
      get out p = get data p.
Proof.
  cbv zeta. intros Hrank Hlen Haxis _.
  exists (scattered fresh data indices updates (normal_axis data axis)).
  split; [apply scatter_returns; assumption |].
  split; [apply shape_scattered |].
  intros p Hp Hmiss. apply scattered_untargeted; assumption.
Qed.

(** X21: under the same conditions, the position an element of [updates]
    goes to holds that element, unless a later element, in the row-major
    order of [indices], goes to the same position: the last write wins. *)
Theorem scatter_last_write_wins
    (fresh : list Z -> Z) (data indices updates : tensor) (axis : Z) :
  let rank := Z.of_nat (List.length (shape data)) in
  let a := normal_axis data axis in
  1 <= rank <= 4 ->
  List.length (shape indices) = List.length (shape data) ->
  - rank <= axis < rank ->
  targets_within data indices a ->
  exists out,
    scatter fresh data indices updates axis = Returned out /\
    forall pre q post,
      grid (shape indices) = pre ++ q :: post ->
      (forall q', In q' post -> target data indices a q' <> target data indices a q) ->
      get out (target data indices a q) = get updates q.
Proof.
  cbv zeta. intros Hrank Hlen Haxis _.
  exists (scattered fresh data indices updates (normal_axis data axis)).
  split; [apply scatter_returns; assumption |].
  intros pre q post Hgrid Hlater.
  apply (scattered_last_write fresh data indices updates _ pre q post); assumption.
Qed.

Lemma from_end_idempotent v n : - n <= v -> from_end (from_end v n) n = from_end v n.
Proof.
  intros Hv. unfold from_end.
  destruct (v >=? 0) eqn:E; [rewrite E; reflexivity |].
  replace (v + n >=? 0) with true by (symmetry; apply Z.geb_le; lia).
  reflexivity.
Qed.

Lemma fold_left_agree {A S} (f g : S -> A -> S) l s :
  (forall s' x, In x l -> f s' x = g s' x) -> fold_left f l s = fold_left g l s.
Proof.
  revert s. induction l as [| x l IH]; intros s H.
  - reflexivity.
  - cbn [fold_left]. rewrite H by (left; reflexivity).
    apply IH. intros s' y Hy. apply H. right. exact Hy.
Qed.

(** X22: a negative index counts from the end of the axis.  When no index
    is below [- data.shape[axis]], replacing every negative index [v] by
    [v + data.shape[axis]] does not change what [scatter] returns. *)
Theorem scatter_negative_index_from_end
    (fresh : list Z -> Z) (data indices updates : tensor) (axis : Z) :
  let rank := Z.of_nat (List.length (shape data)) in
  let a := normal_axis data axis in
  1 <= rank <= 4 ->
  List.length (shape indices) = List.length (shape data) ->
  - rank <= axis < rank ->
  (forall q, In q (grid (shape indices)) -> - dim data a <= get indices q) ->
  scatter fresh data (counted_from_start data indices a) updates axis
  = scatter fresh data indices updates axis.
Proof.
  cbv zeta. intros Hrank Hlen Haxis Hlow.
  rewrite !scatter_returns by assumption. f_equal.
  unfold scattered. cbn [counted_from_start shape].
  apply fold_left_agree. intros out q Hq. f_equal.
  unfold target, get. cbn [counted_from_start elem]. f_equal.
  apply from_end_idempotent. apply Hlow. exact Hq.
Qed.

Lemma two_indices_within : targets_within three_data two_indices (normal_axis three_data (-1)).
Proof.
  intros q Hq. cbn in Hq. destruct Hq as [<- | [<- | []]]; vm_compute; auto.
Qed.

Lemma scatter_keeps_untargeted_witness :
  targets_within three_data two_indices (normal_axis three_data (-1)) /\
  exists out,
    scatter no_fresh three_data two_indices two_updates (-1) = Returned out /\
    shape out = shape three_data /\
    forall p,
      In p (grid (shape three_data)) ->
      (forall q, In q (grid (shape two_indices)) ->
                 target three_data two_indices (normal_axis three_data (-1)) q <> p) ->
      get out p = get three_data p.
Proof.
  split; [exact two_indices_within |].
  apply (scatter_keeps_untargeted no_fresh three_data two_indices two_updates (-1));
    [cbn; lia | reflexivity | cbn; lia | exact two_indices_within].
Defined.

Lemma scatter_last_write_wins_witness :
  targets_within three_data two_indices (normal_axis three_data (-1)) /\
  exists out,
    scatter no_fresh three_data two_indices two_updates (-1) = Returned out /\
    forall pre q post,
      grid (shape two_indices) = pre ++ q :: post ->
      (forall q', In q' post ->
         target three_data two_indices (normal_axis three_data (-1)) q'
         <> target three_data two_indices (normal_axis three_data (-1)) q) ->
      get out (target three_data two_indices (normal_axis three_data (-1)) q)
      = get two_updates q.
Proof.
  split; [exact two_indices_within |].
  apply (scatter_last_write_wins no_fresh three_data two_indices two_updates (-1));
    [cbn; lia | reflexivity | cbn; lia | exact two_indices_within].
Defined.

Lemma two_indices_not_below :
  forall q, In q (grid (shape two_indices)) ->
    - dim three_data (normal_axis three_data (-1)) <= get two_indices q.
Proof.
  intros q Hq. cbn in Hq. destruct Hq as [<- | [<- | []]]; vm_compute; discriminate.
Qed.

Lemma scatter_negative_index_from_end_witness :
  (forall q, In q (grid (shape two_indices)) ->
     - dim three_data (normal_axis three_data (-1)) <= get two_indices q) /\
  scatter no_fresh three_data
    (counted_from_start three_data two_indices (normal_axis three_data (-1)))
    two_updates (-1)
  = scatter no_fresh three_data two_indices two_updates (-1).
Proof.
  split; [exact two_indices_not_below |].
  apply (scatter_negative_index_from_end no_fresh three_data two_indices two_updates (-1));
    [cbn; lia | reflexivity | cbn; lia | exact two_indices_not_below].
Defined.

(** The example, evaluated: the two updates land at positions 2 and 0. *)
Lemma scatter_example :
  exists out,
    scatter no_fresh three_data two_indices two_updates (-1) = Returned out /\
    map (get out) (grid (shape out)) = [8; 20; 7].
Proof. eexists. split; reflexivity. Qed.

(** Indices of a lower rank than the data: the second loop of
    [_scatter_2d] subscripts [indices.shape[1]]. *)
Lemma scatter_lower_rank_indices_raise :
  scatter no_fresh (zeros [2; 3]) two_indices two_updates 0 = IndexError.
Proof. reflexivity. Qed.

(** ** Writes stay inside the output *)

Lemma In_grid p dims :
  In p (grid dims) <-> Forall2 (fun x d => 0 <= x < d) p dims.
Proof.
  revert p. induction dims as [| n dims IH]; intros p.
  - cbn [grid In]. split.
    + intros [<- | []]. constructor.
    + intros H. inversion H. left. reflexivity.
  - cbn [grid]. rewrite in_flat_map. split.
    + intros (i & Hi & Hp). apply in_map_iff in Hp as (q & <- & Hq).
      constructor; [apply in_range_iff; exact Hi | apply IH; exact Hq].
    + intros H. inversion H as [| x d q ds Hx Hq]; subst.
      exists x. split; [apply in_range_iff; exact Hx |].
      apply in_map. apply IH. exact Hq.
Qed.

Lemma in_bounds_widen q small large :
  Forall2 (fun x d => 0 <= x < d) q small ->
  List.length small = List.length large ->
  (forall k, (k < List.length large)%nat -> nth k small 0 <= nth k large 0) ->
  Forall2 (fun x d => 0 <= x < d) q large.
Proof.
  intros H. revert large. induction H as [| x d q small Hx Hq IH]; intros large Hlen Hle.
  - destruct large; [constructor | discriminate].
  - destruct large as [| d' large]; [discriminate |].
    constructor.
    + specialize (Hle 0%nat). cbn [nth List.length] in Hle. lia.
    + apply IH; [injection Hlen as Hlen; exact Hlen |].
      intros k Hk. specialize (Hle (S k)). cbn [nth List.length] in Hle. apply Hle. lia.
Qed.

Lemma replace_in_bounds (a : nat) q small large v :
  Forall2 (fun x d => 0 <= x < d) q small ->
  List.length small = List.length large ->
  (a < List.length large)%nat ->
  (forall k, (k < List.length large)%nat -> k <> a -> nth k small 0 <= nth k large 0) ->
  0 <= v < nth a large 0 ->
  Forall2 (fun x d => 0 <= x < d) (firstn a q ++ v :: skipn (S a) q) large.
Proof.
  revert q small large. induction a as [| a IH]; intros q small large Hq Hlen Ha Hle Hv.
  - destruct Hq as [| x d q small Hx Hq]; [cbn [List.length] in *; lia |].
    destruct large as [| d' large]; [discriminate |].
    cbn [firstn skipn app nth] in *. constructor; [exact Hv |].
    apply (in_bounds_widen q small); [exact Hq | injection Hlen as Hlen; exact Hlen |].
    intros k Hk. specialize (Hle (S k)). cbn [nth List.length] in Hle. apply Hle; lia.
  - destruct Hq as [| x d q small Hx Hq]; [cbn [List.length] in *; lia |].
    destruct large as [| d' large]; [discriminate |].
    cbn [firstn skipn app nth List.length] in *. constructor.
    + specialize (Hle 0%nat). cbn [nth] in Hle. assert (d <= d') by (apply Hle; lia). lia.
    + apply (IH q small large); [exact Hq | injection Hlen as Hlen; exact Hlen | lia | | exact Hv].
      intros k Hk Hne. specialize (Hle (S k)). cbn [nth] in Hle. apply Hle; lia.
Qed.

Lemma from_end_range v n : - n <= v < n -> 0 <= from_end v n < n.
Proof.
  intros Hv. unfold from_end. destruct (v >=? 0) eqn:E.
  - apply Z.geb_le in E. lia.
  - assert (v < 0).
    { destruct (Z.leb_spec 0 v) as [H | H]; [| exact H].
      apply Z.geb_le in H. congruence. }
    lia.
Qed.

(** Indices within [-n, n) and an [indices] tensor no larger than [data]
    off the axis send every element of [updates] to a position of
    [data]. *)
Lemma targets_stay_within data indices a :
  List.length (shape indices) = List.length (shape data) ->
  0 <= a < Z.of_nat (List.length (shape data)) ->
  (forall q, In q (grid (shape indices)) ->
     - dim data a <= get indices q < dim data a) ->
  (forall k, 0 <= k < Z.of_nat (List.length (shape data)) -> k <> a ->
     dim indices k <= dim data k) ->
  targets_within data indices a.
Proof.
  intros Hlen Ha Hidx Hdims q Hq. apply In_grid. unfold target, replace_at.
  apply (replace_in_bounds (Z.to_nat a) q (shape indices) (shape data)).
  - apply In_grid. exact Hq.
  - exact Hlen.
  - lia.
  - intros k Hk Hne. specialize (Hdims (Z.of_nat k)). unfold dim, znth in Hdims.
    rewrite Nat2Z.id in Hdims. apply Hdims; lia.
  - apply from_end_range. apply Hidx. exact Hq.
Qed.

(** X23: [scatter] writes inside its output.  For data of rank 1 to 4,
    indices of the same rank whose values lie in
    [[-data.shape[axis], data.shape[axis])] and whose extents off the axis
    do not exceed those of [data]: every position outside the shape of
    [data] is left as [output_tensor] made it. *)
Theorem scatter_writes_stay_inside
    (fresh : list Z -> Z) (data indices updates : tensor) (axis : Z) :
  let rank := Z.of_nat (List.length (shape data)) in
  let a := normal_axis data axis in
  1 <= rank <= 4 ->
  List.length (shape indices) = List.length (shape data) ->
  - rank <= axis < rank ->
  (forall q, In q (grid (shape indices)) ->
     - dim data a <= get indices q < dim data a) ->
  (forall k, 0 <= k < rank -> k <> a -> dim indices k <= dim data k) ->
  exists out,
    scatter fresh data indices updates axis = Returned out /\
    forall p, ~ In p (grid (shape data)) -> get out p = fresh p.
Proof.
  cbv zeta. intros Hrank Hlen Haxis Hidx Hdims.
  exists (scattered fresh data indices updates (normal_axis data axis)).
  split; [apply scatter_returns; assumption |].
  intros p Hp.
  pose proof (targets_stay_within data indices (normal_axis data axis) Hlen
                (proj2 (normal_axis_range data axis) Haxis) Hidx Hdims) as Hin.
  unfold scattered.
  rewrite (get_pass_miss (target data indices (normal_axis data axis)) (get updates)).
  - unfold copied. rewrite (get_pass_miss (fun p => p) (get data)); [reflexivity |].
    intros a Ha ->. exact (Hp Ha).
  - intros q Hq Heq. apply Hp. rewrite <- Heq. apply Hin. exact Hq.
Qed.

Lemma two_indices_in_range :
  forall q, In q (grid (shape two_indices)) ->
    - dim three_data (normal_axis three_data (-1)) <= get two_indices q
    < dim three_data (normal_axis three_data (-1)).
Proof.
  intros q Hq. cbn in Hq.
  destruct Hq as [<- | [<- | []]]; vm_compute; split; congruence.
Qed.

Lemma scatter_writes_stay_inside_witness :
  exists out,
    scatter no_fresh three_data two_indices two_updates (-1) = Returned out /\
    forall p, ~ In p (grid (shape three_data)) -> get out p = no_fresh p.
Proof.
  apply (scatter_writes_stay_inside no_fresh three_data two_indices two_updates (-1));
    [cbn; lia | reflexivity | cbn; lia | exact two_indices_in_range |].
  intros k Hk Hne. exfalso. apply Hne. cbn in Hk |- *. lia.
Defined.
